(** * Battleship for the Arduino Uno: the game core, embedded and verified

    The repository holds several sketches of the same game.  Four of them
    are embedded here, each in a module of its own:

    - [TestCode]: the last sketch of [battle_ship_test_code.ino]
      (10x10 grids packed at two bits per cell, hunt/target opponent,
      placement rule without the one-cell buffer, the frames shown on the
      two LED matrices), with the cell accessors of the sketch before it
      and, in [Centered] and [Framed], the accessors and the LED index of
      the first two sketches of the file;
    - [SerialMonitor]: [battle_ship_serial_monitor.ino]
      (12x12 grids of ship identifiers): the strict placement rule,
      [resetGame], the count of the ships afloat and the player's attack;
    - [StaticShipId]: the 12x12 sketch whose placed-ship counter is a
      [static] local of [playerPlaceShips];
    - [DualMatrix]: the sketch that shows two 8x8 grids on one matrix: its
      placement preview and its LED index.

    The LCD, the buzzer and the serial prints are left out; of the LED
    matrices the colour given to each cell is kept.  What a pass of [loop]
    decodes from the pins and the debounce timers is an explicit [Tick];
    the values returned by the Arduino generator behind [random()] are an
    explicit list of raw draws, and a loop that samples until it succeeds
    returns [None] when the list runs out. *)

From Stdlib Require Import ZArith Lia Bool List.
From stdpp Require Import base numbers list.
Import ListNotations.

Local Open Scope Z_scope.

(** ** Fixed-width integers *)

(** A value stored into a [uint8_t]. *)
Definition u8 (z : Z) : Z := z mod 256.

(** A value stored into a [uint16_t]. *)
Definition u16 (z : Z) : Z := z mod 65536.

(** Arduino's [random(howsmall, howbig)], applied to the raw value [raw]
    returned by the underlying generator: [random() % (howbig - howsmall) +
    howsmall], or [howsmall] when the interval is empty. *)
Definition random (howsmall howbig raw : Z) : Z :=
  if howbig <=? howsmall then howsmall
  else raw mod (howbig - howsmall) + howsmall.

(** A value stored into an [int8_t]. *)
Definition i8 (z : Z) : Z := (z + 128) mod 256 - 128.

(** A value stored into an [int16_t] (the [int] of the Uno). *)
Definition i16 (z : Z) : Z := (z + 32768) mod 65536 - 32768.

(** ** Two-bit fields of a byte *)

(** The byte written by [setCellState] and the field read by
    [getCellState] of the packed sketch when the field lies in one byte,
    as functions of the old byte (used to state their equations). *)
Definition putField (b off s : Z) : Z :=
  u8 (Z.lor (Z.land b (Z.lnot (u8 (Z.shiftl 3 off)))) (Z.shiftl (Z.land s 3) off)).

Definition getField (b off : Z) : Z := u8 (Z.land (Z.shiftr b off) 3).

(** ** Enumerations declared alike by every sketch *)

Inductive GameState : Set :=
  WAITING_TO_START | PLACING_SHIPS | PLAYER_TURN | ARDUINO_TURN | GAME_OVER.

Inductive AttackMode : Set := HUNT_MODE | TARGET_MODE.

Definition JOYSTICK_THRESHOLD : Z := 200.
Definition JOYSTICK_CENTER : Z := 512.

(** ** The packed 10x10 sketch *)

Module TestCode.

Definition GRID_SIZE : Z := 10.
Definition NUM_SHIPS : Z := 5.

Definition CELL_EMPTY : Z := 0.
Definition CELL_SHIP : Z := 1.
Definition CELL_HIT : Z := 2.
Definition CELL_MISS : Z := 3.

Definition totalGridBits : Z := u16 (GRID_SIZE * GRID_SIZE * 2).
Definition totalGridBytes : Z := u16 ((totalGridBits + 7) / 8).

(** A grid is the byte buffer [uint8_t grid[totalGridBytes]].  Reading
    outside the buffer yields the default of the list lookup (1 on [Z])
    and writing outside it does nothing; no in-bounds coordinate reaches
    either case (see [byteIndex_in_buffer]). *)
Abbreviation Grid := (list Z).

Definition rd (grid : Grid) (i : Z) : Z := grid !!! Z.to_nat i.
Definition wr (grid : Grid) (i : Z) (v : Z) : Grid := <[Z.to_nat i := u8 v]> grid.

Definition cellIndex (x y : Z) : Z := u16 (y * GRID_SIZE + x).
Definition cellBitIndex (x y : Z) : Z := u16 (cellIndex x y * 2).
Definition cellByteIndex (x y : Z) : Z := u16 (cellBitIndex x y / 8).
Definition cellBitOffset (x y : Z) : Z := u8 (cellBitIndex x y mod 8).

Definition setCellState (grid : Grid) (x y state : Z) : Grid :=
  let byteIndex := cellByteIndex x y in
  let bitOffset := cellBitOffset x y in
  let mask := u8 (Z.shiftl 3 bitOffset) in
  let grid1 :=
    wr grid byteIndex
       (Z.lor (Z.land (rd grid byteIndex) (Z.lnot mask))
              (Z.shiftl (Z.land state 3) bitOffset)) in
  if 6 <? bitOffset then
    let byteIndex' := u16 (byteIndex + 1) in
    let bitOffset' := u8 ((bitOffset + 2) mod 8) in
    let mask' := u8 (Z.shiftr 3 (6 - bitOffset')) in
    wr grid1 byteIndex'
       (Z.lor (Z.land (rd grid1 byteIndex') (Z.lnot mask'))
              (Z.shiftr (Z.land state 3) (8 - bitOffset')))
  else grid1.

Definition getCellState (grid : Grid) (x y : Z) : Z :=
  let byteIndex := cellByteIndex x y in
  let bitOffset := cellBitOffset x y in
  let state := u8 (Z.land (Z.shiftr (rd grid byteIndex) bitOffset) 3) in
  if 6 <? bitOffset then
    let byteIndex' := u16 (byteIndex + 1) in
    let bitOffset' := u8 ((bitOffset + 2) mod 8) in
    let nextBits := u8 (Z.land (rd grid byteIndex') (Z.shiftr 3 (6 - bitOffset'))) in
    u8 (Z.lor state (Z.shiftl nextBits (8 - bitOffset')))
  else state.

(** The accessors of the second sketch of the same file: no cross-byte
    branch, and the byte index is kept in a [uint8_t]. *)
Definition setCellState_single (grid : Grid) (x y state : Z) : Grid :=
  let byteIndex := u8 (cellBitIndex x y / 8) in
  let bitOffset := cellBitOffset x y in
  let grid1 := wr grid byteIndex (Z.land (rd grid byteIndex) (Z.lnot (Z.shiftl 3 bitOffset))) in
  wr grid1 byteIndex (Z.lor (rd grid1 byteIndex) (Z.shiftl (Z.land state 3) bitOffset)).

Definition getCellState_single (grid : Grid) (x y : Z) : Z :=
  let byteIndex := u8 (cellBitIndex x y / 8) in
  let bitOffset := cellBitOffset x y in
  u8 (Z.land (Z.shiftr (rd grid byteIndex) bitOffset) 3).

(** Coordinates the callers pass: both in [0, GRID_SIZE - 1]. *)
Definition inBounds (x y : Z) : Prop :=
  0 <= x < GRID_SIZE /\ 0 <= y < GRID_SIZE.

(** A buffer of the declared size holding bytes. *)
Definition wfGrid (grid : Grid) : Prop :=
  Z.of_nat (length grid) = totalGridBytes /\ Forall (fun b => 0 <= b < 256) grid.

Definition emptyGrid : Grid := replicate (Z.to_nat totalGridBytes) 0.


(** *** Ship roster *)

(** Sizes of [ships[NUM_SHIPS]]: Carrier, Battleship, Cruiser, Submarine,
    Destroyer.  The names are display only. *)
Definition ships : list Z := [5; 4; 3; 3; 2].

(** [pgm_read_byte(&(ships[i].size))]. *)
Definition shipSize (i : Z) : Z := ships !!! Z.to_nat i.

(** *** Placement *)

(** The [for] loop over [i = 0 .. size-1] returns false at the first cell
    that is not EMPTY; [xi] and [yi] are [uint8_t]. *)
Definition canPlaceShip (grid : Grid) (x y size : Z) (horizontal : bool) : bool :=
  if horizontal then
    if GRID_SIZE <? x + size then false
    else forallb (fun i => getCellState grid (u8 (x + i)) y =? CELL_EMPTY)
                 (seqZ 0 size)
  else
    if GRID_SIZE <? y + size then false
    else forallb (fun i => getCellState grid x (u8 (y + i)) =? CELL_EMPTY)
                 (seqZ 0 size).

(** No validation: the cells are written one after the other. *)
Definition placeShip (grid : Grid) (x y size : Z) (horizontal : bool) : Grid :=
  if horizontal then
    foldl (fun g i => setCellState g (u8 (x + i)) y CELL_SHIP) grid (seqZ 0 size)
  else
    foldl (fun g i => setCellState g x (u8 (y + i)) CELL_SHIP) grid (seqZ 0 size).

(** The footprint of a ship: [size] cells from the anchor, to the right
    when horizontal and downwards otherwise. *)
Definition footprint (x y size : Z) (horizontal : bool) : list (Z * Z) :=
  (fun i => if horizontal then (x + i, y) else (x, y + i)) <$> seqZ 0 size.

(** The two nested loops over [x] and [y]; the counter is a [uint8_t]. *)
Definition countRemainingShips (grid : Grid) : Z :=
  foldl (fun n x =>
           foldl (fun n y =>
                    if getCellState grid x y =? CELL_SHIP then u8 (n + 1) else n)
                 n (seqZ 0 GRID_SIZE))
        0 (seqZ 0 GRID_SIZE).

(** *** Game state *)

(** The globals of the sketch that the game logic reads or writes.  The
    button and timer variables belong to the input layer and are replaced
    by the events of a [Tick]. *)
Record Game : Type := mkGame {
  playerGrid : Grid;
  arduinoGrid : Grid;
  playerAttackGrid : Grid;
  arduinoAttackGrid : Grid;
  cursorX : Z;
  cursorY : Z;
  gameState : GameState;
  playerShipHorizontal : bool;
  arduinoAttackMode : AttackMode;
  lastHitX : Z;
  lastHitY : Z;
  targetIndex : Z;
  targetList : list (Z * Z);
  targetListInitialized : bool;
  shipId : Z
}.

Definition set_playerGrid (v : Grid) (g : Game) : Game :=
  mkGame v (arduinoGrid g) (playerAttackGrid g) (arduinoAttackGrid g)
    (cursorX g) (cursorY g) (gameState g) (playerShipHorizontal g)
    (arduinoAttackMode g) (lastHitX g) (lastHitY g) (targetIndex g)
    (targetList g) (targetListInitialized g) (shipId g).

Definition set_arduinoGrid (v : Grid) (g : Game) : Game :=
  mkGame (playerGrid g) v (playerAttackGrid g) (arduinoAttackGrid g)
    (cursorX g) (cursorY g) (gameState g) (playerShipHorizontal g)
    (arduinoAttackMode g) (lastHitX g) (lastHitY g) (targetIndex g)
    (targetList g) (targetListInitialized g) (shipId g).

Definition set_playerAttackGrid (v : Grid) (g : Game) : Game :=
  mkGame (playerGrid g) (arduinoGrid g) v (arduinoAttackGrid g)
    (cursorX g) (cursorY g) (gameState g) (playerShipHorizontal g)
    (arduinoAttackMode g) (lastHitX g) (lastHitY g) (targetIndex g)
    (targetList g) (targetListInitialized g) (shipId g).

Definition set_arduinoAttackGrid (v : Grid) (g : Game) : Game :=
  mkGame (playerGrid g) (arduinoGrid g) (playerAttackGrid g) v
    (cursorX g) (cursorY g) (gameState g) (playerShipHorizontal g)
    (arduinoAttackMode g) (lastHitX g) (lastHitY g) (targetIndex g)
    (targetList g) (targetListInitialized g) (shipId g).

Definition set_cursor (x y : Z) (g : Game) : Game :=
  mkGame (playerGrid g) (arduinoGrid g) (playerAttackGrid g) (arduinoAttackGrid g)
    x y (gameState g) (playerShipHorizontal g)
    (arduinoAttackMode g) (lastHitX g) (lastHitY g) (targetIndex g)
    (targetList g) (targetListInitialized g) (shipId g).

Definition set_gameState (v : GameState) (g : Game) : Game :=
  mkGame (playerGrid g) (arduinoGrid g) (playerAttackGrid g) (arduinoAttackGrid g)
    (cursorX g) (cursorY g) v (playerShipHorizontal g)
    (arduinoAttackMode g) (lastHitX g) (lastHitY g) (targetIndex g)
    (targetList g) (targetListInitialized g) (shipId g).

Definition set_playerShipHorizontal (v : bool) (g : Game) : Game :=
  mkGame (playerGrid g) (arduinoGrid g) (playerAttackGrid g) (arduinoAttackGrid g)
    (cursorX g) (cursorY g) (gameState g) v
    (arduinoAttackMode g) (lastHitX g) (lastHitY g) (targetIndex g)
    (targetList g) (targetListInitialized g) (shipId g).

Definition set_arduinoAttackMode (v : AttackMode) (g : Game) : Game :=
  mkGame (playerGrid g) (arduinoGrid g) (playerAttackGrid g) (arduinoAttackGrid g)
    (cursorX g) (cursorY g) (gameState g) (playerShipHorizontal g)
    v (lastHitX g) (lastHitY g) (targetIndex g)
    (targetList g) (targetListInitialized g) (shipId g).

Definition set_lastHit (x y : Z) (g : Game) : Game :=
  mkGame (playerGrid g) (arduinoGrid g) (playerAttackGrid g) (arduinoAttackGrid g)
    (cursorX g) (cursorY g) (gameState g) (playerShipHorizontal g)
    (arduinoAttackMode g) x y (targetIndex g)
    (targetList g) (targetListInitialized g) (shipId g).

Definition set_targetIndex (v : Z) (g : Game) : Game :=
  mkGame (playerGrid g) (arduinoGrid g) (playerAttackGrid g) (arduinoAttackGrid g)
    (cursorX g) (cursorY g) (gameState g) (playerShipHorizontal g)
    (arduinoAttackMode g) (lastHitX g) (lastHitY g) v
    (targetList g) (targetListInitialized g) (shipId g).

Definition set_targetList (v : list (Z * Z)) (g : Game) : Game :=
  mkGame (playerGrid g) (arduinoGrid g) (playerAttackGrid g) (arduinoAttackGrid g)
    (cursorX g) (cursorY g) (gameState g) (playerShipHorizontal g)
    (arduinoAttackMode g) (lastHitX g) (lastHitY g) (targetIndex g)
    v (targetListInitialized g) (shipId g).

Definition set_targetListInitialized (v : bool) (g : Game) : Game :=
  mkGame (playerGrid g) (arduinoGrid g) (playerAttackGrid g) (arduinoAttackGrid g)
    (cursorX g) (cursorY g) (gameState g) (playerShipHorizontal g)
    (arduinoAttackMode g) (lastHitX g) (lastHitY g) (targetIndex g)
    (targetList g) v (shipId g).

Definition set_shipId (v : Z) (g : Game) : Game :=
  mkGame (playerGrid g) (arduinoGrid g) (playerAttackGrid g) (arduinoAttackGrid g)
    (cursorX g) (cursorY g) (gameState g) (playerShipHorizontal g)
    (arduinoAttackMode g) (lastHitX g) (lastHitY g) (targetIndex g)
    (targetList g) (targetListInitialized g) v.

(** The state at power-on: zero-initialised globals and the declared
    initialisers. *)
Definition powerOn : Game :=
  mkGame emptyGrid emptyGrid emptyGrid emptyGrid 0 0 WAITING_TO_START true
    HUNT_MODE 0 0 0 [(0, 0); (0, 0); (0, 0); (0, 0)] false 0.

(** *** What one pass of [loop] reads from the pins *)

(** What the blue-button code of [loop] decodes in one pass: a release
    after less than two seconds, or a press held for two seconds. *)
Inductive BlueEvent : Set := BlueNone | BlueShortPress | BlueLongPress.

Record Tick : Type := mkTick {
  blue : BlueEvent;
  joyX : Z;            (* analogRead(JOYSTICK_X_PIN) *)
  joyY : Z;            (* analogRead(JOYSTICK_Y_PIN) *)
  moveReady : bool;    (* currentTime - lastJoystickMoveTime > JOYSTICK_MOVE_DELAY *)
  redPress : bool;     (* the debounced red button went LOW in this pass *)
  joyPress : bool      (* the joystick button went LOW in this pass *)
}.

Definition updateCursorPosition (t : Tick) (g : Game) : Game :=
  if moveReady t then
    let cx :=
      if joyX t <? JOYSTICK_CENTER - JOYSTICK_THRESHOLD then
        (if 0 <? cursorX g then u8 (cursorX g - 1) else 0)
      else if JOYSTICK_CENTER + JOYSTICK_THRESHOLD <? joyX t then
        (if cursorX g <? GRID_SIZE - 1 then u8 (cursorX g + 1) else GRID_SIZE - 1)
      else cursorX g in
    let cy :=
      if JOYSTICK_CENTER + JOYSTICK_THRESHOLD <? joyY t then
        (if 0 <? cursorY g then u8 (cursorY g - 1) else 0)
      else if joyY t <? JOYSTICK_CENTER - JOYSTICK_THRESHOLD then
        (if cursorY g <? GRID_SIZE - 1 then u8 (cursorY g + 1) else GRID_SIZE - 1)
      else cursorY g in
    set_cursor cx cy g
  else g.

Definition handleJoystickButton (t : Tick) (g : Game) : Game :=
  if joyPress t then set_playerShipHorizontal (negb (playerShipHorizontal g)) g
  else g.

(** *** Reset *)

Definition initializeGrids (g : Game) : Game :=
  set_arduinoAttackGrid emptyGrid
    (set_playerAttackGrid emptyGrid
       (set_arduinoGrid emptyGrid (set_playerGrid emptyGrid g))).

(** The [while (!placed)] loop for one ship: every attempt takes three raw
    draws (x, y, orientation).  [None] when the draws run out before an
    attempt is accepted. *)
Fixpoint placeOneArduinoShip (grid : Grid) (size : Z) (draws : list Z)
  : option (Grid * list Z) :=
  match draws with
  | rx :: ry :: rh :: rest =>
      let x := u8 (random 0 GRID_SIZE rx) in
      let y := u8 (random 0 GRID_SIZE ry) in
      let horizontal := negb (random 0 2 rh =? 0) in
      if canPlaceShip grid x y size horizontal
      then Some (placeShip grid x y size horizontal, rest)
      else placeOneArduinoShip grid size rest
  | _ => None
  end.

Fixpoint placeArduinoShipsFrom (shipIndexes : list Z) (grid : Grid) (draws : list Z)
  : option (Grid * list Z) :=
  match shipIndexes with
  | [] => Some (grid, draws)
  | shipIndex :: more =>
      match placeOneArduinoShip grid (shipSize shipIndex) draws with
      | Some (grid', draws') => placeArduinoShipsFrom more grid' draws'
      | None => None
      end
  end.

Definition placeArduinoShips (g : Game) (draws : list Z) : option (Game * list Z) :=
  match placeArduinoShipsFrom (seqZ 0 NUM_SHIPS) (arduinoGrid g) draws with
  | Some (grid, draws') => Some (set_arduinoGrid grid g, draws')
  | None => None
  end.

Definition resetGame (g : Game) (draws : list Z) : option (Game * list Z) :=
  match placeArduinoShips (initializeGrids g) draws with
  | Some (g1, draws') =>
      let g2 := set_cursor 0 0 g1 in
      let g3 := set_playerShipHorizontal true g2 in
      let g4 := set_shipId 0 g3 in
      let g5 := set_arduinoAttackMode HUNT_MODE g4 in
      let g6 := set_lastHit 0 0 g5 in
      let g7 := set_targetIndex 0 g6 in
      let g8 := set_targetListInitialized false g7 in
      Some (set_gameState PLACING_SHIPS g8, draws')
  | None => None
  end.

(** *** Player placement *)

Definition playerPlaceShips (t : Tick) (g : Game) : Game :=
  if NUM_SHIPS <=? shipId g then set_gameState PLAYER_TURN g
  else
    let size := shipSize (shipId g) in
    let g1 := updateCursorPosition t g in
    let g2 :=
      if redPress t then
        if canPlaceShip (playerGrid g1) (cursorX g1) (cursorY g1) size
                        (playerShipHorizontal g1)
        then set_shipId (u8 (shipId g1 + 1))
               (set_playerGrid
                  (placeShip (playerGrid g1) (cursorX g1) (cursorY g1) size
                             (playerShipHorizontal g1)) g1)
        else g1
      else g1 in
    handleJoystickButton t g2.

(** *** Player attack *)

(** The body run when the red button press is registered. *)
Definition playerAttackPress (g : Game) : Game :=
  if getCellState (playerAttackGrid g) (cursorX g) (cursorY g) =? CELL_EMPTY then
    let cellState := getCellState (arduinoGrid g) (cursorX g) (cursorY g) in
    let g1 :=
      if cellState =? CELL_SHIP then
        set_arduinoGrid
          (setCellState (arduinoGrid g) (cursorX g) (cursorY g) CELL_HIT)
          (set_playerAttackGrid
             (setCellState (playerAttackGrid g) (cursorX g) (cursorY g) CELL_HIT) g)
      else
        set_arduinoGrid
          (setCellState (arduinoGrid g) (cursorX g) (cursorY g) CELL_MISS)
          (set_playerAttackGrid
             (setCellState (playerAttackGrid g) (cursorX g) (cursorY g) CELL_MISS) g) in
    let arduinoShipsRemaining := countRemainingShips (arduinoGrid g1) in
    if arduinoShipsRemaining =? 0 then set_gameState GAME_OVER g1
    else set_gameState ARDUINO_TURN g1
  else g.

Definition playerAttack (t : Tick) (g : Game) : Game :=
  let g1 := updateCursorPosition t g in
  if redPress t then playerAttackPress g1 else g1.

(** *** Opponent attack *)

(** The hunt-mode [do ... while (!validAttack)] loop: every round takes two
    raw draws.  [None] when the draws run out before an untried cell is
    drawn. *)
Fixpoint huntSample (attackGrid : Grid) (draws : list Z) : option (Z * Z * list Z) :=
  match draws with
  | rx :: ry :: rest =>
      let x := u8 (random 0 GRID_SIZE rx) in
      let y := u8 (random 0 GRID_SIZE ry) in
      if getCellState attackGrid x y =? CELL_EMPTY then Some (x, y, rest)
      else huntSample attackGrid rest
  | _ => None
  end.

(** The hit and miss blocks, written out twice in the source (hunt and
    target branch) with the same assignments. *)
Definition arduinoShoot (x y : Z) (g : Game) : Game :=
  if getCellState (playerGrid g) x y =? CELL_SHIP then
    let g1 := set_arduinoAttackGrid (setCellState (arduinoAttackGrid g) x y CELL_HIT) g in
    let g2 := set_playerGrid (setCellState (playerGrid g1) x y CELL_HIT) g1 in
    let g3 := set_lastHit x y g2 in
    let g4 := set_arduinoAttackMode TARGET_MODE g3 in
    let g5 := set_targetIndex 0 g4 in
    set_targetListInitialized false g5
  else
    let g1 := set_arduinoAttackGrid (setCellState (arduinoAttackGrid g) x y CELL_MISS) g in
    set_playerGrid (setCellState (playerGrid g1) x y CELL_MISS) g1.

(** The block guarded by [!targetListInitialized]: the slots [0 .. idx-1]
    of [targetList] are overwritten, the others keep what they held. *)
Definition initTargetList (g : Game) : Game :=
  let hx := lastHitX g in
  let hy := lastHitY g in
  let tl0 := targetList g in
  let idx0 := 0%nat in
  let '(tl1, idx1) :=
    if 0 <? hx then (<[idx0 := (u8 (hx - 1), hy)]> tl0, S idx0) else (tl0, idx0) in
  let '(tl2, idx2) :=
    if hx <? GRID_SIZE - 1 then (<[idx1 := (u8 (hx + 1), hy)]> tl1, S idx1) else (tl1, idx1) in
  let '(tl3, idx3) :=
    if 0 <? hy then (<[idx2 := (hx, u8 (hy - 1))]> tl2, S idx2) else (tl2, idx2) in
  let '(tl4, idx4) :=
    if hy <? GRID_SIZE - 1 then (<[idx3 := (hx, u8 (hy + 1))]> tl3, S idx3) else (tl3, idx3) in
  set_targetListInitialized true (set_targetList tl4 (set_targetIndex 0 g)).

(** The [while (targetIndex < 4)] loop over the slots that are left,
    [slots] being [targetList[targetIndex .. 3]]: the first untried slot
    is returned with the index after it; when none is, the index ends
    past the last slot. *)
Fixpoint scanTargets (attackGrid : Grid) (slots : list (Z * Z)) (targetIndex : Z)
  : option (Z * Z) * Z :=
  match slots with
  | [] => (None, targetIndex)
  | (x, y) :: rest =>
      if getCellState attackGrid x y =? CELL_EMPTY
      then (Some (x, y), u8 (targetIndex + 1))
      else scanTargets attackGrid rest (u8 (targetIndex + 1))
  end.

Definition remainingSlots (g : Game) : list (Z * Z) :=
  drop (Z.to_nat (targetIndex g)) (take 4 (targetList g)).

Definition arduinoWinCheck (g : Game) : Game :=
  let playerShipsRemaining := countRemainingShips (playerGrid g) in
  if playerShipsRemaining =? 0 then set_gameState GAME_OVER g
  else set_gameState PLAYER_TURN g.

(** [arduinoAttack] calls itself when the target list is used up; [depth]
    bounds the nesting of calls ([None] when it is exceeded or when the
    hunt loop runs out of draws). *)
Fixpoint arduinoAttack (depth : nat) (g : Game) (draws : list Z)
  : option (Game * list Z) :=
  match depth with
  | O => None
  | S depth' =>
      match arduinoAttackMode g with
      | HUNT_MODE =>
          match huntSample (arduinoAttackGrid g) draws with
          | Some (x, y, draws') => Some (arduinoWinCheck (arduinoShoot x y g), draws')
          | None => None
          end
      | TARGET_MODE =>
          let g1 := if targetListInitialized g then g else initTargetList g in
          let '(candidate, index') :=
            scanTargets (arduinoAttackGrid g1) (remainingSlots g1) (targetIndex g1) in
          let g2 := set_targetIndex index' g1 in
          match candidate with
          | Some (x, y) => Some (arduinoWinCheck (arduinoShoot x y g2), draws)
          | None => arduinoAttack depth' (set_arduinoAttackMode HUNT_MODE g2) draws
          end
      end
  end.

(** *** The main loop *)

Definition loop (t : Tick) (g : Game) (draws : list Z) : option (Game * list Z) :=
  let afterBlue :=
    match blue t with
    | BlueLongPress => resetGame g draws
    | BlueShortPress =>
        match gameState g with
        | WAITING_TO_START | GAME_OVER => resetGame g draws
        | _ => Some (g, draws)
        end
    | BlueNone => Some (g, draws)
    end in
  match afterBlue with
  | Some (g1, draws1) =>
      match gameState g1 with
      | WAITING_TO_START => Some (g1, draws1)
      | PLACING_SHIPS => Some (playerPlaceShips t g1, draws1)
      | PLAYER_TURN => Some (playerAttack t g1, draws1)
      | ARDUINO_TURN => arduinoAttack 2 g1 draws1
      | GAME_OVER => Some (g1, draws1)
      end
  | None => None
  end.

(** The cell [c] still holds a ship segment. *)
Definition isShip (grid : Grid) (c : Z * Z) : Prop :=
  getCellState grid c.1 c.2 = CELL_SHIP.

#[global] Instance isShip_dec (grid : Grid) (c : Z * Z) : Decision (isShip grid c).
Proof. unfold isShip. apply _. Defined.

(** *** Well-formed states *)

Definition untried (attackGrid : Grid) (c : Z * Z) : bool :=
  getCellState attackGrid c.1 c.2 =? CELL_EMPTY.

Definition allCells : list (Z * Z) :=
  x ← seqZ 0 GRID_SIZE; (fun y => (x, y)) <$> seqZ 0 GRID_SIZE.


Definition wfGame (g : Game) : Prop :=
  wfGrid (playerGrid g) /\ wfGrid (arduinoGrid g) /\
  wfGrid (playerAttackGrid g) /\ wfGrid (arduinoAttackGrid g) /\
  inBounds (cursorX g) (cursorY g) /\
  inBounds (lastHitX g) (lastHitY g) /\
  0 <= targetIndex g <= 4 /\
  length (targetList g) = 4%nat /\
  Forall (fun c => inBounds c.1 c.2) (targetList g).

(** [g'] is [g] after one resolved opponent attack at [(x, y)]: the cell
    was untried, it now holds HIT or MISS on the opponent's attack grid and
    on the player's grid, and the win check has run. *)
Definition resolvedAt (g g' : Game) (x y : Z) : Prop :=
  inBounds x y /\
  getCellState (arduinoAttackGrid g) x y = CELL_EMPTY /\
  let mark :=
    if getCellState (playerGrid g) x y =? CELL_SHIP then CELL_HIT else CELL_MISS in
  arduinoAttackGrid g' = setCellState (arduinoAttackGrid g) x y mark /\
  playerGrid g' = setCellState (playerGrid g) x y mark /\
  arduinoGrid g' = arduinoGrid g /\
  playerAttackGrid g' = playerAttackGrid g /\
  gameState g' =
    (if countRemainingShips (playerGrid g') =? 0 then GAME_OVER else PLAYER_TURN).

(** The raw draws reach an untried cell: some round of the hunt loop,
    the [n]-th, draws one. *)
Definition drawsReachUntried (attackGrid : Grid) (draws : list Z) : Prop :=
  exists (n : nat) (rx ry : Z),
    draws !! (2 * n)%nat = Some rx /\ draws !! (2 * n + 1)%nat = Some ry /\
    untried attackGrid (u8 (random 0 GRID_SIZE rx), u8 (random 0 GRID_SIZE ry)) = true.

(** *** The target queue as the specification words it *)

Definition inBoundsb (x y : Z) : bool :=
  (0 <=? x) && (x <? GRID_SIZE) && (0 <=? y) && (y <? GRID_SIZE).

(** The orthogonal neighbours of the last hit that lie inside the grid, in
    the order left, right, up, down.  This follows the specification, not
    the source; [initTargetList] and [scanTargets] above are the source. *)
Definition orthogonalNeighbours (hx hy : Z) : list (Z * Z) :=
  List.filter (fun c => inBoundsb c.1 c.2)
    [(hx - 1, hy); (hx + 1, hy); (hx, hy - 1); (hx, hy + 1)].

(** *** Running the sketch *)

(** Successive passes of [loop], one per tick. *)
Fixpoint runLoop (ticks : list Tick) (g : Game) (draws : list Z)
  : option (Game * list Z) :=
  match ticks with
  | [] => Some (g, draws)
  | t :: more =>
      match loop t g draws with
      | Some (g', draws') => runLoop more g' draws'
      | None => None
      end
  end.

(** The state in which the target list is scanned. *)
Definition prepared (g : Game) : Game :=
  if targetListInitialized g then g else initTargetList g.

(** The untried slot the TARGET branch of [arduinoAttack] finds in what is
    left of the target list, if there is one; [None] in HUNT mode. *)
Definition targetCandidate (g : Game) : option (Z * Z) :=
  match arduinoAttackMode g with
  | HUNT_MODE => None
  | TARGET_MODE =>
      (scanTargets (arduinoAttackGrid (prepared g)) (remainingSlots (prepared g))
                   (targetIndex (prepared g))).1
  end.

(** The call finds a cell to fire at: the target list gives one, or the
    hunt loop draws one. *)
Definition findsCell (g : Game) (draws : list Z) : Prop :=
  targetCandidate g <> None \/ drawsReachUntried (arduinoAttackGrid g) draws.



(** *** Example inputs *)

(** The red button pressed with the joystick at rest. *)
Definition pressTick : Tick := mkTick BlueNone 512 512 false true false.

(** The player's turn, the opponent owning a single one-cell ship at the
    cursor position (0, 0). *)
Definition oneShipGame : Game :=
  set_gameState PLAYER_TURN
    (set_arduinoGrid (placeShip emptyGrid 0 0 1 true) powerOn).

(** A game that runs into a stale slot of the target list. *)

Definition idle : Tick := mkTick BlueNone 512 512 false false false.
Definition start : Tick := mkTick BlueShortPress 512 512 false false false.
Definition down : Tick := mkTick BlueNone 512 0 true false false.
Definition up : Tick := mkTick BlueNone 512 1023 true false false.
Definition press : Tick := mkTick BlueNone 512 512 false true false.
Definition downPress : Tick := mkTick BlueNone 512 0 true true false.
Definition upPress : Tick := mkTick BlueNone 512 1023 true true false.

(** The blue button starts the game; the player puts the Carrier,
    Battleship, Cruiser and Submarine in rows 5 to 8 and the Destroyer at
    (0,2)-(1,2); a last pass ends the placement phase. *)
Definition placementTicks : list Tick :=
  [start; down; down; down; down; downPress; downPress; downPress; downPress;
   up; up; up; up; up; upPress; idle].

(** Four rounds: the player fires (at a new cell each time), then the
    opponent does. *)
Definition battleTicks : list Tick :=
  [press; idle; downPress; idle; downPress; idle; downPress; idle].

(** The raw draws: fifteen for the opponent's five ships (rows 0 to 4),
    then the single hunt-mode round, which draws the cell (1, 2). *)
Definition scenarioDraws : list Z :=
  [0; 0; 1; 0; 1; 1; 0; 2; 1; 0; 3; 1; 0; 4; 1] ++ [1; 2].

Definition right : Tick := mkTick BlueNone 1023 512 true false false.
Definition left : Tick := mkTick BlueNone 0 512 true false false.
Definition rightPress : Tick := mkTick BlueNone 1023 512 true true false.
Definition leftPress : Tick := mkTick BlueNone 0 512 true true false.

(** The fifteen draws of [scenarioDraws] that place the opponent's ships. *)
Definition fleetDraws : list Z := [0; 0; 1; 0; 1; 1; 0; 2; 1; 0; 3; 1; 0; 4; 1].

(** The player's seventeen shots, one at each cell of the opponent's
    ships, starting from the cursor position (0, 2) the placement ends at;
    the passes that only move the cursor go over cells already tried. *)
Definition winningShots : list (list Tick) :=
  [[press]; [rightPress]; [rightPress]; [downPress]; [leftPress]; [leftPress];
   [downPress]; [rightPress]; [up; up; upPress]; [leftPress];
   [right; rightPress]; [rightPress]; [upPress]; [rightPress];
   [left; leftPress]; [leftPress]; [leftPress]].

(** Every shot but the last is followed by the opponent's turn. *)
Definition winningTicks : list Tick :=
  (shot ← take 16 winningShots; shot ++ [idle]) ++ (shot ← drop 16 winningShots; shot).

(** Sixteen hunt rounds that all miss: row 9 and six cells of row 0. *)
Definition missDraws : list Z :=
  (x ← seqZ 0 10; [x; 9]) ++ (x ← seqZ 0 6; [x; 0]).

(** The state the scenario of [placementTicks] and [battleTicks] ends in,
    the state a reset from power-on gives, and the state at the end of the
    game the player wins. *)
Definition battleState : Game :=
  Eval vm_compute in
    match runLoop (placementTicks ++ battleTicks) powerOn scenarioDraws with
    | Some (g, _) => g
    | None => powerOn
    end.

Definition freshGame : Game :=
  Eval vm_compute in
    match resetGame powerOn fleetDraws with
    | Some (g, _) => g
    | None => powerOn
    end.

Definition wonState : Game :=
  Eval vm_compute in
    match runLoop (placementTicks ++ winningTicks) powerOn (fleetDraws ++ missDraws) with
    | Some (g, _) => g
    | None => powerOn
    end.

(** A state whose opponent attack grid holds MISS in every cell. *)
Definition fullAttackGame : Game :=
  set_arduinoAttackGrid (replicate (Z.to_nat totalGridBytes) 255) powerOn.

(** Three states of the scenario in which the opponent is to fire: after
    the player's first shot (HUNT mode, nothing tried yet); after the
    player's fifth shot (TARGET mode, the last slot of the target list
    untried); after the player's sixth shot (TARGET mode, the target list
    used up). *)
Definition huntTurn : Game :=
  Eval vm_compute in
    match runLoop (placementTicks ++ [press]) powerOn fleetDraws with
    | Some (g, _) => g
    | None => powerOn
    end.

Definition targetTurn : Game :=
  Eval vm_compute in
    match runLoop (placementTicks ++ battleTicks ++ [downPress]) powerOn scenarioDraws with
    | Some (g, _) => g
    | None => powerOn
    end.


(** The opponent's turn, the player owning a single one-cell ship at
    (3, 4). *)
Definition lastCellGame : Game :=
  set_gameState ARDUINO_TURN
    (set_playerGrid (placeShip emptyGrid 3 4 1 true) powerOn).

(** *** What the two matrices show *)

Definition NUM_LEDS : Z := GRID_SIZE * GRID_SIZE.

Inductive CRGB : Set := Black | White | Green | Red | Blue | Yellow.

Definition placing (g : Game) : bool :=
  match gameState g with PLACING_SHIPS => true | _ => false end.

Definition attacking (g : Game) : bool :=
  match gameState g with PLAYER_TURN => true | _ => false end.

(** [int16_t getLEDIndex(int16_t x, int16_t y)]. *)
Definition getLEDIndex (x y : Z) : Z :=
  if (x <? 0) || (GRID_SIZE <=? x) || (y <? 0) || (GRID_SIZE <=? y) then -1
  else i16 (y * GRID_SIZE + x).

(** The roster entry is read at [shipId] ([shipSize] yields the default
    of the list lookup, 1, past the roster); the two [for] loops return
    true at the first [i] whose cell is [(x, y)]. *)
Definition isShipPreviewPosition (g : Game) (x y : Z) : bool :=
  if negb (placing g) then false
  else
    let size := shipSize (shipId g) in
    if playerShipHorizontal g then
      if GRID_SIZE <? cursorX g + size then false
      else existsb (fun i => (x =? u8 (cursorX g + i)) && (y =? cursorY g))
                   (seqZ 0 size)
    else
      if GRID_SIZE <? cursorY g + size then false
      else existsb (fun i => (x =? cursorX g) && (y =? u8 (cursorY g + i)))
                   (seqZ 0 size).

(** The colour [updatePlayerMatrix] gives the cell [(x, y)]: the later
    assignments to [color] override the earlier ones. *)
Definition playerCellColor (g : Game) (x y : Z) : CRGB :=
  let color0 := Black in
  let color1 :=
    if placing g && (x =? cursorX g) && (y =? cursorY g) then White else color0 in
  let cellState := getCellState (playerGrid g) x y in
  let color2 :=
    if cellState =? CELL_SHIP then Green
    else if cellState =? CELL_HIT then Red
    else if cellState =? CELL_MISS then Blue
    else color1 in
  if placing g && isShipPreviewPosition g x y then Yellow else color2.

(** The colour [updateCPUMatrix] gives the cell [(x, y)]; the last [else]
    assigns Black. *)
Definition cpuCellColor (g : Game) (x y : Z) : CRGB :=
  let color0 := Black in
  let color1 :=
    if attacking g && (x =? cursorX g) && (y =? cursorY g) then White else color0 in
  let attackState := getCellState (playerAttackGrid g) x y in
  if attackState =? CELL_HIT then Red
  else if attackState =? CELL_MISS then Blue
  else Black.

(** [fill_solid(leds, NUM_LEDS, CRGB::Black)] and the two nested loops over
    [y] and [x] that both matrix functions run; [color] is the body that
    picks the colour of a cell. *)
Definition paintMatrix (color : Z -> Z -> CRGB) : list CRGB :=
  foldl (fun leds y =>
           foldl (fun leds x =>
                    let ledIndex := getLEDIndex x y in
                    if (0 <=? ledIndex) && (ledIndex <? NUM_LEDS)
                    then <[Z.to_nat ledIndex := color x y]> leds
                    else leds)
                 leds (seqZ 0 GRID_SIZE))
        (replicate (Z.to_nat NUM_LEDS) Black) (seqZ 0 GRID_SIZE).

Definition updatePlayerMatrix (g : Game) : list CRGB := paintMatrix (playerCellColor g).
Definition updateCPUMatrix (g : Game) : list CRGB := paintMatrix (cpuCellColor g).

(** *** The placement phase seen from outside *)

(** The extent of the ship along its axis ends inside the grid. *)
Definition fits (x y size : Z) (horizontal : bool) : Prop :=
  if horizontal then x + size <= GRID_SIZE else y + size <= GRID_SIZE.

(** Cells of the first [n] ships of the roster. *)
Definition rosterCells (n : Z) : Z := foldr Z.add 0 (take (Z.to_nat n) ships).

(** *** Book-keeping of a game *)

(** The number of cells of [grid] that hold the state [s]. *)
Definition countIn (s : Z) (grid : Grid) : Z :=
  Z.of_nat (length (filter (fun c => getCellState grid c.1 c.2 = s) allCells)).

(** The attack grid shows the defender's grid with its ships hidden: a cell
    reads HIT or MISS on both or on neither. *)
Definition mirrors (attackGrid defenderGrid : Grid) : Prop :=
  forall x y, inBounds x y ->
    getCellState attackGrid x y =
    if getCellState defenderGrid x y =? CELL_SHIP then CELL_EMPTY
    else getCellState defenderGrid x y.

(** No cell of the grid has been attacked: each holds EMPTY or SHIP. *)
Definition pristine (grid : Grid) : Prop :=
  forall x y, inBounds x y ->
    getCellState grid x y = CELL_EMPTY \/ getCellState grid x y = CELL_SHIP.

(** The accounts of a game: each attack grid mirrors the grid it attacks;
    once the game has left WAITING_TO_START the ship cells left on a grid
    and the hits recorded against it add up to the cells that were placed
    on it; the battle phases are entered with the whole roster placed;
    GAME_OVER is held with one grid out of ship cells; no hit is recorded
    during the placement; and while the turns alternate both grids hold a
    ship cell. *)
Definition accounts (g : Game) : Prop :=
  mirrors (playerAttackGrid g) (arduinoGrid g) /\
  mirrors (arduinoAttackGrid g) (playerGrid g) /\
  (gameState g <> WAITING_TO_START ->
   0 <= shipId g <= NUM_SHIPS /\
   countRemainingShips (arduinoGrid g) + countIn CELL_HIT (playerAttackGrid g)
   = rosterCells NUM_SHIPS /\
   countRemainingShips (playerGrid g) + countIn CELL_HIT (arduinoAttackGrid g)
   = rosterCells (shipId g)) /\
  (gameState g = PLAYER_TURN \/ gameState g = ARDUINO_TURN \/ gameState g = GAME_OVER ->
   shipId g = NUM_SHIPS) /\
  (gameState g = GAME_OVER ->
   countRemainingShips (arduinoGrid g) = 0 \/ countRemainingShips (playerGrid g) = 0) /\
  (gameState g = PLACING_SHIPS ->
   countIn CELL_HIT (playerAttackGrid g) = 0 /\
   countIn CELL_HIT (arduinoAttackGrid g) = 0) /\
  (gameState g = PLAYER_TURN \/ gameState g = ARDUINO_TURN ->
   0 < countRemainingShips (arduinoGrid g) /\ 0 < countRemainingShips (playerGrid g)).

(** The cells still to attack, on both attack grids together. *)
Definition untriedLeft (g : Game) : Z :=
  countIn CELL_EMPTY (playerAttackGrid g) + countIn CELL_EMPTY (arduinoAttackGrid g).

(** *** The first sketch of the file: a 10x10 grid on a 16x16 matrix *)

Module Centered.

Definition NUM_LEDS : Z := 256.
Definition GRID_OFFSET_X : Z := 3.
Definition GRID_OFFSET_Y : Z := 3.

(** [sizeof playerGrid]: [(GRID_SIZE * GRID_SIZE + 3) / 4 + 1]. *)
Definition gridBytes : Z := (GRID_SIZE * GRID_SIZE + 3) / 4 + 1.

(** The accessors address the cell by [index / 4] and [(index % 4) * 2]. *)
Definition setCellState (grid : Grid) (x y state : Z) : Grid :=
  let index := u16 (y * GRID_SIZE + x) in
  let byteIndex := u16 (index / 4) in
  let bitOffset := u8 ((index mod 4) * 2) in
  let grid1 :=
    wr grid byteIndex (Z.land (rd grid byteIndex) (Z.lnot (Z.shiftl 3 bitOffset))) in
  wr grid1 byteIndex (Z.lor (rd grid1 byteIndex) (Z.shiftl (Z.land state 3) bitOffset)).

Definition getCellState (grid : Grid) (x y : Z) : Z :=
  let index := u16 (y * GRID_SIZE + x) in
  let byteIndex := u16 (index / 4) in
  let bitOffset := u8 ((index mod 4) * 2) in
  u8 (Z.land (Z.shiftr (rd grid byteIndex) bitOffset) 3).

(** [int getLEDIndex(int x, int y)]: odd rows of the matrix are wired
    right to left; [%] is the remainder of C. *)
Definition getLEDIndex (x y : Z) : Z :=
  let adjustedX := i16 (x + GRID_OFFSET_X) in
  let adjustedY := i16 (y + GRID_OFFSET_Y) in
  let ledIndex :=
    if Z.rem adjustedY 2 =? 0 then i16 (adjustedY * 16 + adjustedX)
    else i16 (adjustedY * 16 + (15 - adjustedX)) in
  if (ledIndex <? 0) || (NUM_LEDS <=? ledIndex) then -1 else ledIndex.

End Centered.

(** *** The second sketch of the file: a 10x10 grid framed in a 12x12 matrix *)

Module Framed.

Definition MATRIX_SIZE : Z := 12.
Definition NUM_LEDS : Z := MATRIX_SIZE * MATRIX_SIZE.

(** [int16_t getLEDIndex(int16_t x, int16_t y)]: only the upper bounds are
    tested; [ledX] and [ledY] are [uint8_t]. *)
Definition getLEDIndex (x y : Z) : Z :=
  if (GRID_SIZE <=? x) || (GRID_SIZE <=? y) then -1
  else
    let ledX := u8 (x + 1) in
    let ledY := u8 (y + 1) in
    if ledY mod 2 =? 0 then i16 (ledY * MATRIX_SIZE + ledX)
    else i16 (ledY * MATRIX_SIZE + (MATRIX_SIZE - 1 - ledX)).

End Framed.

End TestCode.

(** ** The 12x12 sketch with ship identifiers and the strict placement rule *)

Module SerialMonitor.

Definition GRID_SIZE : Z := 12.
Definition NUM_SHIPS : Z := 7.

Definition EMPTY : Z := 0.
Definition SHIP_HIT : Z := -1.
Definition ATTACK_UNTRIED : Z := 0.
Definition ATTACK_MISS : Z := 1.
Definition ATTACK_HIT : Z := 2.

Definition ships : list Z := [5; 4; 3; 3; 2; 2; 1].
Definition shipSize (i : Z) : Z := ships !!! Z.to_nat i.

(** A grid is [int8_t grid[GRID_SIZE][GRID_SIZE]], indexed [grid[x][y]]:
    a list of columns.  Reading outside it yields the default of the list
    lookup (1 on [Z]) and writing outside it does nothing; the callers pass
    coordinates inside the grid. *)
Abbreviation Grid := (list (list Z)).

Definition cell (grid : Grid) (x y : Z) : Z :=
  (grid !!! Z.to_nat x) !!! Z.to_nat y.

Definition setCell (grid : Grid) (x y v : Z) : Grid :=
  <[Z.to_nat x := <[Z.to_nat y := v]> (grid !!! Z.to_nat x)]> grid.

Definition emptyGrid : Grid :=
  replicate (Z.to_nat GRID_SIZE) (replicate (Z.to_nat GRID_SIZE) 0).

Definition inBounds (x y : Z) : Prop :=
  0 <= x < GRID_SIZE /\ 0 <= y < GRID_SIZE.

Definition wfGrid (grid : Grid) : Prop :=
  length grid = Z.to_nat GRID_SIZE /\
  Forall (fun col => length col = Z.to_nat GRID_SIZE) grid.

(** The two nested [dx], [dy] loops around the cell [(xi, yi)]. *)
Definition surroundingsClear (grid : Grid) (xi yi : Z) : bool :=
  forallb (fun dx =>
    forallb (fun dy =>
      let nx := i8 (xi + dx) in
      let ny := i8 (yi + dy) in
      if (0 <=? nx) && (nx <? GRID_SIZE) && (0 <=? ny) && (ny <? GRID_SIZE) then
        if negb (cell grid nx ny =? EMPTY) && negb ((nx =? xi) && (ny =? yi))
        then false else true
      else true)
    [-1; 0; 1])
  [-1; 0; 1].

Definition canPlaceShip (grid : Grid) (x y size : Z) (horizontal : bool) : bool :=
  if horizontal then
    if GRID_SIZE <? x + size then false
    else forallb (fun i =>
                    let xi := u8 (x + i) in
                    let yi := y in
                    if negb (cell grid xi yi =? EMPTY) then false
                    else surroundingsClear grid xi yi)
                 (seqZ 0 size)
  else
    if GRID_SIZE <? y + size then false
    else forallb (fun i =>
                    let xi := x in
                    let yi := u8 (y + i) in
                    if negb (cell grid xi yi =? EMPTY) then false
                    else surroundingsClear grid xi yi)
                 (seqZ 0 size).

Definition placeShip (grid : Grid) (x y size : Z) (horizontal : bool) (shipId : Z) : Grid :=
  if horizontal then
    foldl (fun g i => setCell g (x + i) y (i8 shipId)) grid (seqZ 0 size)
  else
    foldl (fun g i => setCell g x (y + i) (i8 shipId)) grid (seqZ 0 size).

Definition footprint (x y size : Z) (horizontal : bool) : list (Z * Z) :=
  (fun i => if horizontal then (x + i, y) else (x, y + i)) <$> seqZ 0 size.

(** [c] and [d] touch: they are equal or 8-neighbours. *)
Definition touches (c d : Z * Z) : Prop :=
  -1 <= d.1 - c.1 <= 1 /\ -1 <= d.2 - c.2 <= 1.

Record Game : Type := mkGame {
  playerGrid : Grid;
  arduinoGrid : Grid;
  playerAttackGrid : Grid;
  arduinoAttackGrid : Grid;
  cursorX : Z;
  cursorY : Z;
  gameState : GameState;
  playerShipHorizontal : bool;
  arduinoAttackMode : AttackMode;
  lastHitX : Z;
  lastHitY : Z;
  targetIndex : Z;
  targetList : list (Z * Z);
  targetListInitialized : bool;
  shipId : Z
}.

Fixpoint placeOneArduinoShip (grid : Grid) (size shipId : Z) (draws : list Z)
  : option (Grid * list Z) :=
  match draws with
  | rx :: ry :: rh :: rest =>
      let x := u8 (random 0 GRID_SIZE rx) in
      let y := u8 (random 0 GRID_SIZE ry) in
      let horizontal := negb (random 0 2 rh =? 0) in
      if canPlaceShip grid x y size horizontal
      then Some (placeShip grid x y size horizontal (u8 (shipId + 1)), rest)
      else placeOneArduinoShip grid size shipId rest
  | _ => None
  end.

Fixpoint placeArduinoShipsFrom (shipIds : list Z) (grid : Grid) (draws : list Z)
  : option (Grid * list Z) :=
  match shipIds with
  | [] => Some (grid, draws)
  | shipId :: more =>
      match placeOneArduinoShip grid (shipSize shipId) shipId draws with
      | Some (grid', draws') => placeArduinoShipsFrom more grid' draws'
      | None => None
      end
  end.

(** [initializeGrids(); placeArduinoShips();] and the assignments that
    follow them in [resetGame]: every global of [Game] is assigned except
    the contents of [targetList]. *)
Definition resetGame (g : Game) (draws : list Z) : option (Game * list Z) :=
  match placeArduinoShipsFrom (seqZ 0 NUM_SHIPS) emptyGrid draws with
  | Some (arduinoGrid', draws') =>
      Some (mkGame emptyGrid arduinoGrid' emptyGrid emptyGrid
              0 0 PLACING_SHIPS true HUNT_MODE 0 0 0 (targetList g) false 0,
            draws')
  | None => None
  end.

(** The cells in the order of the two loops of [countRemainingShips]. *)
Definition allCells : list (Z * Z) :=
  x ← seqZ 0 GRID_SIZE; (fun y => (x, y)) <$> seqZ 0 GRID_SIZE.

(** [shipsFound] after the two nested loops over [x] and [y]: the entry
    [grid[x][y] - 1] is set for every cell above zero.  (An identifier
    above NUM_SHIPS would index past the array; the sketch writes none.) *)
Definition shipsFound (grid : Grid) : list Z :=
  foldl (fun found x =>
           foldl (fun found y =>
                    if 0 <? cell grid x y
                    then <[Z.to_nat (cell grid x y - 1) := 1]> found
                    else found)
                 found (seqZ 0 GRID_SIZE))
        (replicate (Z.to_nat NUM_SHIPS) 0) (seqZ 0 GRID_SIZE).

(** The second loop counts the entries that are set; the counter is a
    [uint8_t]. *)
Definition countRemainingShips (grid : Grid) : Z :=
  foldl (fun n i => if shipsFound grid !!! Z.to_nat i =? 1 then u8 (n + 1) else n)
        0 (seqZ 0 NUM_SHIPS).

(** The body of [playerAttack] run when the red button press is
    registered. *)
Definition playerAttackPress (g : Game) : Game :=
  if cell (playerAttackGrid g) (cursorX g) (cursorY g) =? ATTACK_UNTRIED then
    let '(attackGrid', arduinoGrid') :=
      if 0 <? cell (arduinoGrid g) (cursorX g) (cursorY g) then
        (setCell (playerAttackGrid g) (cursorX g) (cursorY g) ATTACK_HIT,
         setCell (arduinoGrid g) (cursorX g) (cursorY g) SHIP_HIT)
      else
        (setCell (playerAttackGrid g) (cursorX g) (cursorY g) ATTACK_MISS,
         arduinoGrid g) in
    let arduinoShipsRemaining := countRemainingShips arduinoGrid' in
    mkGame (playerGrid g) arduinoGrid' attackGrid' (arduinoAttackGrid g)
      (cursorX g) (cursorY g)
      (if arduinoShipsRemaining =? 0 then GAME_OVER else ARDUINO_TURN)
      (playerShipHorizontal g) (arduinoAttackMode g) (lastHitX g) (lastHitY g)
      (targetIndex g) (targetList g) (targetListInitialized g) (shipId g)
  else g.

(** Some cell of the grid other than [c] holds the identifier [k]. *)
Definition heldElsewhere (grid : Grid) (c : Z * Z) (k : Z) : bool :=
  existsb (fun d => negb (bool_decide (d = c)) && (cell grid d.1 d.2 =? k)) allCells.

(** Some cell of the grid holds the identifier [k]. *)
Definition held (grid : Grid) (k : Z) : bool :=
  existsb (fun d => cell grid d.1 d.2 =? k) allCells.

(** Cells that touch and are not EMPTY hold the same identifier: ships
    with different identifiers keep a cell of water between them. *)
Definition separated (grid : Grid) : Prop :=
  forall c d, inBounds c.1 c.2 -> inBounds d.1 d.2 -> touches c d ->
    cell grid c.1 c.2 <> EMPTY -> cell grid d.1 d.2 <> EMPTY ->
    cell grid c.1 c.2 = cell grid d.1 d.2.

(** Twenty-one draws that put the first six ships at the left of the rows
    0, 2, 4, 6, 8 and 10, and the one-cell ship at (7, 0). *)
Definition fleetDraws : list Z :=
  [0; 0; 1; 0; 2; 1; 0; 4; 1; 0; 6; 1; 0; 8; 1; 0; 10; 1; 7; 0; 1].

Definition freshGame : Game :=
  Eval vm_compute in
    match resetGame
            (mkGame emptyGrid emptyGrid emptyGrid emptyGrid 0 0 WAITING_TO_START true
               HUNT_MODE 0 0 0 [(0, 0); (0, 0); (0, 0); (0, 0)] false 0)
            fleetDraws with
    | Some (g, _) => g
    | None =>
        mkGame emptyGrid emptyGrid emptyGrid emptyGrid 0 0 WAITING_TO_START true
          HUNT_MODE 0 0 0 [(0, 0); (0, 0); (0, 0); (0, 0)] false 0
    end.

End SerialMonitor.

(** ** The 12x12 sketch whose placement counter is a function static *)

Module StaticShipId.

Definition GRID_SIZE : Z := 12.
Definition NUM_SHIPS : Z := 7.

Definition EMPTY : Z := 0.
Definition SHIP_PRESENT : Z := 1.
Definition SHIP_HIT : Z := -1.
Definition ATTACK_UNTRIED : Z := 0.
Definition ATTACK_MISS : Z := 1.
Definition ATTACK_HIT : Z := 2.

Definition ships : list Z := [5; 4; 3; 3; 2; 2; 1].
Definition shipSize (i : Z) : Z := ships !!! Z.to_nat i.

Abbreviation Grid := (list (list Z)).

Definition cell (grid : Grid) (x y : Z) : Z :=
  (grid !!! Z.to_nat x) !!! Z.to_nat y.

Definition setCell (grid : Grid) (x y v : Z) : Grid :=
  <[Z.to_nat x := <[Z.to_nat y := v]> (grid !!! Z.to_nat x)]> grid.

Definition emptyGrid : Grid :=
  replicate (Z.to_nat GRID_SIZE) (replicate (Z.to_nat GRID_SIZE) 0).

Definition canPlaceShip (grid : Grid) (x y size : Z) (horizontal : bool) : bool :=
  if horizontal then
    if GRID_SIZE <? x + size then false
    else forallb (fun i => cell grid (x + i) y =? EMPTY) (seqZ 0 size)
  else
    if GRID_SIZE <? y + size then false
    else forallb (fun i => cell grid x (y + i) =? EMPTY) (seqZ 0 size).

(** The [shipId] argument is accepted and not used. *)
Definition placeShip (grid : Grid) (x y size : Z) (horizontal : bool) (shipId : Z) : Grid :=
  if horizontal then
    foldl (fun g i => setCell g (x + i) y SHIP_PRESENT) grid (seqZ 0 size)
  else
    foldl (fun g i => setCell g x (y + i) SHIP_PRESENT) grid (seqZ 0 size).

(** The globals of the sketch, and [placedShips] for the variable
    [static uint8_t shipId] of [playerPlaceShips], which outlives the
    calls. *)
Record Game : Type := mkGame {
  playerGrid : Grid;
  arduinoGrid : Grid;
  playerAttackGrid : Grid;
  arduinoAttackGrid : Grid;
  cursorX : Z;
  cursorY : Z;
  gameState : GameState;
  playerShipHorizontal : bool;
  placedShips : Z
}.

Definition powerOn : Game :=
  mkGame emptyGrid emptyGrid emptyGrid emptyGrid 0 0 WAITING_TO_START true 0.

Record Tick : Type := mkTick {
  blueEdge : bool;       (* loop: the blue reading changed to LOW *)
  bluePress : bool;      (* playerPlaceShips: the debounced blue button went LOW *)
  joyX : Z;
  joyY : Z;
  moveReady : bool;
  redPress : bool        (* the debounced red button went LOW *)
}.

Fixpoint placeOneArduinoShip (grid : Grid) (size shipId : Z) (draws : list Z)
  : option (Grid * list Z) :=
  match draws with
  | rx :: ry :: rh :: rest =>
      let x := u8 (random 0 GRID_SIZE rx) in
      let y := u8 (random 0 GRID_SIZE ry) in
      let horizontal := negb (random 0 2 rh =? 0) in
      if canPlaceShip grid x y size horizontal
      then Some (placeShip grid x y size horizontal (u8 (shipId + 1)), rest)
      else placeOneArduinoShip grid size shipId rest
  | _ => None
  end.

Fixpoint placeArduinoShipsFrom (shipIds : list Z) (grid : Grid) (draws : list Z)
  : option (Grid * list Z) :=
  match shipIds with
  | [] => Some (grid, draws)
  | shipId :: more =>
      match placeOneArduinoShip grid (shipSize shipId) shipId draws with
      | Some (grid', draws') => placeArduinoShipsFrom more grid' draws'
      | None => None
      end
  end.

(** [resetGame]: the grids, the cursor and the game state are assigned;
    the orientation and the static counter are not. *)
Definition resetGame (g : Game) (draws : list Z) : option (Game * list Z) :=
  match placeArduinoShipsFrom (seqZ 0 NUM_SHIPS) emptyGrid draws with
  | Some (arduinoGrid', draws') =>
      Some (mkGame emptyGrid arduinoGrid' emptyGrid emptyGrid
              0 0 PLACING_SHIPS (playerShipHorizontal g) (placedShips g),
            draws')
  | None => None
  end.

Definition updateCursorPosition (t : Tick) (g : Game) : Z * Z :=
  if moveReady t then
    let cx :=
      if joyX t <? JOYSTICK_CENTER - JOYSTICK_THRESHOLD then
        (if 0 <? cursorX g then u8 (cursorX g - 1) else 0)
      else if JOYSTICK_CENTER + JOYSTICK_THRESHOLD <? joyX t then
        (if cursorX g <? GRID_SIZE - 1 then u8 (cursorX g + 1) else GRID_SIZE - 1)
      else cursorX g in
    let cy :=
      if joyY t <? JOYSTICK_CENTER - JOYSTICK_THRESHOLD then
        (if 0 <? cursorY g then u8 (cursorY g - 1) else 0)
      else if JOYSTICK_CENTER + JOYSTICK_THRESHOLD <? joyY t then
        (if cursorY g <? GRID_SIZE - 1 then u8 (cursorY g + 1) else GRID_SIZE - 1)
      else cursorY g in
    (cx, cy)
  else (cursorX g, cursorY g).

Definition playerPlaceShips (t : Tick) (g : Game) : Game :=
  if NUM_SHIPS <=? placedShips g then
    mkGame (playerGrid g) (arduinoGrid g) (playerAttackGrid g) (arduinoAttackGrid g)
      (cursorX g) (cursorY g) PLAYER_TURN (playerShipHorizontal g) (placedShips g)
  else
    let size := shipSize (placedShips g) in
    let '(cx, cy) := updateCursorPosition t g in
    let '(grid', placed') :=
      if redPress t then
        if canPlaceShip (playerGrid g) cx cy size (playerShipHorizontal g)
        then (placeShip (playerGrid g) cx cy size (playerShipHorizontal g)
                        (u8 (placedShips g + 1)),
              u8 (placedShips g + 1))
        else (playerGrid g, placedShips g)
      else (playerGrid g, placedShips g) in
    let horizontal' :=
      if bluePress t then negb (playerShipHorizontal g) else playerShipHorizontal g in
    mkGame grid' (arduinoGrid g) (playerAttackGrid g) (arduinoAttackGrid g)
      cx cy (gameState g) horizontal' placed'.

Definition checkWin (grid : Grid) : bool :=
  forallb (fun i =>
    forallb (fun j => negb (cell grid i j =? SHIP_PRESENT)) (seqZ 0 GRID_SIZE))
  (seqZ 0 GRID_SIZE).

Definition playerAttack (t : Tick) (g : Game) : Game :=
  let '(cx, cy) := updateCursorPosition t g in
  if redPress t then
    if cell (playerAttackGrid g) cx cy =? ATTACK_UNTRIED then
      let '(attackGrid', arduinoGrid') :=
        if cell (arduinoGrid g) cx cy =? SHIP_PRESENT then
          (setCell (playerAttackGrid g) cx cy ATTACK_HIT,
           setCell (arduinoGrid g) cx cy SHIP_HIT)
        else (setCell (playerAttackGrid g) cx cy ATTACK_MISS, arduinoGrid g) in
      mkGame (playerGrid g) arduinoGrid' attackGrid' (arduinoAttackGrid g) cx cy
        (if checkWin arduinoGrid' then GAME_OVER else ARDUINO_TURN)
        (playerShipHorizontal g) (placedShips g)
    else
      mkGame (playerGrid g) (arduinoGrid g) (playerAttackGrid g) (arduinoAttackGrid g)
        cx cy (gameState g) (playerShipHorizontal g) (placedShips g)
  else
    mkGame (playerGrid g) (arduinoGrid g) (playerAttackGrid g) (arduinoAttackGrid g)
      cx cy (gameState g) (playerShipHorizontal g) (placedShips g).

Fixpoint randomUntried (attackGrid : Grid) (draws : list Z) : option (Z * Z * list Z) :=
  match draws with
  | rx :: ry :: rest =>
      let x := u8 (random 0 GRID_SIZE rx) in
      let y := u8 (random 0 GRID_SIZE ry) in
      if cell attackGrid x y =? ATTACK_UNTRIED then Some (x, y, rest)
      else randomUntried attackGrid rest
  | _ => None
  end.

Definition arduinoAttack (g : Game) (draws : list Z) : option (Game * list Z) :=
  let positionsLeft :=
    existsb (fun i =>
      existsb (fun j => cell (arduinoAttackGrid g) i j =? ATTACK_UNTRIED)
              (seqZ 0 GRID_SIZE))
    (seqZ 0 GRID_SIZE) in
  if negb positionsLeft then
    Some (mkGame (playerGrid g) (arduinoGrid g) (playerAttackGrid g)
            (arduinoAttackGrid g) (cursorX g) (cursorY g) GAME_OVER
            (playerShipHorizontal g) (placedShips g), draws)
  else
    match randomUntried (arduinoAttackGrid g) draws with
    | Some (x, y, draws') =>
        let '(attackGrid', playerGrid') :=
          if cell (playerGrid g) x y =? SHIP_PRESENT then
            (setCell (arduinoAttackGrid g) x y ATTACK_HIT,
             setCell (playerGrid g) x y SHIP_HIT)
          else (setCell (arduinoAttackGrid g) x y ATTACK_MISS, playerGrid g) in
        Some (mkGame playerGrid' (arduinoGrid g) (playerAttackGrid g) attackGrid'
                (cursorX g) (cursorY g)
                (if checkWin playerGrid' then GAME_OVER else PLAYER_TURN)
                (playerShipHorizontal g) (placedShips g), draws')
    | None => None
    end.

Definition loop (t : Tick) (g : Game) (draws : list Z) : option (Game * list Z) :=
  let afterBlue :=
    match gameState g with
    | WAITING_TO_START | GAME_OVER =>
        if blueEdge t then resetGame g draws else Some (g, draws)
    | _ => Some (g, draws)
    end in
  match afterBlue with
  | Some (g1, draws1) =>
      match gameState g1 with
      | WAITING_TO_START => Some (g1, draws1)
      | PLACING_SHIPS => Some (playerPlaceShips t g1, draws1)
      | PLAYER_TURN => Some (playerAttack t g1, draws1)
      | ARDUINO_TURN => arduinoAttack g1 draws1
      | GAME_OVER => Some (g1, draws1)
      end
  | None => None
  end.

(** Successive passes of [loop], one per tick. *)
Fixpoint runLoop (ticks : list Tick) (g : Game) (draws : list Z)
  : option (Game * list Z) :=
  match ticks with
  | [] => Some (g, draws)
  | t :: more =>
      match loop t g draws with
      | Some (g', draws') => runLoop more g' draws'
      | None => None
      end
  end.

(** *** Example inputs: a complete game, followed by a reset *)

Definition sIdle : Tick := mkTick false false 512 512 false false.
Definition sBlue : Tick := mkTick true false 512 512 false false.
Definition sPress : Tick := mkTick false false 512 512 false true.
Definition sDownPress : Tick := mkTick false false 512 1023 true true.
Definition sUpPress : Tick := mkTick false false 512 0 true true.
Definition sRightPress : Tick := mkTick false false 1023 512 true true.

(** Twenty-one draws that put the seven ships in rows 0 to 6. *)
Definition sFleetDraws : list Z :=
  [0; 0; 1; 0; 1; 1; 0; 2; 1; 0; 3; 1; 0; 4; 1; 0; 5; 1; 0; 6; 1].

(** Twenty hunt rounds, each drawing a cell of the player's ships. *)
Definition sHitDraws : list Z :=
  [0; 0; 1; 0; 2; 0; 3; 0; 4; 0;
   0; 1; 1; 1; 2; 1; 3; 1;
   0; 2; 1; 2; 2; 2;
   0; 3; 1; 3; 2; 3;
   0; 4; 1; 4;
   0; 5; 1; 5;
   0; 6].

(** The blue button starts the game and the player places the seven
    ships in rows 0 to 6; a last pass ends the placement phase. *)
Definition sPlacementTicks : list Tick :=
  [sBlue; sPress] ++ replicate 6 sDownPress ++ [sIdle].

(** The player's twenty shots, each at a new cell. *)
Definition sPlayerShots : list Tick :=
  [sPress] ++ replicate 5 sDownPress ++ [sRightPress] ++ replicate 11 sUpPress
  ++ [sRightPress; sDownPress].

(** Twenty rounds: a player shot, then the opponent's turn. *)
Definition sBattleTicks : list Tick := t ← sPlayerShots; [t; sIdle].

(** A state whose opponent attack grid holds ATTACK_MISS in every cell. *)
Definition sFullAttackGame : Game :=
  mkGame emptyGrid emptyGrid emptyGrid
    (replicate (Z.to_nat GRID_SIZE) (replicate (Z.to_nat GRID_SIZE) ATTACK_MISS))
    0 0 ARDUINO_TURN true 7.

(** The state at the end of the placement of [sPlacementTicks]. *)
Definition sPlacedGame : Game :=
  Eval vm_compute in
    match runLoop sPlacementTicks powerOn sFleetDraws with
    | Some (g, _) => g
    | None => powerOn
    end.

End StaticShipId.

(** ** The sketch that shows two 8x8 grids on one 16x16 matrix *)

Module DualMatrix.

Definition GRID_SIZE : Z := 8.
Definition NUM_SHIPS : Z := 4.

(** Carrier, Battleship, Cruiser, Destroyer. *)
Definition ships : list Z := [5; 4; 3; 2].
Definition shipSize (i : Z) : Z := ships !!! Z.to_nat i.

(** The globals the preview reads. *)
Record Game : Type := mkGame {
  cursorX : Z;
  cursorY : Z;
  gameState : GameState;
  playerShipHorizontal : bool;
  shipId : Z
}.

Definition placing (g : Game) : bool :=
  match gameState g with PLACING_SHIPS => true | _ => false end.

(** The first [isShipPreviewPosition] of the file: the fit test and the
    loop both start from the cell asked about, and the loop compares that
    cell with the cells it walks. *)
Definition isShipPreviewPosition (g : Game) (x y : Z) : bool :=
  if negb (placing g) then false
  else
    let size := shipSize (shipId g) in
    if playerShipHorizontal g then
      if GRID_SIZE <? x + size then false
      else existsb (fun i => (x =? u8 (x + i)) && (y =? y)) (seqZ 0 size)
    else
      if GRID_SIZE <? y + size then false
      else existsb (fun i => (x =? x) && (y =? u8 (y + i))) (seqZ 0 size).

(** The second [isShipPreviewPosition] of the file: the loop walks from
    the cell asked about and compares the cells it walks with the
    cursor. *)
Definition isShipPreviewPosition_cursor (g : Game) (x y : Z) : bool :=
  if negb (placing g) then false
  else
    let size := shipSize (shipId g) in
    if playerShipHorizontal g then
      if GRID_SIZE <? x + size then false
      else existsb (fun i => (u8 (x + i) =? cursorX g) && (y =? cursorY g))
                   (seqZ 0 size)
    else
      if GRID_SIZE <? y + size then false
      else existsb (fun i => (x =? cursorX g) && (u8 (y + i) =? cursorY g))
                   (seqZ 0 size).

(** [int getLEDIndex(int x, int y, bool isPlacement)]: the placement grid
    is the left half of the matrix and the attack grid the right half. *)
Definition getLEDIndex (x y : Z) (isPlacement : bool) : Z :=
  let offsetX := if isPlacement then 0 else 8 in
  let offsetY := 0 in
  let physicalX := i16 (x + offsetX) in
  let physicalY := i16 (y + offsetY) in
  if (16 <=? physicalX) || (16 <=? physicalY) || (physicalX <? 0) || (physicalY <? 0)
  then -1
  else i16 (physicalY * 16 + physicalX).

End DualMatrix.

(* ================================================================== *)
(** * Proofs *)

(** The accessors are kept folded by [simpl]; the proofs go through
    their equations. *)
Arguments TestCode.setCellState : simpl never.
Arguments TestCode.getCellState : simpl never.
Arguments TestCode.countRemainingShips : simpl never.
Arguments TestCode.untried : simpl never.
Arguments u8 : simpl never.

(** Projections of updated records, reduced without touching the grids. *)
Ltac game_proj :=
  cbn [TestCode.playerGrid TestCode.arduinoGrid TestCode.playerAttackGrid
       TestCode.arduinoAttackGrid TestCode.cursorX TestCode.cursorY
       TestCode.gameState TestCode.playerShipHorizontal
       TestCode.arduinoAttackMode TestCode.lastHitX TestCode.lastHitY
       TestCode.targetIndex TestCode.targetList TestCode.targetListInitialized
       TestCode.shipId
       TestCode.set_playerGrid TestCode.set_arduinoGrid
       TestCode.set_playerAttackGrid TestCode.set_arduinoAttackGrid
       TestCode.set_cursor TestCode.set_gameState
       TestCode.set_playerShipHorizontal TestCode.set_arduinoAttackMode
       TestCode.set_lastHit TestCode.set_targetIndex TestCode.set_targetList
       TestCode.set_targetListInitialized TestCode.set_shipId] in *.

(** ** Bits of a byte *)

Lemma testbit_three (k : Z) : Z.testbit 3 k = (k =? 0) || (k =? 1).
Proof.
  destruct (Z.eq_dec k 0) as [->|H0]; [reflexivity|].
  destruct (Z.eq_dec k 1) as [->|H1]; [reflexivity|].
  replace (k =? 0) with false by (symmetry; apply Z.eqb_neq; lia).
  replace (k =? 1) with false by (symmetry; apply Z.eqb_neq; lia).
  destruct (Z.neg_nonneg_cases k) as [Hn|Hp].
  - apply Z.testbit_neg_r; lia.
  - apply (Z.bits_above_log2 3 k); [lia|].
    change (Z.log2 3) with 1. lia.
Qed.

Lemma testbit_small (s n k : Z) :
  0 <= n -> 0 <= s < 2 ^ n -> n <= k -> Z.testbit s k = false.
Proof.
  intros Hn Hs Hk.
  rewrite <- (Z.mod_small s (2 ^ n)) by assumption.
  apply Z.mod_pow2_bits_high. lia.
Qed.

Ltac bool_cases :=
  repeat match goal with
         | |- context [?a <? ?b] => destruct (Z.ltb_spec a b)
         | |- context [?a <=? ?b] => destruct (Z.leb_spec a b)
         | |- context [?a =? ?b] => destruct (Z.eqb_spec a b)
         end;
  simpl; try lia.

Lemma testbit_putField (b off s j : Z) :
  0 <= off -> 0 <= j ->
  Z.testbit (putField b off s) j =
  (j <? 8) && (if (off <=? j) && (j <? off + 2)
               then Z.testbit s (j - off) else Z.testbit b j).
Proof.
  intros Hoff Hj. unfold putField, u8.
  change 256 with (2 ^ 8).
  rewrite Z.testbit_mod_pow2 by lia.
  rewrite Z.lor_spec, Z.land_spec, Z.lnot_spec by lia.
  rewrite Z.testbit_mod_pow2 by lia.
  rewrite !Z.shiftl_spec by lia.
  rewrite Z.land_spec, testbit_three.
  bool_cases;
    repeat match goal with
           | |- context [Z.testbit ?a ?k] => destruct (Z.testbit a k)
           end; reflexivity.
Qed.

Lemma testbit_getField (b off n : Z) :
  0 <= off -> 0 <= n ->
  Z.testbit (getField b off) n = Z.testbit b (n + off) && ((n =? 0) || (n =? 1)).
Proof.
  intros Hoff Hn. unfold getField, u8.
  change 256 with (2 ^ 8).
  rewrite Z.testbit_mod_pow2 by lia.
  rewrite Z.land_spec, Z.shiftr_spec, testbit_three by lia.
  bool_cases; rewrite ?andb_false_r; reflexivity.
Qed.

Lemma putField_range (b off s : Z) : 0 <= putField b off s < 256.
Proof. unfold putField, u8. apply Z.mod_pos_bound. lia. Qed.

Lemma getField_putField_same (b off s : Z) :
  0 <= off <= 6 -> 0 <= s < 4 -> getField (putField b off s) off = s.
Proof.
  intros Hoff Hs. apply Z.bits_inj'. intros n Hn.
  rewrite testbit_getField, testbit_putField by lia.
  replace (n + off - off) with n by lia.
  bool_cases; rewrite ?andb_true_r, ?andb_false_r; try reflexivity.
  all: symmetry; apply (testbit_small s 2); lia.
Qed.

Lemma getField_putField_other (b off off' s : Z) :
  0 <= off -> 0 <= off' <= 6 -> off' + 2 <= off \/ off + 2 <= off' ->
  getField (putField b off s) off' = getField b off'.
Proof.
  intros Hoff Hoff' Hd. apply Z.bits_inj'. intros n Hn.
  rewrite !testbit_getField, testbit_putField by lia.
  bool_cases; rewrite ?andb_true_r, ?andb_false_r; try reflexivity.
  all: try (exfalso; lia).
Qed.

Lemma getField_range (b off : Z) : 0 <= getField b off < 4.
Proof.
  unfold getField, u8.
  assert (H : 0 <= Z.land (Z.shiftr b off) 3 < 4).
  { change 3 with (Z.ones 2). rewrite Z.land_ones by lia.
    apply Z.mod_pos_bound. lia. }
  rewrite Z.mod_small; lia.
Qed.

(** ** Grid storage of the packed sketch *)

Section GridStorage.
Import TestCode.

Lemma rd_wr_same (g : Grid) (i v : Z) :
  0 <= i < Z.of_nat (length g) -> rd (wr g i v) i = u8 v.
Proof.
  intros Hi. unfold rd, wr.
  apply list_lookup_total_insert_eq. lia.
Qed.

Lemma rd_wr_other (g : Grid) (i j v : Z) :
  0 <= i -> 0 <= j -> i <> j -> rd (wr g i v) j = rd g j.
Proof.
  intros Hi Hj Hne. unfold rd, wr.
  apply list_lookup_total_insert_ne. lia.
Qed.

Lemma rd_range (g : Grid) (i : Z) :
  Forall (fun b => 0 <= b < 256) g -> 0 <= rd g i < 256.
Proof.
  intros Hall. unfold rd.
  destruct (g !! Z.to_nat i) as [b|] eqn:E.
  - rewrite (list_lookup_total_correct _ _ _ E).
    exact (proj1 (Forall_lookup _ g) Hall _ _ E).
  - rewrite list_lookup_total_alt, E. simpl. lia.
Qed.

Lemma wfGrid_wr (g : Grid) (i v : Z) : wfGrid g -> wfGrid (wr g i v).
Proof.
  intros [Hlen Hall]. split.
  - unfold wr. rewrite length_insert. exact Hlen.
  - unfold wr. apply Forall_insert; [exact Hall|].
    unfold u8. apply Z.mod_pos_bound. lia.
Qed.

Lemma wfGrid_emptyGrid : wfGrid emptyGrid.
Proof.
  split.
  - reflexivity.
  - unfold emptyGrid. apply Forall_replicate. lia.
Qed.

(** The offset is even whatever the coordinates: [bitIndex] is twice the
    cell index and the 16-bit wrap-around keeps parity. *)
Lemma cellBitOffset_even (x y : Z) :
  cellBitOffset x y = 0 \/ cellBitOffset x y = 2 \/
  cellBitOffset x y = 4 \/ cellBitOffset x y = 6.
Proof.
  unfold cellBitOffset, cellBitIndex, cellIndex, u8, u16, GRID_SIZE.
  Z.div_mod_to_equations. lia.
Qed.

Lemma crossByte_unreachable (x y : Z) : (6 <? cellBitOffset x y) = false.
Proof.
  apply Z.ltb_ge. pose proof (cellBitOffset_even x y). lia.
Qed.

Lemma cell_addr (x y : Z) :
  inBounds x y ->
  cellByteIndex x y = (y * 10 + x) / 4 /\
  cellBitOffset x y = 2 * ((y * 10 + x) mod 4) /\
  0 <= cellByteIndex x y < totalGridBytes.
Proof.
  unfold inBounds, cellByteIndex, cellBitOffset, cellBitIndex, cellIndex,
    u8, u16, GRID_SIZE.
  change totalGridBytes with 25.
  intros [Hx Hy]. Z.div_mod_to_equations. lia.
Qed.

Lemma byteIndex_in_buffer (g : Grid) (x y : Z) :
  wfGrid g -> inBounds x y ->
  0 <= cellByteIndex x y < Z.of_nat (length g).
Proof.
  intros [Hlen _] Hb. rewrite Hlen. apply cell_addr, Hb.
Qed.

Lemma cell_addr_distinct (x y x' y' : Z) :
  inBounds x y -> inBounds x' y' -> (x', y') <> (x, y) ->
  cellByteIndex x' y' <> cellByteIndex x y \/
  cellBitOffset x' y' + 2 <= cellBitOffset x y \/
  cellBitOffset x y + 2 <= cellBitOffset x' y'.
Proof.
  intros Hb Hb' Hne.
  destruct (cell_addr x y Hb) as (-> & -> & _).
  destruct (cell_addr x' y' Hb') as (-> & -> & _).
  assert (Hidx : y' * 10 + x' <> y * 10 + x).
  { intros E. apply Hne. unfold inBounds, GRID_SIZE in *.
    assert (x' = x /\ y' = y) as [-> ->] by lia. reflexivity. }
  Z.div_mod_to_equations. lia.
Qed.

Lemma setCellState_eq (g : Grid) (x y s : Z) :
  setCellState g x y s =
  <[Z.to_nat (cellByteIndex x y) :=
      putField (rd g (cellByteIndex x y)) (cellBitOffset x y) s]> g.
Proof.
  unfold setCellState. rewrite crossByte_unreachable. reflexivity.
Qed.

Lemma getCellState_eq (g : Grid) (x y : Z) :
  getCellState g x y = getField (rd g (cellByteIndex x y)) (cellBitOffset x y).
Proof.
  unfold getCellState. rewrite crossByte_unreachable. reflexivity.
Qed.

Lemma wfGrid_setCellState (g : Grid) (x y s : Z) :
  wfGrid g -> wfGrid (setCellState g x y s).
Proof.
  intros [Hlen Hall]. rewrite setCellState_eq. split.
  - rewrite length_insert. exact Hlen.
  - apply Forall_insert; [exact Hall|]. apply putField_range.
Qed.

Lemma getCellState_range (g : Grid) (x y : Z) : 0 <= getCellState g x y < 4.
Proof. rewrite getCellState_eq. apply getField_range. Qed.

Lemma get_set_same (g : Grid) (x y s : Z) :
  wfGrid g -> inBounds x y -> 0 <= s < 4 ->
  getCellState (setCellState g x y s) x y = s.
Proof.
  intros Hwf Hb Hs.
  rewrite getCellState_eq, setCellState_eq.
  fold (rd (<[Z.to_nat (cellByteIndex x y) :=
               putField (rd g (cellByteIndex x y)) (cellBitOffset x y) s]> g)
           (cellByteIndex x y)).
  unfold rd at 1. rewrite list_lookup_total_insert_eq.
  - apply getField_putField_same; [|exact Hs].
    pose proof (cellBitOffset_even x y). lia.
  - pose proof (byteIndex_in_buffer g x y Hwf Hb). lia.
Qed.

Lemma get_set_other (g : Grid) (x y s x' y' : Z) :
  wfGrid g -> inBounds x y -> inBounds x' y' -> (x', y') <> (x, y) ->
  getCellState (setCellState g x y s) x' y' = getCellState g x' y'.
Proof.
  intros Hwf Hb Hb' Hne.
  rewrite !getCellState_eq, setCellState_eq.
  pose proof (byteIndex_in_buffer g x y Hwf Hb) as Hi.
  pose proof (byteIndex_in_buffer g x' y' Hwf Hb') as Hi'.
  pose proof (cellBitOffset_even x y) as Ho.
  pose proof (cellBitOffset_even x' y') as Ho'.
  destruct (Z.eq_dec (cellByteIndex x' y') (cellByteIndex x y)) as [E|E].
  - rewrite E. unfold rd at 1. rewrite list_lookup_total_insert_eq by lia.
    fold (rd g (cellByteIndex x y)).
    apply getField_putField_other; try lia.
    destruct (cell_addr_distinct x y x' y' Hb Hb' Hne) as [H|H]; [congruence|lia].
  - unfold rd at 1. rewrite list_lookup_total_insert_ne by lia.
    reflexivity.
Qed.

End GridStorage.

Section GridStorageProperties.
Import TestCode.

Lemma putField_two_steps (b off s : Z) :
  0 <= off ->
  u8 (Z.lor (u8 (Z.land b (Z.lnot (Z.shiftl 3 off)))) (Z.shiftl (Z.land s 3) off))
  = putField b off s.
Proof.
  intros Hoff. apply Z.bits_inj'. intros j Hj.
  rewrite testbit_putField by lia.
  unfold u8. change 256 with (2 ^ 8).
  rewrite Z.testbit_mod_pow2 by lia.
  rewrite Z.lor_spec, Z.testbit_mod_pow2 by lia.
  rewrite Z.land_spec, Z.lnot_spec by lia.
  rewrite !Z.shiftl_spec by lia.
  rewrite Z.land_spec, testbit_three.
  bool_cases;
    repeat match goal with
           | |- context [Z.testbit ?a ?k] => destruct (Z.testbit a k)
           end; reflexivity.
Qed.

Lemma single_byteIndex (x y : Z) :
  inBounds x y -> u8 (cellBitIndex x y / 8) = cellByteIndex x y.
Proof.
  intros Hb. destruct (cell_addr x y Hb) as (_ & _ & Hr).
  change totalGridBytes with 25 in Hr.
  unfold cellByteIndex in *. unfold u8, u16 in *.
  Z.div_mod_to_equations. lia.
Qed.

Lemma setCellState_single_eq (g : Grid) (x y s : Z) :
  wfGrid g -> inBounds x y ->
  setCellState_single g x y s = setCellState g x y s.
Proof.
  intros Hwf Hb. rewrite setCellState_eq. unfold setCellState_single.
  rewrite single_byteIndex by exact Hb.
  pose proof (byteIndex_in_buffer g x y Hwf Hb) as Hi.
  rewrite rd_wr_same by exact Hi.
  unfold wr. rewrite list_insert_insert_eq.
  rewrite putField_two_steps; [reflexivity|].
  pose proof (cellBitOffset_even x y). lia.
Qed.

Lemma getCellState_single_eq (g : Grid) (x y : Z) :
  inBounds x y -> getCellState_single g x y = getCellState g x y.
Proof.
  intros Hb. rewrite getCellState_eq. unfold getCellState_single.
  rewrite single_byteIndex by exact Hb. reflexivity.
Qed.

(** C10: for every in-bounds cell of the 10x10 packed grid the bit offset
    [(y*N+x)*2 mod 8] computed by [setCellState] and [getCellState] is one
    of 0, 2, 4, 6, so the two bits of the cell lie inside one byte, and the
    branch guarded by [bitOffset > 6] is taken by neither function: both
    reduce to their single-byte form. *)
Theorem C10_cross_byte_branch_unreachable (grid : Grid) (x y state : Z) :
  inBounds x y ->
  let bitOffset := cellBitOffset x y in
  let byteIndex := cellByteIndex x y in
  bitOffset = ((y * GRID_SIZE + x) * 2) mod 8 /\
  (bitOffset = 0 \/ bitOffset = 2 \/ bitOffset = 4 \/ bitOffset = 6) /\
  bitOffset + 2 <= 8 /\
  (6 <? bitOffset) = false /\
  setCellState grid x y state =
    wr grid byteIndex
       (Z.lor (Z.land (rd grid byteIndex) (Z.lnot (u8 (Z.shiftl 3 bitOffset))))
              (Z.shiftl (Z.land state 3) bitOffset)) /\
  getCellState grid x y = u8 (Z.land (Z.shiftr (rd grid byteIndex) bitOffset) 3).
Proof.
  intros Hb bitOffset byteIndex.
  pose proof (cellBitOffset_even x y) as He.
  fold bitOffset in He.
  split; [|split; [exact He|split; [lia|split]]].
  - subst bitOffset. destruct (cell_addr x y Hb) as (_ & -> & _).
    unfold GRID_SIZE. Z.div_mod_to_equations. lia.
  - apply crossByte_unreachable.
  - split.
    + rewrite setCellState_eq. reflexivity.
    + rewrite getCellState_eq. reflexivity.
Qed.

Lemma C10_witness :
  inBounds 3 7 /\ cellBitOffset 3 7 = 2 /\ (6 <? cellBitOffset 3 7) = false.
Proof.
  assert (Hb : inBounds 3 7) by (unfold inBounds, GRID_SIZE; lia).
  pose proof (C10_cross_byte_branch_unreachable emptyGrid 3 7 CELL_SHIP Hb)
    as (_ & _ & _ & Hguard & _).
  split; [exact Hb|split; [reflexivity|exact Hguard]].
Defined.

(** C1: for every in-bounds coordinate and each of the four states,
    reading a cell after writing it returns the written state; every other
    in-bounds cell reads as before; every bit of the buffer other than the
    two addressed ones is unchanged and the buffer keeps its size.  No
    in-bounds cell has its two bits across a byte boundary (the offset is
    even), so this covers every cell.  The accessors of the second sketch
    agree with these on every in-bounds cell. *)
Theorem C1_set_get_roundtrip (grid : Grid) (x y s : Z) :
  wfGrid grid -> inBounds x y ->
  s = CELL_EMPTY \/ s = CELL_SHIP \/ s = CELL_HIT \/ s = CELL_MISS ->
  let grid' := setCellState grid x y s in
  getCellState grid' x y = s /\
  (forall x' y', inBounds x' y' -> (x', y') <> (x, y) ->
                 getCellState grid' x' y' = getCellState grid x' y') /\
  (forall k j, 0 <= k -> 0 <= j ->
               ~ (k = cellByteIndex x y /\
                  cellBitOffset x y <= j < cellBitOffset x y + 2) ->
               Z.testbit (rd grid' k) j = Z.testbit (rd grid k) j) /\
  cellBitOffset x y + 2 <= 8 /\
  wfGrid grid' /\
  setCellState_single grid x y s = grid' /\
  (forall x' y', inBounds x' y' ->
                 getCellState_single grid' x' y' = getCellState grid' x' y').
Proof.
  intros Hwf Hb Hs grid'.
  assert (Hs' : 0 <= s < 4)
    by (unfold CELL_EMPTY, CELL_SHIP, CELL_HIT, CELL_MISS in Hs; lia).
  pose proof (cellBitOffset_even x y) as He.
  pose proof (byteIndex_in_buffer grid x y Hwf Hb) as Hi.
  repeat split.
  - apply get_set_same; assumption.
  - intros x' y' Hb' Hne. apply get_set_other; assumption.
  - intros k j Hk Hj Hout. subst grid'. rewrite setCellState_eq.
    destruct (Z.eq_dec k (cellByteIndex x y)) as [->|Hk'].
    + unfold rd at 1. rewrite list_lookup_total_insert_eq by lia.
      fold (rd grid (cellByteIndex x y)).
      rewrite testbit_putField by lia.
      destruct Hwf as [_ Hall].
      pose proof (rd_range grid (cellByteIndex x y) Hall) as Hr.
      bool_cases; try reflexivity.
      symmetry. apply (testbit_small _ 8); lia.
    + unfold rd at 1. rewrite list_lookup_total_insert_ne by lia.
      reflexivity.
  - lia.
  - apply wfGrid_setCellState, Hwf.
  - apply wfGrid_setCellState, Hwf.
  - apply setCellState_single_eq; assumption.
  - intros x' y' Hb'. apply getCellState_single_eq, Hb'.
Qed.

Lemma C1_witness :
  getCellState (setCellState emptyGrid 9 9 CELL_MISS) 9 9 = CELL_MISS.
Proof.
  assert (Hb : inBounds 9 9) by (unfold inBounds, GRID_SIZE; lia).
  assert (Hs : CELL_MISS = CELL_EMPTY \/ CELL_MISS = CELL_SHIP \/
               CELL_MISS = CELL_HIT \/ CELL_MISS = CELL_MISS)
    by (right; right; right; reflexivity).
  exact (proj1 (C1_set_get_roundtrip emptyGrid 9 9 CELL_MISS
                  wfGrid_emptyGrid Hb Hs)).
Defined.

End GridStorageProperties.

(** ** Placement validation *)

Lemma forallb_seqZ (f : Z -> bool) (m n : Z) :
  forallb f (seqZ m n) = true <-> (forall i, m <= i < m + n -> f i = true).
Proof.
  rewrite forallb_forall. split.
  - intros H i Hi. apply H, list_elem_of_In, elem_of_seqZ. lia.
  - intros H i Hi. apply H. apply list_elem_of_In, elem_of_seqZ in Hi. lia.
Qed.

Lemma u8_small (z : Z) : 0 <= z < 256 -> u8 z = z.
Proof. intros H. unfold u8. apply Z.mod_small, H. Qed.

Lemma i8_small (z : Z) : -128 <= z < 128 -> i8 z = z.
Proof. intros H. unfold i8. rewrite Z.mod_small; lia. Qed.

Section PlacementProperties.

Lemma canPlaceShip_arrays (grid : StaticShipId.Grid) (x y size : Z) (horizontal : bool) :
  0 <= x < StaticShipId.GRID_SIZE -> 0 <= y < StaticShipId.GRID_SIZE ->
  StaticShipId.canPlaceShip grid x y size horizontal = true ->
  forall i, 0 <= i < size ->
            let c := if horizontal then (x + i, y) else (x, y + i) in
            (0 <= c.1 < StaticShipId.GRID_SIZE /\ 0 <= c.2 < StaticShipId.GRID_SIZE) /\
            StaticShipId.cell grid c.1 c.2 = StaticShipId.EMPTY.
Proof.
  unfold StaticShipId.canPlaceShip, StaticShipId.GRID_SIZE.
  intros Hx Hy Hcan i Hi.
  destruct horizontal.
  - destruct (Z.ltb_spec 12 (x + size)) as [|Hext]; [discriminate|].
    rewrite forallb_seqZ in Hcan. specialize (Hcan i ltac:(lia)).
    apply Z.eqb_eq in Hcan. simpl. split; [lia|exact Hcan].
  - destruct (Z.ltb_spec 12 (y + size)) as [|Hext]; [discriminate|].
    rewrite forallb_seqZ in Hcan. specialize (Hcan i ltac:(lia)).
    apply Z.eqb_eq in Hcan. simpl. split; [lia|exact Hcan].
Qed.

(** C4, as stated, fails: only the extent along the ship is checked, so
    with the anchor column outside the grid a vertical one-cell ship at
    (10, 0) is accepted on the empty 10x10 grid (the packed index aliases
    cell (0, 1)), and its footprint is not inside the grid. *)
Lemma C4_counterexample :
  TestCode.canPlaceShip TestCode.emptyGrid 10 0 1 false = true /\
  TestCode.footprint 10 0 1 false = [(10, 0)] /\
  ~ TestCode.inBounds 10 0 /\
  ~ (forall (grid : TestCode.Grid) (x y size : Z) (horizontal : bool),
       TestCode.canPlaceShip grid x y size horizontal = true ->
       forall c, c ∈ TestCode.footprint x y size horizontal ->
                 TestCode.inBounds c.1 c.2 /\
                 TestCode.getCellState grid c.1 c.2 = TestCode.CELL_EMPTY).
Proof.
  assert (Hcan : TestCode.canPlaceShip TestCode.emptyGrid 10 0 1 false = true)
    by reflexivity.
  assert (Hout : ~ TestCode.inBounds 10 0)
    by (unfold TestCode.inBounds, TestCode.GRID_SIZE; lia).
  split; [exact Hcan|split; [reflexivity|split; [exact Hout|]]].
  intros H.
  assert (Hin : (10, 0) ∈ TestCode.footprint 10 0 1 false)
    by (apply list_elem_of_In; left; reflexivity).
  destruct (H TestCode.emptyGrid 10 0 1 false Hcan (10, 0) Hin) as [Hb _].
  exact (Hout Hb).
Qed.

(** C4, amended: for every grid, every anchor inside the grid, every ship
    size and orientation, if [canPlaceShip] returns true then every cell of
    the footprint lies inside the grid in both axes and holds EMPTY.
    ([canPlaceShip_arrays] is the same fact for the 12x12 array
    validator.) *)
Theorem C4_accepted_footprint_in_bounds_and_empty
  (grid : TestCode.Grid) (x y size : Z) (horizontal : bool) :
  TestCode.inBounds x y ->
  TestCode.canPlaceShip grid x y size horizontal = true ->
  forall c, c ∈ TestCode.footprint x y size horizontal ->
            TestCode.inBounds c.1 c.2 /\
            TestCode.getCellState grid c.1 c.2 = TestCode.CELL_EMPTY.
Proof.
  unfold TestCode.inBounds, TestCode.canPlaceShip, TestCode.footprint,
    TestCode.GRID_SIZE.
  intros [Hx Hy] Hcan c Hc.
  apply list_elem_of_fmap in Hc as (i & -> & Hi).
  apply elem_of_seqZ in Hi.
  destruct horizontal.
  - destruct (Z.ltb_spec 10 (x + size)) as [|Hext]; [discriminate|].
    rewrite forallb_seqZ in Hcan. specialize (Hcan i ltac:(lia)).
    rewrite u8_small in Hcan by lia.
    apply Z.eqb_eq in Hcan. simpl. split; [lia|exact Hcan].
  - destruct (Z.ltb_spec 10 (y + size)) as [|Hext]; [discriminate|].
    rewrite forallb_seqZ in Hcan. specialize (Hcan i ltac:(lia)).
    rewrite u8_small in Hcan by lia.
    apply Z.eqb_eq in Hcan. simpl. split; [lia|exact Hcan].
Qed.

Lemma C4_witness :
  TestCode.inBounds 7 4 /\
  TestCode.canPlaceShip TestCode.emptyGrid 7 4 3 true = true /\
  (TestCode.inBounds 9 4 /\
   TestCode.getCellState TestCode.emptyGrid 9 4 = TestCode.CELL_EMPTY).
Proof.
  assert (Hb : TestCode.inBounds 7 4)
    by (unfold TestCode.inBounds, TestCode.GRID_SIZE; lia).
  assert (Hcan : TestCode.canPlaceShip TestCode.emptyGrid 7 4 3 true = true)
    by reflexivity.
  assert (Hin : (9, 4) ∈ TestCode.footprint 7 4 3 true)
    by (apply list_elem_of_In; right; right; left; reflexivity).
  split; [exact Hb|split; [exact Hcan|]].
  exact (C4_accepted_footprint_in_bounds_and_empty
           TestCode.emptyGrid 7 4 3 true Hb Hcan (9, 4) Hin).
Defined.

Lemma In_offsets (d : Z) : -1 <= d <= 1 -> In d [-1; 0; 1].
Proof.
  intros H. assert (Hd : d = -1 \/ d = 0 \/ d = 1) by lia.
  destruct Hd as [Hd|[Hd|Hd]]; subst d; simpl; auto.
Qed.

Lemma surroundingsClear_spec (grid : SerialMonitor.Grid) (xi yi nx ny : Z) :
  SerialMonitor.surroundingsClear grid xi yi = true ->
  SerialMonitor.inBounds nx ny ->
  -1 <= nx - xi <= 1 -> -1 <= ny - yi <= 1 ->
  (nx, ny) <> (xi, yi) ->
  SerialMonitor.cell grid nx ny = SerialMonitor.EMPTY.
Proof.
  unfold SerialMonitor.surroundingsClear, SerialMonitor.inBounds,
    SerialMonitor.GRID_SIZE.
  intros Hclear [Hnx Hny] Hdx Hdy Hne.
  rewrite forallb_forall in Hclear.
  specialize (Hclear (nx - xi) (In_offsets _ Hdx)).
  rewrite forallb_forall in Hclear.
  specialize (Hclear (ny - yi) (In_offsets _ Hdy)).
  cbv zeta in Hclear.
  replace (xi + (nx - xi)) with nx in Hclear by lia.
  replace (yi + (ny - yi)) with ny in Hclear by lia.
  rewrite !i8_small in Hclear by lia.
  replace (0 <=? nx) with true in Hclear by (symmetry; apply Z.leb_le; lia).
  replace (nx <? 12) with true in Hclear by (symmetry; apply Z.ltb_lt; lia).
  replace (0 <=? ny) with true in Hclear by (symmetry; apply Z.leb_le; lia).
  replace (ny <? 12) with true in Hclear by (symmetry; apply Z.ltb_lt; lia).
  simpl in Hclear.
  destruct (Z.eqb_spec (SerialMonitor.cell grid nx ny) SerialMonitor.EMPTY)
    as [E|E]; [exact E|].
  simpl in Hclear.
  destruct (Z.eqb_spec nx xi) as [E1|]; [|discriminate].
  destruct (Z.eqb_spec ny yi) as [E2|]; [|discriminate].
  congruence.
Qed.

Lemma strict_footprint_cell (grid : SerialMonitor.Grid) (xi yi : Z) :
  (if negb (SerialMonitor.cell grid xi yi =? SerialMonitor.EMPTY) then false
   else SerialMonitor.surroundingsClear grid xi yi) = true ->
  forall d, SerialMonitor.inBounds d.1 d.2 -> SerialMonitor.touches (xi, yi) d ->
            SerialMonitor.cell grid d.1 d.2 = SerialMonitor.EMPTY.
Proof.
  intros Hbody [nx ny] Hb [Hdx Hdy]. simpl in *.
  destruct (Z.eqb_spec (SerialMonitor.cell grid xi yi) SerialMonitor.EMPTY)
    as [E|E]; simpl in Hbody; [|discriminate].
  destruct (decide ((nx, ny) = (xi, yi))) as [Heq|Hne].
  - injection Heq as -> ->. exact E.
  - apply (surroundingsClear_spec grid xi yi nx ny); assumption.
Qed.

Lemma strict_accepts_clear (grid : SerialMonitor.Grid) (x y size : Z) (horizontal : bool) :
  0 <= x < 256 -> 0 <= y < 256 ->
  SerialMonitor.canPlaceShip grid x y size horizontal = true ->
  forall c d, c ∈ SerialMonitor.footprint x y size horizontal ->
              SerialMonitor.inBounds d.1 d.2 -> SerialMonitor.touches c d ->
              SerialMonitor.cell grid d.1 d.2 = SerialMonitor.EMPTY.
Proof.
  unfold SerialMonitor.canPlaceShip, SerialMonitor.footprint,
    SerialMonitor.GRID_SIZE.
  intros Hx Hy Hcan c d Hc Hd Ht.
  apply list_elem_of_fmap in Hc as (i & -> & Hi).
  apply elem_of_seqZ in Hi.
  destruct horizontal.
  - destruct (Z.ltb_spec 12 (x + size)) as [|Hext]; [discriminate|].
    rewrite forallb_seqZ in Hcan. specialize (Hcan i ltac:(lia)).
    cbv zeta in Hcan. rewrite u8_small in Hcan by lia.
    exact (strict_footprint_cell grid (x + i) y Hcan d Hd Ht).
  - destruct (Z.ltb_spec 12 (y + size)) as [|Hext]; [discriminate|].
    rewrite forallb_seqZ in Hcan. specialize (Hcan i ltac:(lia)).
    cbv zeta in Hcan. rewrite u8_small in Hcan by lia.
    exact (strict_footprint_cell grid x (y + i) Hcan d Hd Ht).
Qed.

(** C5: the strict validator of the serial-monitor sketch returns false
    whenever a cell of the grid that is an 8-neighbour of a footprint cell
    (or a footprint cell itself) is not EMPTY; so for every placement it
    accepts, every cell of the grid within one step of the footprint is
    EMPTY, and no other ship touches the new one, not even by a corner. *)
Theorem C5_strict_validator_keeps_one_cell_buffer
  (grid : SerialMonitor.Grid) (x y size : Z) (horizontal : bool) :
  0 <= x < 256 -> 0 <= y < 256 ->
  (forall c d, c ∈ SerialMonitor.footprint x y size horizontal ->
               SerialMonitor.inBounds d.1 d.2 -> SerialMonitor.touches c d ->
               SerialMonitor.cell grid d.1 d.2 <> SerialMonitor.EMPTY ->
               SerialMonitor.canPlaceShip grid x y size horizontal = false) /\
  (SerialMonitor.canPlaceShip grid x y size horizontal = true ->
   forall c d, c ∈ SerialMonitor.footprint x y size horizontal ->
               SerialMonitor.inBounds d.1 d.2 -> SerialMonitor.touches c d ->
               SerialMonitor.cell grid d.1 d.2 = SerialMonitor.EMPTY).
Proof.
  intros Hx Hy. split.
  - intros c d Hc Hd Ht Hfull.
    destruct (SerialMonitor.canPlaceShip grid x y size horizontal) eqn:Hcan;
      [|reflexivity].
    exfalso. apply Hfull.
    exact (strict_accepts_clear grid x y size horizontal Hx Hy Hcan c d Hc Hd Ht).
  - apply strict_accepts_clear; assumption.
Qed.

Lemma C5_witness :
  SerialMonitor.canPlaceShip SerialMonitor.emptyGrid 3 3 2 true = true /\
  SerialMonitor.cell SerialMonitor.emptyGrid 5 4 = SerialMonitor.EMPTY.
Proof.
  assert (Hcan : SerialMonitor.canPlaceShip SerialMonitor.emptyGrid 3 3 2 true = true)
    by reflexivity.
  split; [exact Hcan|].
  refine (proj2 (C5_strict_validator_keeps_one_cell_buffer
                   SerialMonitor.emptyGrid 3 3 2 true _ _) Hcan (4, 3) (5, 4) _ _ _).
  - lia.
  - lia.
  - apply list_elem_of_In. right. left. reflexivity.
  - unfold SerialMonitor.inBounds, SerialMonitor.GRID_SIZE. simpl. lia.
  - unfold SerialMonitor.touches. simpl. lia.
Defined.

(** A ship touching the footprint by a corner only is enough to reject:
    with a one-cell ship at (5, 4), the two-cell ship at (3, 3)-(4, 3) is
    refused by the strict validator. *)
Example strict_rejects_diagonal_contact :
  SerialMonitor.canPlaceShip
    (SerialMonitor.placeShip SerialMonitor.emptyGrid 5 4 1 true 7) 3 3 2 true = false.
Proof. reflexivity. Qed.

End PlacementProperties.

(** ** Attack resolution of the packed sketch *)

Section AttackProperties.
Import TestCode.

Lemma updateCursorPosition_grids (t : Tick) (g : Game) :
  let g1 := updateCursorPosition t g in
  playerGrid g1 = playerGrid g /\ arduinoGrid g1 = arduinoGrid g /\
  playerAttackGrid g1 = playerAttackGrid g /\
  arduinoAttackGrid g1 = arduinoAttackGrid g /\
  gameState g1 = gameState g.
Proof.
  unfold updateCursorPosition. destruct (moveReady t); game_proj; auto.
Qed.

Lemma updateCursorPosition_inBounds (t : Tick) (g : Game) :
  inBounds (cursorX g) (cursorY g) ->
  inBounds (cursorX (updateCursorPosition t g)) (cursorY (updateCursorPosition t g)).
Proof.
  unfold inBounds, updateCursorPosition, GRID_SIZE, JOYSTICK_CENTER,
    JOYSTICK_THRESHOLD.
  intros [Hx Hy].
  destruct (moveReady t); simpl; [|lia].
  split.
  - bool_cases; rewrite ?u8_small; lia.
  - bool_cases; rewrite ?u8_small; lia.
Qed.

Lemma updateCursorPosition_set_cursor (t : Tick) (g : Game) :
  updateCursorPosition t g =
  set_cursor (cursorX (updateCursorPosition t g))
             (cursorY (updateCursorPosition t g)) g.
Proof.
  unfold updateCursorPosition. destruct (moveReady t); [reflexivity|].
  destruct g; reflexivity.
Qed.

Lemma wfGame_updateCursorPosition (t : Tick) (g : Game) :
  wfGame g -> wfGame (updateCursorPosition t g).
Proof.
  intros Hwf.
  assert (Hc : inBounds (cursorX (updateCursorPosition t g))
                        (cursorY (updateCursorPosition t g))).
  { apply updateCursorPosition_inBounds. apply Hwf. }
  rewrite updateCursorPosition_set_cursor.
  destruct Hwf as (H1 & H2 & H3 & H4 & H5 & H6 & H7 & H8 & H9).
  unfold wfGame. game_proj. tauto.
Qed.

(** What the press branch does to the four grids. *)
Lemma playerAttackPress_untried (g : Game) :
  getCellState (playerAttackGrid g) (cursorX g) (cursorY g) = CELL_EMPTY ->
  let mark :=
    if getCellState (arduinoGrid g) (cursorX g) (cursorY g) =? CELL_SHIP
    then CELL_HIT else CELL_MISS in
  let g' := playerAttackPress g in
  playerAttackGrid g' = setCellState (playerAttackGrid g) (cursorX g) (cursorY g) mark /\
  arduinoGrid g' = setCellState (arduinoGrid g) (cursorX g) (cursorY g) mark /\
  playerGrid g' = playerGrid g /\
  arduinoAttackGrid g' = arduinoAttackGrid g /\
  cursorX g' = cursorX g /\ cursorY g' = cursorY g /\
  gameState g' =
    (if countRemainingShips (arduinoGrid g') =? 0 then GAME_OVER else ARDUINO_TURN).
Proof.
  intros Hempty mark g'. subst g' mark. unfold playerAttackPress.
  rewrite Hempty. change (CELL_EMPTY =? CELL_EMPTY) with true. cbv iota zeta.
  destruct (getCellState (arduinoGrid g) (cursorX g) (cursorY g) =? CELL_SHIP);
    match goal with
    | |- context [if ?c then set_gameState _ _ else _] => destruct c eqn:E
    end; game_proj; rewrite E; repeat split; reflexivity.
Qed.

Lemma playerAttackPress_tried (g : Game) :
  getCellState (playerAttackGrid g) (cursorX g) (cursorY g) <> CELL_EMPTY ->
  playerAttackPress g = g.
Proof.
  intros Hne. unfold playerAttackPress.
  destruct (Z.eqb_spec
              (getCellState (playerAttackGrid g) (cursorX g) (cursorY g))
              CELL_EMPTY); [contradiction|reflexivity].
Qed.

Lemma playerAttack_records_mark (t : Tick) (g : Game) :
  wfGame g -> redPress t = true ->
  let g1 := updateCursorPosition t g in
  getCellState (playerAttackGrid g) (cursorX g1) (cursorY g1) = CELL_EMPTY ->
  getCellState (playerAttackGrid (playerAttack t g)) (cursorX g1) (cursorY g1)
  = (if getCellState (arduinoGrid g) (cursorX g1) (cursorY g1) =? CELL_SHIP
     then CELL_HIT else CELL_MISS).
Proof.
  intros Hwf Hpress g1 Hempty.
  pose proof (wfGame_updateCursorPosition t g Hwf) as Hwf1.
  destruct (updateCursorPosition_grids t g) as (_ & Hag & Hpa & _).
  fold g1 in Hwf1, Hag, Hpa.
  destruct Hwf1 as (_ & _ & Hwpa & _ & Hb & _).
  unfold playerAttack. rewrite Hpress. fold g1.
  rewrite <- Hpa in Hempty.
  destruct (playerAttackPress_untried g1 Hempty) as (-> & _).
  rewrite <- Hag.
  apply get_set_same; [exact Hwpa|exact Hb|].
  destruct (getCellState (arduinoGrid g1) (cursorX g1) (cursorY g1) =? CELL_SHIP);
    unfold CELL_HIT, CELL_MISS; lia.
Qed.

(** What a resolved player attack does to the grids. *)
Lemma playerAttack_resolution (t : Tick) (g : Game) :
  wfGame g -> redPress t = true ->
  let g1 := updateCursorPosition t g in
  let x := cursorX g1 in
  let y := cursorY g1 in
  let g' := playerAttack t g in
  getCellState (playerAttackGrid g) x y = CELL_EMPTY ->
  inBounds x y /\
  (getCellState (arduinoGrid g) x y = CELL_SHIP ->
   getCellState (playerAttackGrid g') x y = CELL_HIT /\
   getCellState (arduinoGrid g') x y = CELL_HIT) /\
  (getCellState (arduinoGrid g) x y <> CELL_SHIP ->
   getCellState (playerAttackGrid g') x y = CELL_MISS /\
   getCellState (arduinoGrid g') x y = CELL_MISS) /\
  (forall x' y', inBounds x' y' -> (x', y') <> (x, y) ->
     getCellState (playerAttackGrid g') x' y' = getCellState (playerAttackGrid g) x' y' /\
     getCellState (arduinoGrid g') x' y' = getCellState (arduinoGrid g) x' y') /\
  playerGrid g' = playerGrid g /\
  arduinoAttackGrid g' = arduinoAttackGrid g.
Proof.
  intros Hwf Hpress g1 x y g' Hempty.
  pose proof (wfGame_updateCursorPosition t g Hwf) as Hwf1.
  destruct (updateCursorPosition_grids t g) as (Hpg & Hag & Hpa & Haa & _).
  assert (Eg : g' = playerAttackPress g1)
    by (subst g'; unfold playerAttack; rewrite Hpress; reflexivity).
  clearbody g'. subst g'. subst x y. fold g1 in Hwf1, Hpg, Hag, Hpa, Haa.
  clearbody g1.
  destruct Hwf1 as (_ & Hwag & Hwpa & _ & Hb & _).
  rewrite <- Hpa in Hempty.
  destruct (playerAttackPress_untried g1 Hempty) as (Ea & Ed & Ep & Eaa & _).
  rewrite Ea, Ed, Ep, Eaa. rewrite <- Hag, <- Hpa.
  split; [exact Hb|].
  split; [|split; [|split; [|split]]].
  - intros Hship. rewrite Hship.
    change (CELL_SHIP =? CELL_SHIP) with true. cbv iota.
    split; apply get_set_same; try assumption; unfold CELL_HIT; lia.
  - intros Hnoship.
    replace (getCellState (arduinoGrid g1) (cursorX g1) (cursorY g1) =? CELL_SHIP)
      with false by (symmetry; apply Z.eqb_neq; exact Hnoship).
    split; apply get_set_same; try assumption; unfold CELL_MISS; lia.
  - intros x' y' Hb' Hne.
    split; apply get_set_other; assumption.
  - exact Hpg.
  - exact Haa.
Qed.


Lemma playerAttack_press (t : Tick) (g : Game) :
  redPress t = true ->
  playerAttack t g = playerAttackPress (updateCursorPosition t g).
Proof. intros Hpress. unfold playerAttack. rewrite Hpress. reflexivity. Qed.

(** C3: when the attacker's grid already records HIT or MISS at the cursor
    position, the attack is rejected: the call changes nothing but the
    cursor move of this pass (no grid, no game state).  Hence, of two
    attacks at the same coordinate, the first one (on an untried cell)
    records HIT or MISS and the second one is rejected and leaves all four
    grids as the first one left them. *)
Theorem C3_second_attack_is_rejected (t : Tick) (g : Game) :
  redPress t = true ->
  let g1 := updateCursorPosition t g in
  let x := cursorX g1 in
  let y := cursorY g1 in
  (getCellState (playerAttackGrid g) x y = CELL_HIT \/
   getCellState (playerAttackGrid g) x y = CELL_MISS ->
   playerAttack t g = g1 /\
   playerGrid (playerAttack t g) = playerGrid g /\
   arduinoGrid (playerAttack t g) = arduinoGrid g /\
   playerAttackGrid (playerAttack t g) = playerAttackGrid g /\
   arduinoAttackGrid (playerAttack t g) = arduinoAttackGrid g /\
   gameState (playerAttack t g) = gameState g) /\
  (wfGame g -> getCellState (playerAttackGrid g) x y = CELL_EMPTY ->
   let g' := playerAttack t g in
   (getCellState (playerAttackGrid g') x y = CELL_HIT \/
    getCellState (playerAttackGrid g') x y = CELL_MISS) /\
   forall t2, redPress t2 = true ->
     cursorX (updateCursorPosition t2 g') = x ->
     cursorY (updateCursorPosition t2 g') = y ->
     let g'' := playerAttack t2 g' in
     playerGrid g'' = playerGrid g' /\
     arduinoGrid g'' = arduinoGrid g' /\
     playerAttackGrid g'' = playerAttackGrid g' /\
     arduinoAttackGrid g'' = arduinoAttackGrid g' /\
     gameState g'' = gameState g').
Proof.
  intros Hpress g1 x y.
  assert (Hrej : forall (u : Tick) (h : Game),
             redPress u = true ->
             getCellState (playerAttackGrid h)
               (cursorX (updateCursorPosition u h))
               (cursorY (updateCursorPosition u h)) <> CELL_EMPTY ->
             playerAttack u h = updateCursorPosition u h).
  { intros u h Hu Hne. rewrite playerAttack_press by exact Hu.
    apply playerAttackPress_tried.
    destruct (updateCursorPosition_grids u h) as (_ & _ & -> & _). exact Hne. }
  split.
  - intros Htried.
    assert (E : playerAttack t g = g1).
    { apply Hrej; [exact Hpress|]. fold g1. fold x y.
      unfold CELL_HIT, CELL_MISS, CELL_EMPTY in *. lia. }
    rewrite E. split; [reflexivity|].
    destruct (updateCursorPosition_grids t g) as (H1 & H2 & H3 & H4 & H5).
    fold g1 in H1, H2, H3, H4, H5. auto.
  - intros Hwf Hempty g'.
    assert (Hmark : getCellState (playerAttackGrid g') x y = CELL_HIT \/
                    getCellState (playerAttackGrid g') x y = CELL_MISS).
    { subst g'. unfold x, y, g1.
      rewrite (playerAttack_records_mark t g Hwf Hpress Hempty).
      destruct (getCellState (arduinoGrid g) (cursorX (updateCursorPosition t g))
                  (cursorY (updateCursorPosition t g)) =? CELL_SHIP); auto. }
    split; [exact Hmark|].
    intros t2 Hpress2 Hx2 Hy2 g''.
    assert (E : g'' = updateCursorPosition t2 g').
    { apply Hrej; [exact Hpress2|]. rewrite Hx2, Hy2.
      unfold CELL_HIT, CELL_MISS, CELL_EMPTY in *. lia. }
    rewrite E.
    destruct (updateCursorPosition_grids t2 g') as (H1 & H2 & H3 & H4 & H5).
    auto.
Qed.

End AttackProperties.

(** ** The opponent's attack *)

Lemma list_pair_ind {A : Type} (P : list A -> Prop) :
  P [] -> (forall a, P [a]) -> (forall a b l, P l -> P (a :: b :: l)) ->
  forall l, P l.
Proof.
  intros Hnil Hone Hstep l.
  assert (H : P l /\ forall a, P (a :: l)).
  { induction l as [|b l [IH1 IH2]].
    - split; [exact Hnil|exact Hone].
    - split; [apply IH2|]. intros a. apply Hstep, IH1. }
  exact (proj1 H).
Qed.

Lemma filter_agree {A : Type} (P Q : A -> Prop)
  `{!forall x, Decision (P x)} `{!forall x, Decision (Q x)} (l : list A) :
  (forall d, d ∈ l -> (Q d <-> P d)) -> filter Q l = filter P l.
Proof.
  induction l as [|a l IH]; intros Hag; [reflexivity|].
  assert (IH' : filter Q l = filter P l).
  { apply IH. intros d Hd. apply Hag. right. exact Hd. }
  destruct (decide (P a)) as [HPa|HPa].
  - rewrite (filter_cons_True P) by exact HPa.
    rewrite (filter_cons_True Q) by (apply Hag; [left|exact HPa]).
    rewrite IH'. reflexivity.
  - rewrite (filter_cons_False P) by exact HPa.
    rewrite (filter_cons_False Q) by (rewrite Hag; [exact HPa|left]).
    exact IH'.
Qed.

Lemma filter_length_one_less {A : Type} `{!EqDecision A} (P Q : A -> Prop)
  `{!forall x, Decision (P x)} `{!forall x, Decision (Q x)} (l : list A) (c : A) :
  NoDup l -> c ∈ l -> P c -> ~ Q c ->
  (forall d, d ∈ l -> d <> c -> (Q d <-> P d)) ->
  (length (filter Q l) + 1 = length (filter P l))%nat.
Proof.
  intros Hnd Hc HPc HQc Hrest.
  induction l as [|a l IH]; [inversion Hc|].
  apply NoDup_cons in Hnd as [Ha Hnd].
  assert (Hrest' : forall d, d ∈ l -> d <> c -> (Q d <-> P d))
    by (intros d Hd; apply Hrest; right; exact Hd).
  destruct (decide (a = c)) as [->|Hac].
  - rewrite (filter_cons_True P) by exact HPc.
    rewrite (filter_cons_False Q) by exact HQc.
    assert (E : filter Q l = filter P l).
    { apply filter_agree. intros d Hd. apply Hrest'; [exact Hd|].
      intros ->. contradiction. }
    rewrite E. simpl. lia.
  - apply elem_of_cons in Hc as [->|Hc]; [contradiction|].
    specialize (IH Hnd Hc Hrest').
    assert (Ha' : Q a <-> P a) by (apply Hrest; [left|exact Hac]).
    destruct (decide (P a)) as [HPa|HPa].
    + rewrite (filter_cons_True P) by exact HPa.
      rewrite (filter_cons_True Q) by (apply Ha'; exact HPa).
      simpl. lia.
    + rewrite (filter_cons_False P) by exact HPa.
      rewrite (filter_cons_False Q) by (rewrite Ha'; exact HPa).
      exact IH.
Qed.

Section OpponentAttack.
Import TestCode.

Lemma allCells_spec (c : Z * Z) : c ∈ allCells <-> inBounds c.1 c.2.
Proof.
  unfold allCells, inBounds, GRID_SIZE. rewrite list_elem_of_bind. split.
  - intros (x & Hc & Hx). apply list_elem_of_fmap in Hc as (y & -> & Hy).
    apply elem_of_seqZ in Hx, Hy. simpl. lia.
  - intros [Hx Hy]. exists c.1. split.
    + apply list_elem_of_fmap. exists c.2. split.
      * destruct c; reflexivity.
      * apply elem_of_seqZ. lia.
    + apply elem_of_seqZ. lia.
Qed.

Lemma NoDup_allCells : NoDup allCells.
Proof. apply (bool_decide_unpack _). vm_compute. exact I. Qed.

Lemma random_grid (raw : Z) : random 0 GRID_SIZE raw = raw mod 10.
Proof.
  unfold random, GRID_SIZE. change (10 <=? 0) with false. cbv iota.
  change (10 - 0) with 10. apply Z.add_0_r.
Qed.

Lemma random_cell (raw : Z) :
  0 <= u8 (random 0 GRID_SIZE raw) < GRID_SIZE.
Proof.
  rewrite random_grid.
  assert (H : 0 <= raw mod 10 < 10) by (apply Z.mod_pos_bound; lia).
  unfold GRID_SIZE. rewrite u8_small; lia.
Qed.

Lemma huntSample_cons (ag : Grid) (rx ry : Z) (rest : list Z) :
  huntSample ag (rx :: ry :: rest) =
  if getCellState ag (u8 (random 0 GRID_SIZE rx)) (u8 (random 0 GRID_SIZE ry))
     =? CELL_EMPTY
  then Some (u8 (random 0 GRID_SIZE rx), u8 (random 0 GRID_SIZE ry), rest)
  else huntSample ag rest.
Proof. reflexivity. Qed.

Lemma huntSample_Some (ag : Grid) (draws : list Z) (x y : Z) (rest : list Z) :
  huntSample ag draws = Some (x, y, rest) ->
  inBounds x y /\ getCellState ag x y = CELL_EMPTY.
Proof.
  induction draws as [| a | a b l IH] using list_pair_ind;
    [discriminate | discriminate |].
  rewrite huntSample_cons.
  destruct (Z.eqb_spec
              (getCellState ag (u8 (random 0 GRID_SIZE a)) (u8 (random 0 GRID_SIZE b)))
              CELL_EMPTY) as [E|E].
  - intros [= <- <- <-]. split; [|exact E].
    split; apply random_cell.
  - exact IH.
Qed.

Lemma huntSample_fair (ag : Grid) (draws : list Z) :
  drawsReachUntried ag draws ->
  exists x y rest, huntSample ag draws = Some (x, y, rest).
Proof.
  intros (n & rx & ry & H1 & H2 & Hu). revert draws H1 H2.
  induction n as [|n IH]; intros draws H1 H2.
  - destruct draws as [|a [|b l]]; try discriminate.
    injection H1 as ->. injection H2 as ->.
    rewrite huntSample_cons. unfold untried in Hu. simpl in Hu. rewrite Hu.
    eauto.
  - replace (2 * S n)%nat with (S (S (2 * n))) in H1 by lia.
    replace (2 * S n + 1)%nat with (S (S (2 * n + 1))) in H2 by lia.
    destruct draws as [|a [|b l]]; try discriminate.
    rewrite huntSample_cons.
    destruct (getCellState ag (u8 (random 0 GRID_SIZE a))
                (u8 (random 0 GRID_SIZE b)) =? CELL_EMPTY); [eauto|].
    apply IH; assumption.
Qed.


Lemma arduinoShoot_fields (x y : Z) (h : Game) :
  let hit := getCellState (playerGrid h) x y =? CELL_SHIP in
  let mark := if hit then CELL_HIT else CELL_MISS in
  let h' := arduinoShoot x y h in
  arduinoAttackGrid h' = setCellState (arduinoAttackGrid h) x y mark /\
  playerGrid h' = setCellState (playerGrid h) x y mark /\
  arduinoGrid h' = arduinoGrid h /\
  playerAttackGrid h' = playerAttackGrid h /\
  cursorX h' = cursorX h /\ cursorY h' = cursorY h /\
  targetList h' = targetList h /\
  arduinoAttackMode h' = (if hit then TARGET_MODE else arduinoAttackMode h) /\
  lastHitX h' = (if hit then x else lastHitX h) /\
  lastHitY h' = (if hit then y else lastHitY h) /\
  targetIndex h' = (if hit then 0 else targetIndex h) /\
  targetListInitialized h' = (if hit then false else targetListInitialized h).
Proof.
  intros hit mark h'. subst h' mark hit. unfold arduinoShoot.
  destruct (getCellState (playerGrid h) x y =? CELL_SHIP);
    cbv zeta; game_proj; repeat split; reflexivity.
Qed.

Lemma arduinoWinCheck_fields (h : Game) :
  let h' := arduinoWinCheck h in
  h' = set_gameState (gameState h') h /\
  gameState h' =
    (if countRemainingShips (playerGrid h) =? 0 then GAME_OVER else PLAYER_TURN).
Proof.
  intros h'. subst h'. unfold arduinoWinCheck. cbv zeta.
  destruct (countRemainingShips (playerGrid h) =? 0); game_proj; auto.
Qed.

Lemma wfGame_set_gameState (s : GameState) (h : Game) :
  wfGame h -> wfGame (set_gameState s h).
Proof. unfold wfGame. game_proj. tauto. Qed.

Lemma wfGame_arduinoShoot (x y : Z) (h : Game) :
  wfGame h -> inBounds x y -> wfGame (arduinoWinCheck (arduinoShoot x y h)).
Proof.
  intros (H1 & H2 & H3 & H4 & H5 & H6 & H7 & H8 & H9) Hb.
  destruct (arduinoWinCheck_fields (arduinoShoot x y h)) as [-> _].
  apply wfGame_set_gameState.
  destruct (arduinoShoot_fields x y h)
    as (E1 & E2 & E3 & E4 & E5 & E6 & E7 & _ & E9 & E10 & E11 & _).
  unfold wfGame.
  rewrite E1, E2, E3, E4, E5, E6, E7, E9, E10, E11.
  split_and!; try (apply wfGrid_setCellState; assumption); try assumption;
    destruct (getCellState (playerGrid h) x y =? CELL_SHIP);
    try assumption; lia.
Qed.

Lemma resolvedAt_shoot (x y : Z) (h : Game) :
  inBounds x y -> getCellState (arduinoAttackGrid h) x y = CELL_EMPTY ->
  resolvedAt h (arduinoWinCheck (arduinoShoot x y h)) x y.
Proof.
  intros Hb Hempty.
  destruct (arduinoWinCheck_fields (arduinoShoot x y h)) as [E Hstate].
  destruct (arduinoShoot_fields x y h) as (E1 & E2 & E3 & E4 & _).
  unfold resolvedAt. cbv zeta.
  rewrite E. game_proj. rewrite E1, E2, E3, E4.
  repeat split; try assumption; try apply Hb.
  rewrite Hstate, E2. reflexivity.
Qed.

Lemma initTargetList_fields (h : Game) :
  wfGame h ->
  let h' := initTargetList h in
  playerGrid h' = playerGrid h /\ arduinoGrid h' = arduinoGrid h /\
  playerAttackGrid h' = playerAttackGrid h /\
  arduinoAttackGrid h' = arduinoAttackGrid h /\
  arduinoAttackMode h' = arduinoAttackMode h /\
  targetIndex h' = 0 /\ targetListInitialized h' = true /\
  wfGame h'.
Proof.
  intros (H1 & H2 & H3 & H4 & H5 & [Hx Hy] & H7 & H8 & H9) h'. subst h'.
  unfold initTargetList.
  destruct (Z.ltb_spec 0 (lastHitX h));
    destruct (Z.ltb_spec (lastHitX h) (GRID_SIZE - 1));
    destruct (Z.ltb_spec 0 (lastHitY h));
    destruct (Z.ltb_spec (lastHitY h) (GRID_SIZE - 1));
    cbv beta iota zeta; unfold wfGame; game_proj;
    split_and!; try reflexivity; try assumption; try lia;
    rewrite ?length_insert; try assumption;
    try (split; assumption);
    repeat (apply Forall_insert;
            [|unfold inBounds, GRID_SIZE in *; cbn [fst snd];
              rewrite ?u8_small by lia; lia]);
    assumption.
Qed.

Lemma scanTargets_Some (ag : Grid) (slots : list (Z * Z)) (ti : Z)
  (x y i' : Z) :
  scanTargets ag slots ti = (Some (x, y), i') ->
  (x, y) ∈ slots /\ getCellState ag x y = CELL_EMPTY.
Proof.
  revert ti. induction slots as [|[a b] rest IH]; intros ti; [discriminate|].
  cbn [scanTargets].
  destruct (Z.eqb_spec (getCellState ag a b) CELL_EMPTY) as [E|E].
  - intros [= <- <- <-]. split; [left|exact E].
  - intros H. destruct (IH _ H) as [Hin He]. split; [right; exact Hin|exact He].
Qed.

Lemma scanTargets_index (ag : Grid) (slots : list (Z * Z)) (ti : Z) :
  0 <= ti -> ti + Z.of_nat (length slots) <= 4 ->
  0 <= (scanTargets ag slots ti).2 <= 4.
Proof.
  revert ti. induction slots as [|[a b] rest IH]; intros ti H0 Hlen.
  - simpl in *. lia.
  - cbn [scanTargets]. cbn [length] in Hlen.
    destruct (getCellState ag a b =? CELL_EMPTY).
    + cbn [snd]. rewrite u8_small; lia.
    + apply IH; rewrite u8_small; lia.
Qed.

Lemma remainingSlots_facts (h : Game) :
  wfGame h ->
  Forall (fun c => inBounds c.1 c.2) (remainingSlots h) /\
  targetIndex h + Z.of_nat (length (remainingSlots h)) <= 4.
Proof.
  intros (_ & _ & _ & _ & _ & _ & H7 & H8 & H9). unfold remainingSlots. split.
  - apply Forall_drop, Forall_take, H9.
  - rewrite length_drop, length_take, H8. lia.
Qed.

Lemma wfGame_set_targetIndex (i : Z) (h : Game) :
  wfGame h -> 0 <= i <= 4 -> wfGame (set_targetIndex i h).
Proof. unfold wfGame. game_proj. tauto. Qed.

Lemma wfGame_set_arduinoAttackMode (m : AttackMode) (h : Game) :
  wfGame h -> wfGame (set_arduinoAttackMode m h).
Proof. unfold wfGame. game_proj. tauto. Qed.

Lemma arduinoAttack_S (d : nat) (g : Game) (draws : list Z) :
  arduinoAttack (S d) g draws =
  match arduinoAttackMode g with
  | HUNT_MODE =>
      match huntSample (arduinoAttackGrid g) draws with
      | Some (x, y, draws') => Some (arduinoWinCheck (arduinoShoot x y g), draws')
      | None => None
      end
  | TARGET_MODE =>
      let g1 := if targetListInitialized g then g else initTargetList g in
      let '(candidate, index') :=
        scanTargets (arduinoAttackGrid g1) (remainingSlots g1) (targetIndex g1) in
      let g2 := set_targetIndex index' g1 in
      match candidate with
      | Some (x, y) => Some (arduinoWinCheck (arduinoShoot x y g2), draws)
      | None => arduinoAttack d (set_arduinoAttackMode HUNT_MODE g2) draws
      end
  end.
Proof. reflexivity. Qed.

Lemma prepared_fields (g : Game) :
  wfGame g ->
  playerGrid (prepared g) = playerGrid g /\
  arduinoGrid (prepared g) = arduinoGrid g /\
  playerAttackGrid (prepared g) = playerAttackGrid g /\
  arduinoAttackGrid (prepared g) = arduinoAttackGrid g /\
  wfGame (prepared g).
Proof.
  intros Hwf. unfold prepared. destruct (targetListInitialized g).
  - auto.
  - destruct (initTargetList_fields g Hwf) as (E1 & E2 & E3 & E4 & _ & _ & _ & Hw).
    auto.
Qed.

Lemma resolvedAt_same_grids (g h g' : Game) (x y : Z) :
  playerGrid h = playerGrid g -> arduinoGrid h = arduinoGrid g ->
  playerAttackGrid h = playerAttackGrid g ->
  arduinoAttackGrid h = arduinoAttackGrid g ->
  resolvedAt h g' x y -> resolvedAt g g' x y.
Proof.
  intros E1 E2 E3 E4. unfold resolvedAt. rewrite E1, E2, E3, E4. tauto.
Qed.

(** Every result of [arduinoAttack] is one resolved attack on the state it
    was called in, whatever branch produced it. *)
Lemma arduinoAttack_Some (d : nat) (g : Game) (draws : list Z)
  (g' : Game) (rest : list Z) :
  wfGame g -> arduinoAttack d g draws = Some (g', rest) ->
  exists x y, resolvedAt g g' x y /\ wfGame g'.
Proof.
  revert g. induction d as [|d IH]; intros g Hwf; [discriminate|].
  rewrite arduinoAttack_S.
  destruct (arduinoAttackMode g).
  - destruct (huntSample (arduinoAttackGrid g) draws) as [[[x y] draws']|] eqn:Eh;
      [|discriminate].
    intros [= <- <-]. apply huntSample_Some in Eh as [Hb He].
    exists x, y. split.
    + apply resolvedAt_shoot; assumption.
    + apply wfGame_arduinoShoot; assumption.
  - fold (prepared g). cbv zeta.
    destruct (prepared_fields g Hwf) as (E1 & E2 & E3 & E4 & Hw1).
    destruct (remainingSlots_facts _ Hw1) as [Hslots Hlen].
    pose proof (scanTargets_index (arduinoAttackGrid (prepared g))
                  (remainingSlots (prepared g)) (targetIndex (prepared g))
                  ltac:(apply Hw1) Hlen) as Hidx.
    destruct (scanTargets (arduinoAttackGrid (prepared g))
                (remainingSlots (prepared g)) (targetIndex (prepared g)))
      as [[[x y]|] i'] eqn:Es; cbn [snd] in Hidx.
    + intros [= <- <-].
      apply scanTargets_Some in Es as [Hin He].
      assert (Hb : inBounds x y)
        by exact (proj1 (Forall_forall _ _) Hslots (x, y) Hin).
      exists x, y. split.
      * apply (resolvedAt_same_grids g (set_targetIndex i' (prepared g)));
          try assumption.
        apply resolvedAt_shoot; [exact Hb|exact He].
      * apply wfGame_arduinoShoot; [|exact Hb].
        apply wfGame_set_targetIndex; assumption.
    + intros Hrec.
      apply IH in Hrec as (x & y & Hres & Hw').
      * exists x, y. split; [|exact Hw'].
        revert Hres. apply resolvedAt_same_grids; assumption.
      * apply wfGame_set_arduinoAttackMode, wfGame_set_targetIndex; assumption.
Qed.


(** With draws that reach an untried cell, two nested calls are enough
    for [arduinoAttack] to return. *)
Lemma arduinoAttack_total (g : Game) (draws : list Z) :
  wfGame g -> drawsReachUntried (arduinoAttackGrid g) draws ->
  exists g' rest, arduinoAttack 2 g draws = Some (g', rest).
Proof.
  intros Hwf Hfair.
  destruct (huntSample_fair _ _ Hfair) as (x & y & rest & Eh).
  rewrite arduinoAttack_S.
  destruct (arduinoAttackMode g).
  - rewrite Eh. eauto.
  - fold (prepared g). cbv zeta.
    destruct (prepared_fields g Hwf) as (_ & _ & _ & E4 & _).
    destruct (scanTargets _ _ _) as [[[x' y']|] i']; [eauto|].
    rewrite arduinoAttack_S. game_proj. rewrite E4, Eh. eauto.
Qed.

(** What the call does when the target list gives no untried slot. *)
Lemma arduinoAttack_fallback (g : Game) (draws : list Z) (g' : Game)
  (rest : list Z) :
  wfGame g -> arduinoAttackMode g = TARGET_MODE ->
  (scanTargets (arduinoAttackGrid (prepared g)) (remainingSlots (prepared g))
               (targetIndex (prepared g))).1 = None ->
  arduinoAttack 2 g draws = Some (g', rest) ->
  exists x y,
    huntSample (arduinoAttackGrid g) draws = Some (x, y, rest) /\
    resolvedAt g g' x y /\
    arduinoAttackMode g' =
      (if getCellState (playerGrid g) x y =? CELL_SHIP
       then TARGET_MODE else HUNT_MODE).
Proof.
  intros Hwf Hmode Hnone. rewrite arduinoAttack_S, Hmode.
  fold (prepared g). cbv zeta.
  destruct (prepared_fields g Hwf) as (E1 & E2 & E3 & E4 & Hw1).
  destruct (scanTargets _ _ _) as [[[x' y']|] i']; [discriminate|].
  rewrite arduinoAttack_S. game_proj. rewrite E4.
  destruct (huntSample (arduinoAttackGrid g) draws) as [[[x y] draws']|] eqn:Eh;
    [|discriminate].
  intros [= <- <-]. exists x, y. split; [reflexivity|].
  apply huntSample_Some in Eh as [Hb He].
  set (h := set_arduinoAttackMode HUNT_MODE (set_targetIndex i' (prepared g))).
  split.
  - apply (resolvedAt_same_grids g h); try assumption.
    apply resolvedAt_shoot; [exact Hb|]. subst h. game_proj.
    rewrite E4. exact He.
  - destruct (arduinoWinCheck_fields (arduinoShoot x y h)) as [-> _].
    game_proj.
    destruct (arduinoShoot_fields x y h) as (_ & _ & _ & _ & _ & _ & _ & -> & _).
    subst h. game_proj. rewrite E1. reflexivity.
Qed.


Lemma arduinoAttack_winCheck (d : nat) (g : Game) (draws : list Z)
  (g' : Game) (rest : list Z) :
  arduinoAttack d g draws = Some (g', rest) -> exists h, g' = arduinoWinCheck h.
Proof.
  revert g. induction d as [|d IH]; intros g; [discriminate|].
  rewrite arduinoAttack_S. destruct (arduinoAttackMode g).
  - destruct (huntSample _ _) as [[[x y] draws']|]; [|discriminate].
    intros [= <- <-]. eauto.
  - cbv zeta. destruct (scanTargets _ _ _) as [[[x y]|] i'].
    + intros [= <- <-]. eauto.
    + apply IH.
Qed.

Lemma wfGame_powerOn : wfGame powerOn.
Proof.
  unfold wfGame, powerOn. game_proj.
  split_and!; try apply wfGrid_emptyGrid;
    try (unfold inBounds, GRID_SIZE; lia); try lia; try reflexivity.
  repeat constructor; unfold GRID_SIZE; cbn [fst snd]; lia.
Qed.

(** *** Concrete states for the attack theorems *)

Lemma wfGrid_placeShip (grid : Grid) (x y size : Z) (horizontal : bool) :
  wfGrid grid -> wfGrid (placeShip grid x y size horizontal).
Proof.
  unfold placeShip. generalize (seqZ 0 size). intros l. revert grid.
  destruct horizontal; induction l as [|i l IH]; intros grid Hwf;
    try exact Hwf; cbn [foldl]; apply IH, wfGrid_setCellState, Hwf.
Qed.

Lemma wfGame_oneShipGame : wfGame oneShipGame.
Proof.
  destruct wfGame_powerOn as (H1 & H2 & H3 & H4 & H5 & H6 & H7 & H8 & H9).
  unfold oneShipGame, wfGame. game_proj.
  split_and!; try assumption; try lia.
  apply wfGrid_placeShip, wfGrid_emptyGrid.
Qed.

(** What a resolved opponent attack does to the grids. *)
Lemma arduinoAttack_resolution (g g' : Game) (x y : Z) :
  wfGame g -> resolvedAt g g' x y ->
  (getCellState (playerGrid g) x y = CELL_SHIP ->
   getCellState (arduinoAttackGrid g') x y = CELL_HIT /\
   getCellState (playerGrid g') x y = CELL_HIT) /\
  (getCellState (playerGrid g) x y <> CELL_SHIP ->
   getCellState (arduinoAttackGrid g') x y = CELL_MISS /\
   getCellState (playerGrid g') x y = CELL_MISS) /\
  (forall x' y', inBounds x' y' -> (x', y') <> (x, y) ->
     getCellState (arduinoAttackGrid g') x' y' =
       getCellState (arduinoAttackGrid g) x' y' /\
     getCellState (playerGrid g') x' y' = getCellState (playerGrid g) x' y') /\
  arduinoGrid g' = arduinoGrid g /\
  playerAttackGrid g' = playerAttackGrid g.
Proof.
  intros Hwf (Hb & _ & Ea & Ep & Eag & Epa & _).
  assert (Hwa : wfGrid (arduinoAttackGrid g)) by apply Hwf.
  assert (Hwp : wfGrid (playerGrid g)) by apply Hwf.
  rewrite Ea, Ep. split_and!; try assumption.
  - intros Hship. rewrite Hship.
    change (CELL_SHIP =? CELL_SHIP) with true. cbv iota.
    split; apply get_set_same; try assumption; unfold CELL_HIT; lia.
  - intros Hnoship.
    replace (getCellState (playerGrid g) x y =? CELL_SHIP) with false
      by (symmetry; apply Z.eqb_neq; exact Hnoship).
    split; apply get_set_same; try assumption; unfold CELL_MISS; lia.
  - intros x' y' Hb' Hne. split; apply get_set_other; assumption.
Qed.

Lemma C3_witness :
  playerAttack pressTick (playerAttack pressTick oneShipGame)
  = playerAttack pressTick oneShipGame /\
  getCellState (playerAttackGrid (playerAttack pressTick oneShipGame)) 0 0
  = CELL_HIT /\
  arduinoGrid (playerAttack pressTick (playerAttack pressTick oneShipGame))
  = arduinoGrid (playerAttack pressTick oneShipGame).
Proof.
  destruct (C3_second_attack_is_rejected pressTick
              (playerAttack pressTick oneShipGame) eq_refl) as [Hrej _].
  destruct (C3_second_attack_is_rejected pressTick oneShipGame eq_refl)
    as [_ Htwice].
  destruct (Htwice wfGame_oneShipGame eq_refl) as [_ Hsecond].
  split; [exact (proj1 (Hrej (or_introl eq_refl)))|].
  split; [reflexivity|].
  exact (proj1 (proj2 (Hsecond pressTick eq_refl eq_refl eq_refl))).
Defined.

End OpponentAttack.

(** ** The target queue *)

Section TargetQueue.
Import TestCode.

Lemma inBoundsb_spec (x y : Z) : inBoundsb x y = true <-> inBounds x y.
Proof.
  unfold inBoundsb, inBounds. rewrite !andb_true_iff.
  rewrite !Z.leb_le, !Z.ltb_lt. tauto.
Qed.

(** What [initTargetList] leaves in the four slots: the in-grid
    neighbours of the last hit fill the first slots in the order left,
    right, up, down, and the slots after them keep their former contents. *)
Lemma initTargetList_slots (g : Game) :
  wfGame g ->
  let nb := orthogonalNeighbours (lastHitX g) (lastHitY g) in
  let tl := targetList (initTargetList g) in
  length tl = 4%nat /\
  take (length nb) tl = nb /\
  drop (length nb) tl = drop (length nb) (targetList g).
Proof.
  intros (_ & _ & _ & _ & _ & [Hx Hy] & _ & Hlen & _) nb tl. subst nb tl.
  unfold GRID_SIZE in Hx, Hy.
  destruct (targetList g) as [|a [|b [|c [|d [|e l]]]]] eqn:Etl;
    try discriminate Hlen.
  unfold orthogonalNeighbours, initTargetList. rewrite Etl.
  cbn [List.filter fst snd]. unfold inBoundsb, GRID_SIZE.
  destruct (Z.ltb_spec 0 (lastHitX g));
    destruct (Z.ltb_spec (lastHitX g) (10 - 1));
    destruct (Z.ltb_spec 0 (lastHitY g));
    destruct (Z.ltb_spec (lastHitY g) (10 - 1));
    try (exfalso; lia);
    cbv beta iota zeta; game_proj;
    repeat match goal with
           | |- context [?a <=? ?b] =>
               first [ replace (a <=? b) with true by (symmetry; apply Z.leb_le; lia)
                     | replace (a <=? b) with false by (symmetry; apply Z.leb_gt; lia) ]
           | |- context [?a <? ?b] =>
               first [ replace (a <? b) with true by (symmetry; apply Z.ltb_lt; lia)
                     | replace (a <? b) with false by (symmetry; apply Z.ltb_ge; lia) ]
           end;
    cbn [andb length take drop]; rewrite ?u8_small by lia;
    split_and!; reflexivity.
Qed.

(** Away from the border all four slots are rewritten, and the list is
    the queue of the specification. *)
Lemma initTargetList_interior (g : Game) :
  wfGame g ->
  0 < lastHitX g < GRID_SIZE - 1 -> 0 < lastHitY g < GRID_SIZE - 1 ->
  targetList (initTargetList g) =
    [(lastHitX g - 1, lastHitY g); (lastHitX g + 1, lastHitY g);
     (lastHitX g, lastHitY g - 1); (lastHitX g, lastHitY g + 1)] /\
  orthogonalNeighbours (lastHitX g) (lastHitY g) = targetList (initTargetList g).
Proof.
  intros Hwf Hx Hy. unfold GRID_SIZE in Hx, Hy.
  destruct (initTargetList_slots g Hwf) as (Hlen & Htake & _).
  assert (Hnb : orthogonalNeighbours (lastHitX g) (lastHitY g) =
                [(lastHitX g - 1, lastHitY g); (lastHitX g + 1, lastHitY g);
                 (lastHitX g, lastHitY g - 1); (lastHitX g, lastHitY g + 1)]).
  { unfold orthogonalNeighbours. cbn [List.filter fst snd].
    unfold inBoundsb, GRID_SIZE.
    repeat match goal with
           | |- context [?a <=? ?b] =>
               replace (a <=? b) with true by (symmetry; apply Z.leb_le; lia)
           | |- context [?a <? ?b] =>
               replace (a <? b) with true by (symmetry; apply Z.ltb_lt; lia)
           end.
    reflexivity. }
  rewrite Hnb in Htake |- *. cbn [length] in Htake.
  rewrite take_ge in Htake by lia. auto.
Qed.

(** The example of a hit away from the border: around (3, 2) the four
    slots are (2,2), (4,2), (3,1), (3,3), in this order, whatever they
    held before. *)
Example target_queue_around_3_2 :
  targetList (initTargetList (set_lastHit 3 2 powerOn))
  = [(2, 2); (4, 2); (3, 1); (3, 3)] /\
  orthogonalNeighbours 3 2 = [(2, 2); (4, 2); (3, 1); (3, 3)].
Proof. split; reflexivity. Qed.

(** C6 (defect in the code): the slots of [targetList] that
    [initTargetList] does not rewrite are scanned all the same, because the
    scan runs to index 4 whatever the number of neighbours written.  In
    the game below the opponent hits (1,2), then (0,2) from the queue
    around (1,2); the queue rebuilt around (0,2) holds the three in-grid
    neighbours (1,2), (0,1), (0,3) and, in its last slot, (1,3), left
    there by the queue around (1,2).  After (0,1) and (0,3) have missed,
    the next opponent turn fires at (1,3), which is no orthogonal
    neighbour of the last hit (0,2); no draw is left, so the shot is not a
    hunt-mode one. *)
Theorem C6_stale_slot_is_attacked :
  exists g g',
    runLoop (placementTicks ++ battleTicks) powerOn scenarioDraws = Some (g, []) /\
    gameState g = PLAYER_TURN /\
    arduinoAttackMode g = TARGET_MODE /\
    (lastHitX g, lastHitY g) = (0, 2) /\
    orthogonalNeighbours 0 2 = [(1, 2); (0, 1); (0, 3)] /\
    targetList g = [(1, 2); (0, 1); (0, 3); (1, 3)] /\
    targetIndex g = 3 /\
    getCellState (arduinoAttackGrid g) 1 3 = CELL_EMPTY /\
    runLoop [downPress; idle] g [] = Some (g', []) /\
    getCellState (arduinoAttackGrid g') 1 3 = CELL_MISS /\
    (lastHitX g', lastHitY g') = (0, 2) /\
    ~ In (1, 3) (orthogonalNeighbours 0 2).
Proof.
  destruct (runLoop (placementTicks ++ battleTicks) powerOn scenarioDraws)
    as [[g rest]|] eqn:E1; vm_compute in E1; [|discriminate E1].
  injection E1 as <- <-.
  eexists. eexists.
  split; [reflexivity|].
  split; [reflexivity|].
  split; [reflexivity|].
  split; [reflexivity|].
  split; [reflexivity|].
  split; [reflexivity|].
  split; [reflexivity|].
  split; [reflexivity|].
  split; [vm_compute; reflexivity|].
  split; [reflexivity|].
  split; [reflexivity|].
  vm_compute. intros [H|[H|[H|[]]]]; discriminate H.
Qed.

End TargetQueue.

(** ** Reset and the placement phase *)

Section ResetStatic.
Import StaticShipId.

(** [resetGame] of this sketch leaves the static counter and the
    orientation as they were. *)
Lemma static_resetGame_fields (g : Game) (draws : list Z) (g' : Game)
  (rest : list Z) :
  resetGame g draws = Some (g', rest) ->
  gameState g' = PLACING_SHIPS /\ playerGrid g' = emptyGrid /\
  playerAttackGrid g' = emptyGrid /\ arduinoAttackGrid g' = emptyGrid /\
  cursorX g' = 0 /\ cursorY g' = 0 /\
  placedShips g' = placedShips g /\
  playerShipHorizontal g' = playerShipHorizontal g.
Proof.
  unfold resetGame.
  destruct (placeArduinoShipsFrom _ _ _) as [[grid d]|]; [|discriminate].
  intros [= <- <-]. cbn. repeat split; reflexivity.
Qed.

(** With the counter at the roster length, [playerPlaceShips] ends the
    placement phase at once and places nothing. *)
Lemma static_placement_skipped (t : Tick) (g : Game) :
  NUM_SHIPS <= placedShips g ->
  gameState (playerPlaceShips t g) = PLAYER_TURN /\
  playerGrid (playerPlaceShips t g) = playerGrid g /\
  placedShips (playerPlaceShips t g) = placedShips g.
Proof.
  intros H. unfold playerPlaceShips.
  replace (NUM_SHIPS <=? placedShips g) with true
    by (symmetry; apply Z.leb_le; exact H).
  cbn. repeat split; reflexivity.
Qed.

(** Hence, once a placement phase has been completed, a reset from
    GAME_OVER goes to PLAYER_TURN within the same pass, the player's grid
    being empty. *)
Lemma static_reset_skips_placement (t : Tick) (g : Game) (draws : list Z)
  (g' : Game) (rest : list Z) :
  gameState g = GAME_OVER -> NUM_SHIPS <= placedShips g -> blueEdge t = true ->
  loop t g draws = Some (g', rest) ->
  gameState g' = PLAYER_TURN /\ playerGrid g' = emptyGrid /\
  placedShips g' = placedShips g.
Proof.
  intros Hover Hplaced Hblue. unfold loop. rewrite Hover, Hblue.
  destruct (resetGame g draws) as [[g1 d1]|] eqn:Er; [|discriminate].
  destruct (static_resetGame_fields g draws g1 d1 Er)
    as (Hs & Hpg & _ & _ & _ & _ & Hp & _).
  rewrite Hs. intros [= <- <-].
  destruct (static_placement_skipped t g1 ltac:(rewrite Hp; exact Hplaced))
    as (E1 & E2 & E3).
  rewrite E1, E2, E3, Hpg, Hp. repeat split; reflexivity.
Qed.

(** C9 (defect in the code of the sketch with the static counter): the
    game below is played from power-on to GAME_OVER (the opponent sinks
    the player's seven ships); the blue button then resets the game, yet
    the placement phase is not replayed: the static counter is still 7,
    so the same pass goes from PLACING_SHIPS on to PLAYER_TURN with the
    player's grid empty, and the opponent's next shot ends the game. *)
Theorem C9_static_counter_survives_reset :
  exists gOver g g2,
    runLoop (sPlacementTicks ++ sBattleTicks) powerOn (sFleetDraws ++ sHitDraws)
      = Some (gOver, []) /\
    gameState gOver = GAME_OVER /\
    placedShips gOver = NUM_SHIPS /\
    loop sBlue gOver sFleetDraws = Some (g, []) /\
    gameState g = PLAYER_TURN /\
    playerGrid g = emptyGrid /\
    placedShips g = NUM_SHIPS /\
    runLoop [sPress; sIdle] g [0; 0] = Some (g2, []) /\
    gameState g2 = GAME_OVER.
Proof.
  destruct (runLoop (sPlacementTicks ++ sBattleTicks) powerOn
              (sFleetDraws ++ sHitDraws)) as [[gOver rest]|] eqn:E1;
    vm_compute in E1; [|discriminate E1].
  injection E1 as <- <-.
  eexists. eexists. eexists.
  split; [reflexivity|].
  split; [reflexivity|].
  split; [reflexivity|].
  split; [vm_compute; reflexivity|].
  split; [reflexivity|].
  split; [reflexivity|].
  split; [reflexivity|].
  split; [vm_compute; reflexivity|].
  reflexivity.
Qed.

End ResetStatic.

Section ResetSibling.

(** [resetGame] of the serial-monitor sketch, whose counter is a global:
    the counter, the cursor, the orientation and the opponent's targeting
    state are back at their initial values, the player's grid and both
    attack grids are empty and the phase is PLACING_SHIPS. *)
Lemma serial_resetGame_fields (g : SerialMonitor.Game) (draws : list Z)
  (g' : SerialMonitor.Game) (rest : list Z) :
  SerialMonitor.resetGame g draws = Some (g', rest) ->
  SerialMonitor.gameState g' = PLACING_SHIPS /\
  SerialMonitor.shipId g' = 0 /\
  SerialMonitor.playerGrid g' = SerialMonitor.emptyGrid /\
  SerialMonitor.playerAttackGrid g' = SerialMonitor.emptyGrid /\
  SerialMonitor.arduinoAttackGrid g' = SerialMonitor.emptyGrid /\
  SerialMonitor.cursorX g' = 0 /\ SerialMonitor.cursorY g' = 0 /\
  SerialMonitor.playerShipHorizontal g' = true /\
  SerialMonitor.arduinoAttackMode g' = HUNT_MODE /\
  SerialMonitor.targetIndex g' = 0 /\
  SerialMonitor.targetListInitialized g' = false.
Proof.
  unfold SerialMonitor.resetGame.
  destruct (SerialMonitor.placeArduinoShipsFrom _ _ _) as [[grid d]|];
    [|discriminate].
  intros [= <- <-]. cbn. repeat split; reflexivity.
Qed.

End ResetSibling.

(** ** The main loop of the packed sketch: invariant and phases *)

Section MainLoop.
Import TestCode.

Lemma list_triple_ind {A : Type} (P : list A -> Prop) :
  P [] -> (forall a, P [a]) -> (forall a b, P [a; b]) ->
  (forall a b c l, P l -> P (a :: b :: c :: l)) ->
  forall l, P l.
Proof.
  intros H0 H1 H2 Hstep l.
  assert (H : P l /\ (forall a, P (a :: l)) /\ (forall a b, P (a :: b :: l))).
  { induction l as [|c l (IH0 & IH1 & IH2)].
    - split; [exact H0|split; [exact H1|exact H2]].
    - split; [apply IH1|split; [intros a; apply IH2|]].
      intros a b. apply Hstep, IH0. }
  exact (proj1 H).
Qed.

Lemma placeOneArduinoShip_Some (grid : Grid) (size : Z) (draws : list Z)
  (grid' : Grid) (rest : list Z) :
  placeOneArduinoShip grid size draws = Some (grid', rest) ->
  exists x y horizontal,
    inBounds x y /\ canPlaceShip grid x y size horizontal = true /\
    grid' = placeShip grid x y size horizontal.
Proof.
  induction draws as [| a | a b | a b c l IH] using list_triple_ind;
    try discriminate.
  cbn [placeOneArduinoShip]. cbv zeta.
  destruct (canPlaceShip grid (u8 (random 0 GRID_SIZE a))
              (u8 (random 0 GRID_SIZE b)) size
              (negb (random 0 2 c =? 0))) eqn:Ecan.
  - intros [= <- <-]. eexists _, _, _. split; [|split; [exact Ecan|reflexivity]].
    split; apply random_cell.
  - exact IH.
Qed.

Lemma placeArduinoShipsFrom_wf (shipIndexes : list Z) (grid : Grid)
  (draws : list Z) (grid' : Grid) (rest : list Z) :
  wfGrid grid ->
  placeArduinoShipsFrom shipIndexes grid draws = Some (grid', rest) ->
  wfGrid grid'.
Proof.
  revert grid draws. induction shipIndexes as [|i more IH]; intros grid draws Hwf.
  - intros [= <- <-]. exact Hwf.
  - cbn [placeArduinoShipsFrom].
    destruct (placeOneArduinoShip grid (shipSize i) draws) as [[g1 d1]|] eqn:E1;
      [|discriminate].
    apply placeOneArduinoShip_Some in E1 as (x & y & h & _ & _ & ->).
    apply IH, wfGrid_placeShip, Hwf.
Qed.

(** What [resetGame] leaves: the placed-ship counter, the cursor, the
    orientation and the opponent's targeting state are back at their
    initial values, the player's grid and both attack grids are empty, the
    opponent's grid holds its newly placed ships, and the phase is
    PLACING_SHIPS.  The slots of [targetList] are the one thing it does
    not touch. *)
Lemma resetGame_fields (g : Game) (draws : list Z) (g' : Game) (rest : list Z) :
  resetGame g draws = Some (g', rest) ->
  gameState g' = PLACING_SHIPS /\ shipId g' = 0 /\
  playerGrid g' = emptyGrid /\ playerAttackGrid g' = emptyGrid /\
  arduinoAttackGrid g' = emptyGrid /\
  wfGrid (arduinoGrid g') /\
  cursorX g' = 0 /\ cursorY g' = 0 /\ playerShipHorizontal g' = true /\
  arduinoAttackMode g' = HUNT_MODE /\ lastHitX g' = 0 /\ lastHitY g' = 0 /\
  targetIndex g' = 0 /\ targetListInitialized g' = false /\
  targetList g' = targetList g.
Proof.
  unfold resetGame, placeArduinoShips, initializeGrids. game_proj.
  destruct (placeArduinoShipsFrom (seqZ 0 NUM_SHIPS) emptyGrid draws)
    as [[grid d]|] eqn:E; [|discriminate].
  intros [= <- <-]. game_proj.
  split_and!; try reflexivity.
  exact (placeArduinoShipsFrom_wf _ _ _ _ _ wfGrid_emptyGrid E).
Qed.

Lemma wfGame_resetGame (g : Game) (draws : list Z) (g' : Game) (rest : list Z) :
  wfGame g -> resetGame g draws = Some (g', rest) -> wfGame g'.
Proof.
  intros (_ & _ & _ & _ & _ & _ & _ & H8 & H9) Hreset.
  destruct (resetGame_fields g draws g' rest Hreset)
    as (_ & _ & E1 & E2 & E3 & Hw & E4 & E5 & _ & _ & E6 & E7 & E8 & _ & E9).
  unfold wfGame. rewrite E1, E2, E3, E4, E5, E6, E7, E8, E9.
  split_and!; try apply wfGrid_emptyGrid; try assumption;
    try (unfold inBounds, GRID_SIZE; lia); lia.
Qed.

Lemma playerPlaceShips_fields (t : Tick) (g : Game) :
  wfGame g ->
  let g' := playerPlaceShips t g in
  wfGame g' /\
  (gameState g' = gameState g \/ gameState g' = PLAYER_TURN).
Proof.
  intros Hwf g'. subst g'. unfold playerPlaceShips.
  destruct (NUM_SHIPS <=? shipId g).
  - split; [apply wfGame_set_gameState, Hwf|right; reflexivity].
  - cbv zeta.
    pose proof (wfGame_updateCursorPosition t g Hwf) as Hwf1.
    destruct (updateCursorPosition_grids t g) as (_ & _ & _ & _ & Hs).
    set (g1 := updateCursorPosition t g) in *.
    assert (H2 : forall h, wfGame h -> wfGame (handleJoystickButton t h) /\
                           gameState (handleJoystickButton t h) = gameState h).
    { intros h Hh. unfold handleJoystickButton. destruct (joyPress t).
      - split; [|reflexivity]. unfold wfGame in *. game_proj. exact Hh.
      - split; [exact Hh|reflexivity]. }
    destruct (redPress t); [|destruct (H2 g1 Hwf1) as [? ->]; auto].
    destruct (canPlaceShip _ _ _ _ _); [|destruct (H2 g1 Hwf1) as [? ->]; auto].
    match goal with
    | |- wfGame (handleJoystickButton t ?h) /\ _ =>
        assert (Hh : wfGame h /\ gameState h = gameState g1)
    end.
    { split; [|reflexivity].
      destruct Hwf1 as (H1' & H2' & H3' & H4' & H5' & H6' & H7' & H8' & H9').
      unfold wfGame. game_proj.
      split_and!; try assumption; try lia. apply wfGrid_placeShip, H1'. }
    destruct Hh as [Hh Hst].
    destruct (H2 _ Hh) as [Hw ->]. rewrite Hst. auto.
Qed.

Lemma playerAttack_fields (t : Tick) (g : Game) :
  wfGame g ->
  let g' := playerAttack t g in
  wfGame g' /\
  (gameState g' = gameState g \/ gameState g' = GAME_OVER \/
   gameState g' = ARDUINO_TURN).
Proof.
  intros Hwf g'. subst g'. unfold playerAttack.
  pose proof (wfGame_updateCursorPosition t g Hwf) as Hwf1.
  destruct (updateCursorPosition_grids t g) as (_ & _ & _ & _ & Hs).
  set (g1 := updateCursorPosition t g) in *.
  destruct (redPress t); [|auto].
  destruct (Z.eq_dec (getCellState (playerAttackGrid g1) (cursorX g1) (cursorY g1))
              CELL_EMPTY) as [E|E].
  - destruct (playerAttackPress_untried g1 E)
      as (E1 & E2 & E3 & E4 & E5 & E6 & E7).
    split.
    + destruct Hwf1 as (H1' & H2' & H3' & H4' & H5' & H6' & H7' & H8' & H9').
      unfold wfGame. rewrite E1, E2, E3, E4, E5, E6.
      assert (Hrest : lastHitX (playerAttackPress g1) = lastHitX g1 /\
                      lastHitY (playerAttackPress g1) = lastHitY g1 /\
                      targetIndex (playerAttackPress g1) = targetIndex g1 /\
                      targetList (playerAttackPress g1) = targetList g1).
      { unfold playerAttackPress. rewrite E.
        change (CELL_EMPTY =? CELL_EMPTY) with true. cbv iota zeta.
        destruct (getCellState (arduinoGrid g1) (cursorX g1) (cursorY g1)
                  =? CELL_SHIP);
          match goal with
          | |- context [if ?c then set_gameState _ _ else _] => destruct c
          end; game_proj; auto. }
      destruct Hrest as (-> & -> & -> & ->).
      split_and!; try assumption; try apply wfGrid_setCellState; try assumption;
        lia.
    + rewrite E7.
      destruct (countRemainingShips (arduinoGrid (playerAttackPress g1)) =? 0);
        auto.
  - rewrite (playerAttackPress_tried g1 E). auto.
Qed.

(** Well-formedness is an invariant of [loop]: the hypotheses of the
    attack theorems hold in every state the sketch can reach. *)
Lemma wfGame_loop (t : Tick) (g : Game) (draws : list Z) (g' : Game)
  (rest : list Z) :
  wfGame g -> loop t g draws = Some (g', rest) -> wfGame g'.
Proof.
  intros Hwf. unfold loop.
  match goal with
  | |- match ?a with _ => _ end = _ -> _ =>
      assert (Hblue : forall g1 d1, a = Some (g1, d1) -> wfGame g1);
      [|destruct a as [[g1 d1]|]; [specialize (Hblue g1 d1 eq_refl)|discriminate]]
  end.
  { intros g1 d1.
    destruct (blue t); [intros [= <- <-]; exact Hwf| |apply wfGame_resetGame, Hwf].
    destruct (gameState g); try (intros [= <- <-]; exact Hwf);
      apply wfGame_resetGame, Hwf. }
  destruct (gameState g1).
  - intros [= <- <-]. exact Hblue.
  - intros [= <- <-]. apply playerPlaceShips_fields, Hblue.
  - intros [= <- <-]. apply playerAttack_fields, Hblue.
  - intros Hrun. apply arduinoAttack_Some in Hrun as (x & y & _ & Hw); assumption.
  - intros [= <- <-]. exact Hblue.
Qed.

Lemma wfGame_runLoop (ticks : list Tick) (g : Game) (draws : list Z) (g' : Game)
  (rest : list Z) :
  wfGame g -> runLoop ticks g draws = Some (g', rest) -> wfGame g'.
Proof.
  revert g draws. induction ticks as [|t more IH]; intros g draws Hwf.
  - intros [= <- <-]. exact Hwf.
  - cbn [runLoop]. destruct (loop t g draws) as [[g1 d1]|] eqn:E; [|discriminate].
    apply IH. exact (wfGame_loop t g draws g1 d1 Hwf E).
Qed.

(** Every state reached from power-on is well formed. *)
Lemma wfGame_reachable (ticks : list Tick) (draws : list Z) (g : Game)
  (rest : list Z) :
  runLoop ticks powerOn draws = Some (g, rest) -> wfGame g.
Proof. apply wfGame_runLoop, wfGame_powerOn. Qed.

(** The phase PLACING_SHIPS is entered by no other way than [resetGame]:
    a pass of [loop] that ends in PLACING_SHIPS either started there or
    ran [resetGame], and then handles the first roster ship. *)
Lemma loop_enters_placement_by_reset (t : Tick) (g : Game) (draws : list Z)
  (g' : Game) (rest : list Z) :
  wfGame g -> loop t g draws = Some (g', rest) ->
  gameState g' = PLACING_SHIPS -> gameState g <> PLACING_SHIPS ->
  exists g1, resetGame g draws = Some (g1, rest) /\
             shipId g1 = 0 /\ g' = playerPlaceShips t g1.
Proof.
  intros Hwf Hrun Hplacing Hnot.
  assert (Hstay : forall h d, wfGame h -> gameState h <> PLACING_SHIPS ->
            match gameState h with
            | WAITING_TO_START => Some (h, d)
            | PLACING_SHIPS => Some (playerPlaceShips t h, d)
            | PLAYER_TURN => Some (playerAttack t h, d)
            | ARDUINO_TURN => arduinoAttack 2 h d
            | GAME_OVER => Some (h, d)
            end = Some (g', rest) -> False).
  { intros h d Hh Hne. destruct (gameState h) eqn:Es.
    - intros [= <- <-]. congruence.
    - congruence.
    - intros [= <- <-].
      destruct (playerAttack_fields t h Hh) as [_ [E|[E|E]]]; congruence.
    - intros Hatt. apply arduinoAttack_winCheck in Hatt as [k ->].
      destruct (arduinoWinCheck_fields k) as [_ E]. rewrite E in Hplacing.
      destruct (countRemainingShips (playerGrid k) =? 0); discriminate.
    - intros [= <- <-]. congruence. }
  assert (Hreset : forall g1 d1, Some (g1, d1) = resetGame g draws ->
            match gameState g1 with
            | WAITING_TO_START => Some (g1, d1)
            | PLACING_SHIPS => Some (playerPlaceShips t g1, d1)
            | PLAYER_TURN => Some (playerAttack t g1, d1)
            | ARDUINO_TURN => arduinoAttack 2 g1 d1
            | GAME_OVER => Some (g1, d1)
            end = Some (g', rest) ->
            exists g1, resetGame g draws = Some (g1, rest) /\
                       shipId g1 = 0 /\ g' = playerPlaceShips t g1).
  { intros g1 d1 Er. symmetry in Er.
    destruct (resetGame_fields g draws g1 d1 Er) as (Es & Eid & _).
    rewrite Es. intros [= <- <-]. exists g1. auto. }
  assert (Hnoreset :
            match gameState g with
            | WAITING_TO_START => Some (g, draws)
            | PLACING_SHIPS => Some (playerPlaceShips t g, draws)
            | PLAYER_TURN => Some (playerAttack t g, draws)
            | ARDUINO_TURN => arduinoAttack 2 g draws
            | GAME_OVER => Some (g, draws)
            end = Some (g', rest) ->
            exists g1, resetGame g draws = Some (g1, rest) /\
                       shipId g1 = 0 /\ g' = playerPlaceShips t g1).
  { intros H. exfalso. exact (Hstay g draws Hwf Hnot H). }
  assert (Hbyreset :
            match resetGame g draws with
            | Some (g1, draws1) =>
                match gameState g1 with
                | WAITING_TO_START => Some (g1, draws1)
                | PLACING_SHIPS => Some (playerPlaceShips t g1, draws1)
                | PLAYER_TURN => Some (playerAttack t g1, draws1)
                | ARDUINO_TURN => arduinoAttack 2 g1 draws1
                | GAME_OVER => Some (g1, draws1)
                end
            | None => None
            end = Some (g', rest) ->
            exists g1, resetGame g draws = Some (g1, rest) /\
                       shipId g1 = 0 /\ g' = playerPlaceShips t g1).
  { destruct (resetGame g draws) as [[g1 d1]|] eqn:Er; [|discriminate].
    intros H. destruct (Hreset g1 d1 eq_refl H) as (g2 & E & Hid & Hg').
    injection E as <- <-. exists g1. auto. }
  revert Hrun. unfold loop.
  destruct (blue t); [exact Hnoreset| |exact Hbyreset].
  destruct (gameState g) eqn:Es; try exact Hbyreset; try congruence;
    cbv beta iota zeta; rewrite Es; exact Hnoreset.
Qed.

End MainLoop.

(** ** What the win check counts *)

Section RemainingShips.
Import TestCode.

Lemma foldl_fmap {A B C : Type} (f : A -> C -> A) (h : B -> C) (l : list B) (a : A) :
  foldl f a (h <$> l) = foldl (fun a y => f a (h y)) a l.
Proof.
  revert a. induction l as [|y l IH]; intros a; [reflexivity|].
  cbn. apply IH.
Qed.

Lemma foldl_bind {A B C : Type} (f : A -> C -> A) (k : B -> list C) (l : list B)
  (a : A) :
  foldl f a (l ≫= k) = foldl (fun a x => foldl f a (k x)) a l.
Proof.
  revert a. induction l as [|x l IH]; intros a; [reflexivity|].
  cbn. rewrite foldl_app. apply IH.
Qed.

Lemma foldl_ext_all {A B : Type} (f g : A -> B -> A) (l : list B) (a : A) :
  (forall a x, f a x = g a x) -> foldl f a l = foldl g a l.
Proof.
  intros Hfg. revert a. induction l as [|x l IH]; intros a; [reflexivity|].
  cbn. rewrite Hfg. apply IH.
Qed.

Lemma countRemainingShips_cells (grid : Grid) :
  countRemainingShips grid =
  foldl (fun n c => if getCellState grid c.1 c.2 =? CELL_SHIP then u8 (n + 1) else n)
        0 allCells.
Proof.
  unfold countRemainingShips, allCells. rewrite foldl_bind.
  apply foldl_ext_all. intros n x. rewrite foldl_fmap. reflexivity.
Qed.

Lemma count_foldl (grid : Grid) (l : list (Z * Z)) (n : Z) :
  0 <= n -> n + Z.of_nat (length l) < 256 ->
  foldl (fun n c => if getCellState grid c.1 c.2 =? CELL_SHIP then u8 (n + 1) else n)
        n l
  = n + Z.of_nat (length (filter (isShip grid) l)).
Proof.
  revert n. induction l as [|c l IH]; intros n Hn Hlen.
  - cbn. lia.
  - cbn [foldl length] in *. unfold isShip at 1.
    destruct (Z.eqb_spec (getCellState grid c.1 c.2) CELL_SHIP) as [E|E].
    + rewrite (filter_cons_True (isShip grid)) by exact E.
      rewrite u8_small by lia. rewrite IH by lia. cbn [length]. lia.
    + rewrite (filter_cons_False (isShip grid)) by exact E.
      apply IH; lia.
Qed.

(** [countRemainingShips] is the number of cells in state SHIP, so it is
    zero exactly when no cell of the grid holds SHIP any more. *)
Lemma countRemainingShips_spec (grid : Grid) :
  countRemainingShips grid = Z.of_nat (length (filter (isShip grid) allCells)) /\
  (countRemainingShips grid = 0 <->
   forall x y, inBounds x y -> getCellState grid x y <> CELL_SHIP).
Proof.
  assert (E : countRemainingShips grid =
              Z.of_nat (length (filter (isShip grid) allCells))).
  { rewrite countRemainingShips_cells, count_foldl; [lia|lia|].
    change (length allCells) with 100%nat. lia. }
  split; [exact E|]. rewrite E. split.
  - intros H0 x y Hb Hship.
    assert (Hin : (x, y) ∈ filter (isShip grid) allCells).
    { apply list_elem_of_filter. split; [exact Hship|].
      apply allCells_spec. exact Hb. }
    destruct (filter (isShip grid) allCells); [inversion Hin|discriminate].
  - intros Hnone.
    destruct (filter (isShip grid) allCells) as [|c l] eqn:Ef; [reflexivity|].
    assert (Hin : c ∈ filter (isShip grid) allCells) by (rewrite Ef; left).
    apply list_elem_of_filter in Hin as [Hship Hc].
    apply allCells_spec in Hc. exfalso. exact (Hnone c.1 c.2 Hc Hship).
Qed.

End RemainingShips.

(** ** The opponent's turn *)

Section OpponentTurn.
Import TestCode.

(** The hunt loop exits exactly when the draws reach an untried cell. *)
Lemma huntSample_reach (ag : Grid) (draws : list Z) (x y : Z) (rest : list Z) :
  huntSample ag draws = Some (x, y, rest) -> drawsReachUntried ag draws.
Proof.
  induction draws as [| a | a b l IH] using list_pair_ind;
    [discriminate | discriminate |].
  rewrite huntSample_cons.
  destruct (getCellState ag (u8 (random 0 GRID_SIZE a)) (u8 (random 0 GRID_SIZE b))
            =? CELL_EMPTY) eqn:E.
  - intros _. exists 0%nat, a, b. split; [reflexivity|split; [reflexivity|exact E]].
  - intros H. destruct (IH H) as (n & rx & ry & H1 & H2 & Hu).
    exists (S n), rx, ry. split; [|split; [|exact Hu]].
    + replace (2 * S n)%nat with (S (S (2 * n))) by lia. exact H1.
    + replace (2 * S n + 1)%nat with (S (S (2 * n + 1))) by lia. exact H2.
Qed.

Lemma targetCandidate_hunt (g : Game) :
  arduinoAttackMode g = HUNT_MODE -> targetCandidate g = None.
Proof. intros E. unfold targetCandidate. rewrite E. reflexivity. Qed.

Lemma targetCandidate_target (g : Game) :
  arduinoAttackMode g = TARGET_MODE ->
  targetCandidate g =
  (scanTargets (arduinoAttackGrid (prepared g)) (remainingSlots (prepared g))
               (targetIndex (prepared g))).1.
Proof. intros E. unfold targetCandidate. rewrite E. reflexivity. Qed.


(** A call returns exactly when it finds a cell to fire at. *)
Lemma arduinoAttack_returns (g : Game) (draws : list Z) :
  wfGame g ->
  (exists g' rest, arduinoAttack 2 g draws = Some (g', rest)) <-> findsCell g draws.
Proof.
  intros Hwf. unfold findsCell. split.
  - intros (g' & rest & Erun). revert Erun. rewrite arduinoAttack_S.
    destruct (arduinoAttackMode g) eqn:Em.
    + destruct (huntSample (arduinoAttackGrid g) draws) as [[[x y] r]|] eqn:Eh;
        [|discriminate].
      intros _. right. exact (huntSample_reach _ _ _ _ _ Eh).
    + rewrite (targetCandidate_target g Em). fold (prepared g). cbv zeta.
      destruct (prepared_fields g Hwf) as (_ & _ & _ & E4 & _).
      destruct (scanTargets _ _ _) as [[[x y]|] i'].
      * intros _. left. discriminate.
      * rewrite arduinoAttack_S. game_proj. rewrite E4.
        destruct (huntSample (arduinoAttackGrid g) draws) as [[[x y] r]|] eqn:Eh;
          [|discriminate].
        intros _. right. exact (huntSample_reach _ _ _ _ _ Eh).
  - intros [Htarget|Hreach]; [|apply arduinoAttack_total; assumption].
    rewrite arduinoAttack_S.
    destruct (arduinoAttackMode g) eqn:Em.
    + rewrite (targetCandidate_hunt g Em) in Htarget. contradiction.
    + rewrite (targetCandidate_target g Em) in Htarget. fold (prepared g). cbv zeta.
      destruct (scanTargets _ _ _) as [[[x y]|] i']; [eauto|contradiction].
Qed.


(** The cell a returning call has fired at: the candidate of the target
    list, with no draw taken, or else the cell the hunt loop drew; in the
    second case a call that started in TARGET mode leaves HUNT mode behind
    unless the shot hit. *)
Lemma arduinoAttack_cell (g : Game) (draws : list Z) (g' : Game) (rest : list Z) :
  wfGame g -> arduinoAttack 2 g draws = Some (g', rest) ->
  exists x y,
    resolvedAt g g' x y /\ wfGame g' /\
    match targetCandidate g with
    | Some c => c = (x, y) /\ rest = draws
    | None =>
        huntSample (arduinoAttackGrid g) draws = Some (x, y, rest) /\
        (arduinoAttackMode g = TARGET_MODE ->
         arduinoAttackMode g' =
           (if getCellState (playerGrid g) x y =? CELL_SHIP
            then TARGET_MODE else HUNT_MODE))
    end.
Proof.
  intros Hwf Erun.
  destruct (arduinoAttackMode g) eqn:Em.
  - rewrite (targetCandidate_hunt g Em).
    revert Erun. rewrite arduinoAttack_S, Em.
    destruct (huntSample (arduinoAttackGrid g) draws) as [[[x y] r]|] eqn:Eh;
      [|discriminate].
    intros [= <- <-]. exists x, y.
    destruct (huntSample_Some _ _ _ _ _ Eh) as [Hb He].
    split; [apply resolvedAt_shoot; assumption|].
    split; [apply wfGame_arduinoShoot; assumption|].
    split; [reflexivity|discriminate].
  - rewrite (targetCandidate_target g Em).
    destruct (scanTargets (arduinoAttackGrid (prepared g))
                (remainingSlots (prepared g)) (targetIndex (prepared g))).1
      as [[x y]|] eqn:Ec.
    + destruct (arduinoAttack_Some 2 g draws g' rest Hwf Erun)
        as (x0 & y0 & _ & Hw').
      revert Erun. rewrite arduinoAttack_S, Em. fold (prepared g). cbv zeta.
      destruct (prepared_fields g Hwf) as (E1 & E2 & E3 & E4 & Hw1).
      destruct (remainingSlots_facts _ Hw1) as [Hslots _].
      destruct (scanTargets (arduinoAttackGrid (prepared g))
                  (remainingSlots (prepared g)) (targetIndex (prepared g)))
        as [[[x' y']|] i'] eqn:Es; [|discriminate].
      cbn [fst] in Ec. injection Ec as -> ->.
      intros [= <- <-]. exists x, y.
      apply scanTargets_Some in Es as [Hin He].
      assert (Hb : inBounds x y)
        by exact (proj1 (Forall_forall _ _) Hslots (x, y) Hin).
      split; [|split; [exact Hw'|split; reflexivity]].
      apply (resolvedAt_same_grids g (set_targetIndex i' (prepared g)));
        try assumption.
      apply resolvedAt_shoot; [exact Hb|exact He].
    + destruct (arduinoAttack_Some 2 g draws g' rest Hwf Erun)
        as (x0 & y0 & _ & Hw').
      destruct (arduinoAttack_fallback g draws g' rest Hwf Em Ec Erun)
        as (x & y & Eh & Hres & Hm).
      exists x, y. split; [exact Hres|]. split; [exact Hw'|].
      split; [exact Eh|]. intros _. exact Hm.
Qed.


Lemma wfGame_huntTurn : wfGame huntTurn.
Proof.
  apply (wfGame_reachable (placementTicks ++ [press]) fleetDraws huntTurn []).
  vm_compute. reflexivity.
Qed.

Lemma wfGame_targetTurn : wfGame targetTurn.
Proof.
  apply (wfGame_reachable (placementTicks ++ battleTicks ++ [downPress])
           scenarioDraws targetTurn []).
  vm_compute. reflexivity.
Qed.


Lemma wfGame_lastCellGame : wfGame lastCellGame.
Proof.
  destruct wfGame_powerOn as (H1 & H2 & H3 & H4 & H5 & H6 & H7 & H8 & H9).
  unfold lastCellGame, wfGame. game_proj.
  split_and!; try assumption; try lia.
  apply wfGrid_placeShip, wfGrid_emptyGrid.
Qed.





(** C8: when a player attack is resolved, the game state becomes GAME_OVER
    if [countRemainingShips] of the Arduino's grid (as the attack left it)
    is zero and ARDUINO_TURN otherwise.  A call of [arduinoAttack] that
    finds a cell to fire at returns, and the game state it leaves is
    GAME_OVER if [countRemainingShips] of the player's grid (as the attack
    left it) is zero and PLAYER_TURN otherwise; the same holds of whatever
    a call returns, at every nesting bound. *)
Theorem C8_win_check_after_each_attack (t : Tick) (g : Game) (draws : list Z) :
  (redPress t = true ->
   getCellState (playerAttackGrid g)
     (cursorX (updateCursorPosition t g)) (cursorY (updateCursorPosition t g))
     = CELL_EMPTY ->
   gameState (playerAttack t g) =
     (if countRemainingShips (arduinoGrid (playerAttack t g)) =? 0
      then GAME_OVER else ARDUINO_TURN)) /\
  (wfGame g -> findsCell g draws ->
   exists g' rest,
     arduinoAttack 2 g draws = Some (g', rest) /\
     gameState g' =
       (if countRemainingShips (playerGrid g') =? 0
        then GAME_OVER else PLAYER_TURN)) /\
  (forall depth g' rest,
     arduinoAttack depth g draws = Some (g', rest) ->
     gameState g' =
       (if countRemainingShips (playerGrid g') =? 0
        then GAME_OVER else PLAYER_TURN)).
Proof.
  assert (Hcheck : forall depth g' rest,
            arduinoAttack depth g draws = Some (g', rest) ->
            gameState g' =
              (if countRemainingShips (playerGrid g') =? 0
               then GAME_OVER else PLAYER_TURN)).
  { intros depth g' rest Hrun.
    apply arduinoAttack_winCheck in Hrun as [h ->].
    destruct (arduinoWinCheck_fields h) as [E ->].
    rewrite E. game_proj. reflexivity. }
  split; [|split; [|exact Hcheck]].
  - intros Hpress Hempty. rewrite playerAttack_press by exact Hpress.
    apply playerAttackPress_untried.
    destruct (updateCursorPosition_grids t g) as (_ & _ & -> & _). exact Hempty.
  - intros Hwf Hfinds.
    destruct (proj2 (arduinoAttack_returns g draws Hwf) Hfinds)
      as (g' & rest & Erun).
    exists g', rest. split; [exact Erun|exact (Hcheck 2%nat g' rest Erun)].
Qed.

Lemma C8_witness :
  gameState (playerAttack pressTick oneShipGame) = GAME_OVER /\
  (exists g' rest,
     arduinoAttack 2 huntTurn [1; 2] = Some (g', rest) /\
     gameState g' = PLAYER_TURN) /\
  (exists g' rest,
     arduinoAttack 2 lastCellGame [3; 4] = Some (g', rest) /\
     gameState g' = GAME_OVER).
Proof.
  split; [|split].
  - destruct (C8_win_check_after_each_attack pressTick oneShipGame [])
      as [Hplayer _].
    rewrite (Hplayer eq_refl eq_refl). reflexivity.
  - destruct (C8_win_check_after_each_attack idle huntTurn [1; 2])
      as (_ & Hopponent & _).
    assert (Hfinds : findsCell huntTurn [1; 2]).
    { right. exists 0%nat, 1, 2.
      split; [reflexivity|split; [reflexivity|vm_compute; reflexivity]]. }
    destruct (Hopponent wfGame_huntTurn Hfinds) as (g' & rest & Erun & Hstate).
    exists g', rest. split; [exact Erun|].
    rewrite Hstate. vm_compute in Erun. injection Erun as <- <-.
    vm_compute. reflexivity.
  - destruct (C8_win_check_after_each_attack idle lastCellGame [3; 4])
      as (_ & Hopponent & _).
    assert (Hfinds : findsCell lastCellGame [3; 4]).
    { right. exists 0%nat, 3, 4.
      split; [reflexivity|split; [reflexivity|vm_compute; reflexivity]]. }
    destruct (Hopponent wfGame_lastCellGame Hfinds) as (g' & rest & Erun & Hstate).
    exists g', rest. split; [exact Erun|].
    rewrite Hstate. vm_compute in Erun. injection Erun as <- <-.
    vm_compute. reflexivity.
Defined.

(** C2: every attack of the packed sketch at an in-bounds cell (x, y) that
    is untried on the attacker's attack grid records HIT there and turns
    the defender's cell into HIT when the defender's grid holds SHIP at
    (x, y), and otherwise records MISS on the attack grid (this sketch
    writes MISS on the defender's cell too); every other in-bounds cell of
    both grids reads as before, and the two other grids are untouched.
    The first part is the player's attack at the cursor.  The second is the
    opponent's: a call of [arduinoAttack] that finds a cell to fire at
    returns, and has fired at the candidate of the target list or else at
    the cell the hunt loop drew.  The third covers whatever a call returns,
    at every nesting bound. *)
Theorem C2_attack_marks_only_the_target_cell (t : Tick) (g : Game) :
  wfGame g ->
  (redPress t = true ->
   let g1 := updateCursorPosition t g in
   let x := cursorX g1 in
   let y := cursorY g1 in
   let g' := playerAttack t g in
   getCellState (playerAttackGrid g) x y = CELL_EMPTY ->
   inBounds x y /\
   (getCellState (arduinoGrid g) x y = CELL_SHIP ->
    getCellState (playerAttackGrid g') x y = CELL_HIT /\
    getCellState (arduinoGrid g') x y = CELL_HIT) /\
   (getCellState (arduinoGrid g) x y <> CELL_SHIP ->
    getCellState (playerAttackGrid g') x y = CELL_MISS /\
    getCellState (arduinoGrid g') x y = CELL_MISS) /\
   (forall x' y', inBounds x' y' -> (x', y') <> (x, y) ->
      getCellState (playerAttackGrid g') x' y' =
        getCellState (playerAttackGrid g) x' y' /\
      getCellState (arduinoGrid g') x' y' = getCellState (arduinoGrid g) x' y') /\
   playerGrid g' = playerGrid g /\
   arduinoAttackGrid g' = arduinoAttackGrid g) /\
  (forall draws,
     findsCell g draws ->
     exists g' rest x y,
       arduinoAttack 2 g draws = Some (g', rest) /\
       match targetCandidate g with
       | Some c => c = (x, y)
       | None => huntSample (arduinoAttackGrid g) draws = Some (x, y, rest)
       end /\
       inBounds x y /\
       getCellState (arduinoAttackGrid g) x y = CELL_EMPTY /\
       (getCellState (playerGrid g) x y = CELL_SHIP ->
        getCellState (arduinoAttackGrid g') x y = CELL_HIT /\
        getCellState (playerGrid g') x y = CELL_HIT) /\
       (getCellState (playerGrid g) x y <> CELL_SHIP ->
        getCellState (arduinoAttackGrid g') x y = CELL_MISS /\
        getCellState (playerGrid g') x y = CELL_MISS) /\
       (forall x' y', inBounds x' y' -> (x', y') <> (x, y) ->
          getCellState (arduinoAttackGrid g') x' y' =
            getCellState (arduinoAttackGrid g) x' y' /\
          getCellState (playerGrid g') x' y' = getCellState (playerGrid g) x' y') /\
       arduinoGrid g' = arduinoGrid g /\
       playerAttackGrid g' = playerAttackGrid g) /\
  (forall depth draws g' rest,
     arduinoAttack depth g draws = Some (g', rest) ->
     exists x y,
       inBounds x y /\
       getCellState (arduinoAttackGrid g) x y = CELL_EMPTY /\
       (getCellState (playerGrid g) x y = CELL_SHIP ->
        getCellState (arduinoAttackGrid g') x y = CELL_HIT /\
        getCellState (playerGrid g') x y = CELL_HIT) /\
       (getCellState (playerGrid g) x y <> CELL_SHIP ->
        getCellState (arduinoAttackGrid g') x y = CELL_MISS /\
        getCellState (playerGrid g') x y = CELL_MISS) /\
       (forall x' y', inBounds x' y' -> (x', y') <> (x, y) ->
          getCellState (arduinoAttackGrid g') x' y' =
            getCellState (arduinoAttackGrid g) x' y' /\
          getCellState (playerGrid g') x' y' = getCellState (playerGrid g) x' y') /\
       arduinoGrid g' = arduinoGrid g /\
       playerAttackGrid g' = playerAttackGrid g).
Proof.
  intros Hwf. split; [|split].
  - intros Hpress. exact (playerAttack_resolution t g Hwf Hpress).
  - intros draws Hfinds.
    destruct (proj2 (arduinoAttack_returns g draws Hwf) Hfinds)
      as (g' & rest & Erun).
    destruct (arduinoAttack_cell g draws g' rest Hwf Erun)
      as (x & y & Hres & _ & Hcell).
    exists g', rest, x, y.
    destruct (arduinoAttack_resolution g g' x y Hwf Hres)
      as (Hhit & Hmiss & Hother & Hag & Hpa).
    destruct Hres as (Hb & Hempty & _).
    split_and!; try assumption.
    destruct (targetCandidate g); [exact (proj1 Hcell)|exact (proj1 Hcell)].
  - intros depth draws g' rest Hrun.
    destruct (arduinoAttack_Some depth g draws g' rest Hwf Hrun)
      as (x & y & Hres & _).
    exists x, y.
    destruct (arduinoAttack_resolution g g' x y Hwf Hres)
      as (Hhit & Hmiss & Hother & Hag & Hpa).
    destruct Hres as (Hb & Hempty & _).
    split_and!; assumption.
Qed.

Lemma C2_witness :
  (getCellState (playerAttackGrid (playerAttack pressTick oneShipGame)) 0 0 = CELL_HIT /\
   getCellState (arduinoGrid (playerAttack pressTick oneShipGame)) 0 0 = CELL_HIT) /\
  (exists g' rest,
     arduinoAttack 2 huntTurn [1; 2] = Some (g', rest) /\
     getCellState (arduinoAttackGrid g') 1 2 = CELL_HIT /\
     getCellState (playerGrid g') 1 2 = CELL_HIT /\
     getCellState (arduinoAttackGrid g') 0 2 = CELL_EMPTY /\
     getCellState (playerGrid g') 0 2 = CELL_SHIP) /\
  (exists g' rest,
     arduinoAttack 2 targetTurn [] = Some (g', rest) /\
     getCellState (arduinoAttackGrid g') 1 3 = CELL_MISS /\
     getCellState (playerGrid g') 1 3 = CELL_MISS).
Proof.
  split; [|split].
  - destruct (C2_attack_marks_only_the_target_cell pressTick oneShipGame
                wfGame_oneShipGame) as [Hplayer _].
    destruct (Hplayer eq_refl eq_refl) as (_ & Hhit & _).
    exact (Hhit eq_refl).
  - destruct (C2_attack_marks_only_the_target_cell idle huntTurn wfGame_huntTurn)
      as (_ & Hopponent & _).
    assert (Hfinds : findsCell huntTurn [1; 2]).
    { right. exists 0%nat, 1, 2.
      split; [reflexivity|split; [reflexivity|vm_compute; reflexivity]]. }
    destruct (Hopponent [1; 2] Hfinds)
      as (g' & rest & x & y & Erun & Hcell & _ & _ & Hhit & _ & Hother & _).
    assert (Ec : targetCandidate huntTurn = None) by reflexivity.
    assert (Eh : huntSample (arduinoAttackGrid huntTurn) [1; 2] = Some (1, 2, []))
      by (vm_compute; reflexivity).
    rewrite Ec, Eh in Hcell. injection Hcell as <- <- <-.
    exists g', []. split; [exact Erun|].
    assert (Hship : getCellState (playerGrid huntTurn) 1 2 = CELL_SHIP)
      by (vm_compute; reflexivity).
    destruct (Hhit Hship) as [Ha Hp].
    assert (Hb : inBounds 0 2) by (unfold inBounds, GRID_SIZE; lia).
    assert (Hne : (0, 2) <> (1, 2)) by discriminate.
    destruct (Hother 0 2 Hb Hne) as [Ha' Hp'].
    split; [exact Ha|]. split; [exact Hp|]. split.
    + rewrite Ha'. vm_compute. reflexivity.
    + rewrite Hp'. vm_compute. reflexivity.
  - destruct (C2_attack_marks_only_the_target_cell idle targetTurn wfGame_targetTurn)
      as (_ & Hopponent & _).
    assert (Hfinds : findsCell targetTurn [])
      by (left; vm_compute; discriminate).
    destruct (Hopponent [] Hfinds)
      as (g' & rest & x & y & Erun & Hcell & _ & _ & _ & Hmiss & _).
    assert (Ec : targetCandidate targetTurn = Some (1, 3))
      by (vm_compute; reflexivity).
    rewrite Ec in Hcell. injection Hcell as <- <-.
    exists g', rest. split; [exact Erun|].
    apply Hmiss. vm_compute. discriminate.
Defined.

End OpponentTurn.

(** ** What a placement does to a grid *)

Section PlacementEffects.
Import TestCode.

(** Writing the same state to a list of cells, one after the other. *)
Lemma getCellState_setCells (cells : list (Z * Z)) (grid : Grid) (s : Z) (c : Z * Z) :
  wfGrid grid -> Forall (fun d => inBounds d.1 d.2) cells -> 0 <= s < 4 ->
  inBounds c.1 c.2 ->
  getCellState (foldl (fun g d => setCellState g d.1 d.2 s) grid cells) c.1 c.2
  = if decide (c ∈ cells) then s else getCellState grid c.1 c.2.
Proof.
  intros Hwf Hall Hs Hc. revert grid Hwf.
  induction Hall as [|d rest Hd Hrest IH]; intros grid Hwf.
  - simpl. destruct (decide (c ∈ [])) as [Hin|_]; [|reflexivity].
    apply elem_of_nil in Hin. contradiction.
  - simpl. rewrite IH by (apply wfGrid_setCellState, Hwf).
    destruct (decide (c ∈ rest)) as [Hin|Hnin].
    + rewrite decide_True by (apply elem_of_cons; right; exact Hin). reflexivity.
    + destruct (decide (c = d)) as [->|Hne].
      * rewrite decide_True by (apply elem_of_cons; left; reflexivity).
        apply get_set_same; assumption.
      * rewrite decide_False
          by (intros [E|E]%elem_of_cons; [exact (Hne E)|exact (Hnin E)]).
        apply get_set_other; try assumption.
        intros E. apply Hne. destruct c, d. simpl in E. exact E.
Qed.

Lemma wfGrid_setCells (cells : list (Z * Z)) (grid : Grid) (s : Z) :
  wfGrid grid -> wfGrid (foldl (fun g d => setCellState g d.1 d.2 s) grid cells).
Proof.
  revert grid. induction cells as [|d rest IH]; intros grid Hwf; simpl.
  - exact Hwf.
  - apply IH, wfGrid_setCellState, Hwf.
Qed.

Lemma placeShip_setCells (grid : Grid) (x y size : Z) (horizontal : bool) :
  inBounds x y -> fits x y size horizontal ->
  placeShip grid x y size horizontal
  = foldl (fun g d => setCellState g d.1 d.2 CELL_SHIP) grid
          (footprint x y size horizontal).
Proof.
  intros [Hx Hy] Hfit. unfold placeShip, footprint, fits, GRID_SIZE in *.
  rewrite foldl_fmap.
  assert (Hgen : forall (l : list Z) (g : Grid),
             Forall (fun i => 0 <= i < size) l ->
             (if horizontal
              then foldl (fun g i => setCellState g (u8 (x + i)) y CELL_SHIP) g l
              else foldl (fun g i => setCellState g x (u8 (y + i)) CELL_SHIP) g l)
             = foldl (fun g i =>
                        setCellState g (if horizontal then (x + i, y) else (x, y + i)).1
                          (if horizontal then (x + i, y) else (x, y + i)).2 CELL_SHIP)
                     g l).
  { intros l. induction l as [|i l IH]; intros g Hl.
    - destruct horizontal; reflexivity.
    - apply Forall_cons in Hl as [Hi Hl]. specialize (IH (
        if horizontal then setCellState g (x + i) y CELL_SHIP
        else setCellState g x (y + i) CELL_SHIP) Hl).
      destruct horizontal; simpl in *; rewrite u8_small by lia; exact IH. }
  apply Hgen. apply Forall_forall. intros i Hi. apply elem_of_seqZ in Hi. lia.
Qed.

Lemma footprint_inBounds (x y size : Z) (horizontal : bool) :
  inBounds x y -> fits x y size horizontal ->
  Forall (fun d => inBounds d.1 d.2) (footprint x y size horizontal).
Proof.
  intros [Hx Hy] Hfit. apply Forall_forall. intros d Hd.
  unfold footprint in Hd. apply list_elem_of_fmap in Hd as (i & -> & Hi).
  apply elem_of_seqZ in Hi.
  unfold inBounds, fits, GRID_SIZE in *. destruct horizontal; simpl; lia.
Qed.

Lemma NoDup_footprint (x y size : Z) (horizontal : bool) :
  NoDup (footprint x y size horizontal).
Proof.
  unfold footprint. apply NoDup_fmap_2; [|apply NoDup_seqZ].
  intros i j E. destruct horizontal; inversion E; lia.
Qed.

Lemma length_footprint (x y size : Z) (horizontal : bool) :
  0 <= size -> Z.of_nat (length (footprint x y size horizontal)) = size.
Proof.
  intros Hs. unfold footprint. rewrite length_fmap, length_seqZ. lia.
Qed.

Lemma canPlaceShip_fits (grid : Grid) (x y size : Z) (horizontal : bool) :
  canPlaceShip grid x y size horizontal = true -> fits x y size horizontal.
Proof.
  unfold canPlaceShip, fits. destruct horizontal.
  - destruct (Z.ltb_spec GRID_SIZE (x + size)); [discriminate|lia].
  - destruct (Z.ltb_spec GRID_SIZE (y + size)); [discriminate|lia].
Qed.

Lemma canPlaceShip_footprint (grid : Grid) (x y size : Z) (horizontal : bool) :
  0 <= x -> 0 <= y ->
  canPlaceShip grid x y size horizontal = true <->
  fits x y size horizontal /\
  forall c, c ∈ footprint x y size horizontal ->
            getCellState grid c.1 c.2 = CELL_EMPTY.
Proof.
  intros Hx Hy. unfold canPlaceShip, fits, footprint, GRID_SIZE.
  destruct horizontal.
  - destruct (Z.ltb_spec 10 (x + size)) as [Hlt|Hge].
    + split; [discriminate|]. intros [Hfit _]. lia.
    + rewrite forallb_seqZ. split.
      * intros Hall. split; [exact Hge|]. intros c Hc.
        apply list_elem_of_fmap in Hc as (i & -> & Hi). apply elem_of_seqZ in Hi.
        specialize (Hall i ltac:(lia)). rewrite u8_small in Hall by lia.
        apply Z.eqb_eq in Hall. exact Hall.
      * intros [_ Hall] i Hi. rewrite u8_small by lia. apply Z.eqb_eq.
        apply (Hall (x + i, y)). apply list_elem_of_fmap. exists i.
        split; [reflexivity|]. apply elem_of_seqZ. lia.
  - destruct (Z.ltb_spec 10 (y + size)) as [Hlt|Hge].
    + split; [discriminate|]. intros [Hfit _]. lia.
    + rewrite forallb_seqZ. split.
      * intros Hall. split; [exact Hge|]. intros c Hc.
        apply list_elem_of_fmap in Hc as (i & -> & Hi). apply elem_of_seqZ in Hi.
        specialize (Hall i ltac:(lia)). rewrite u8_small in Hall by lia.
        apply Z.eqb_eq in Hall. exact Hall.
      * intros [_ Hall] i Hi. rewrite u8_small by lia. apply Z.eqb_eq.
        apply (Hall (x, y + i)). apply list_elem_of_fmap. exists i.
        split; [reflexivity|]. apply elem_of_seqZ. lia.
Qed.

(** Turning one cell that holds no ship into a ship cell adds one to the
    count. *)
Lemma count_setCell_ship (grid : Grid) (d : Z * Z) :
  wfGrid grid -> inBounds d.1 d.2 -> getCellState grid d.1 d.2 <> CELL_SHIP ->
  countRemainingShips (setCellState grid d.1 d.2 CELL_SHIP)
  = countRemainingShips grid + 1.
Proof.
  intros Hwf Hd Hno.
  rewrite (proj1 (countRemainingShips_spec _)), (proj1 (countRemainingShips_spec grid)).
  pose proof (filter_length_one_less
                (isShip (setCellState grid d.1 d.2 CELL_SHIP)) (isShip grid)
                allCells d NoDup_allCells) as Hlen.
  rewrite <- Hlen; [lia| | | |].
  - apply allCells_spec, Hd.
  - unfold isShip. apply get_set_same; [exact Hwf|exact Hd|unfold CELL_SHIP; lia].
  - exact Hno.
  - intros c Hc Hne. apply allCells_spec in Hc. unfold isShip.
    rewrite get_set_other; [reflexivity|exact Hwf|exact Hd|exact Hc|].
    intros E. apply Hne. destruct c, d. simpl in E. exact E.
Qed.

Lemma count_setCells_ship (cells : list (Z * Z)) (grid : Grid) :
  wfGrid grid -> NoDup cells -> Forall (fun d => inBounds d.1 d.2) cells ->
  Forall (fun d => getCellState grid d.1 d.2 <> CELL_SHIP) cells ->
  countRemainingShips (foldl (fun g d => setCellState g d.1 d.2 CELL_SHIP) grid cells)
  = countRemainingShips grid + Z.of_nat (length cells).
Proof.
  intros Hwf Hnd. revert grid Hwf.
  induction Hnd as [|d rest Hnin Hnd IH]; intros grid Hwf Hin Hno.
  - simpl. lia.
  - apply Forall_cons in Hin as [Hd Hin]. apply Forall_cons in Hno as [Hdno Hno].
    simpl foldl. rewrite IH.
    + rewrite count_setCell_ship by assumption. simpl length. lia.
    + apply wfGrid_setCellState, Hwf.
    + exact Hin.
    + apply Forall_forall. intros c Hc.
      rewrite get_set_other.
      * exact (proj1 (Forall_forall _ _) Hno c Hc).
      * exact Hwf.
      * exact Hd.
      * exact (proj1 (Forall_forall _ _) Hin c Hc).
      * intros E. apply Hnin. destruct c, d. simpl in E. inversion E. subst.
        exact Hc.
Qed.

Lemma count_placeShip (grid : Grid) (x y size : Z) (horizontal : bool) :
  wfGrid grid -> inBounds x y -> 0 <= size ->
  canPlaceShip grid x y size horizontal = true ->
  countRemainingShips (placeShip grid x y size horizontal)
  = countRemainingShips grid + size.
Proof.
  intros Hwf Hb Hs Hcan.
  assert (Hx : 0 <= x) by (destruct Hb; lia).
  assert (Hy : 0 <= y) by (destruct Hb; lia).
  apply canPlaceShip_footprint in Hcan as [Hfit Hclear]; [|exact Hx|exact Hy].
  rewrite placeShip_setCells by assumption.
  rewrite count_setCells_ship.
  - rewrite length_footprint by exact Hs. reflexivity.
  - exact Hwf.
  - apply NoDup_footprint.
  - apply footprint_inBounds; assumption.
  - apply Forall_forall. intros c Hc. rewrite (Hclear c Hc). discriminate.
Qed.

(** X1: for an anchor with non-negative coordinates, [canPlaceShip]
    returns true exactly when the ship's extent along its axis ends inside
    the grid and every cell of its footprint holds EMPTY: it accepts every
    such placement and rejects every other one. *)
Theorem X1_canPlaceShip_accepts_exactly_the_clear_fits
  (grid : Grid) (x y size : Z) (horizontal : bool) :
  0 <= x -> 0 <= y ->
  canPlaceShip grid x y size horizontal = true <->
  (if horizontal then x + size <= GRID_SIZE else y + size <= GRID_SIZE) /\
  forall c, c ∈ footprint x y size horizontal ->
            getCellState grid c.1 c.2 = CELL_EMPTY.
Proof. exact (canPlaceShip_footprint grid x y size horizontal). Qed.

Lemma X1_witness :
  canPlaceShip emptyGrid 5 9 5 true = true /\
  forall c, c ∈ footprint 5 9 5 true -> getCellState emptyGrid c.1 c.2 = CELL_EMPTY.
Proof.
  pose proof (X1_canPlaceShip_accepts_exactly_the_clear_fits emptyGrid 5 9 5 true
                ltac:(lia) ltac:(lia)) as [Hto _].
  split; [reflexivity|]. exact (proj2 (Hto eq_refl)).
Defined.

(** X2: [placeShip] of a ship that fits, anchored inside the grid, writes
    SHIP to every cell of the footprint and leaves every other cell of the
    grid as it was; the buffer keeps its size. *)
Theorem X2_placeShip_writes_exactly_the_footprint
  (grid : Grid) (x y size : Z) (horizontal : bool) (c : Z * Z) :
  wfGrid grid -> inBounds x y -> fits x y size horizontal -> inBounds c.1 c.2 ->
  wfGrid (placeShip grid x y size horizontal) /\
  getCellState (placeShip grid x y size horizontal) c.1 c.2
  = if decide (c ∈ footprint x y size horizontal) then CELL_SHIP
    else getCellState grid c.1 c.2.
Proof.
  intros Hwf Hb Hfit Hc. split; [apply wfGrid_placeShip, Hwf|].
  rewrite placeShip_setCells by assumption.
  apply getCellState_setCells; try assumption.
  - apply footprint_inBounds; assumption.
  - unfold CELL_SHIP. lia.
Qed.

Lemma X2_witness :
  getCellState (placeShip emptyGrid 2 3 4 false) 2 6 = CELL_SHIP /\
  getCellState (placeShip emptyGrid 2 3 4 false) 2 7 = CELL_EMPTY.
Proof.
  assert (Hb : inBounds 2 3) by (unfold inBounds, GRID_SIZE; lia).
  assert (Hfit : fits 2 3 4 false) by (unfold fits, GRID_SIZE; lia).
  split.
  - assert (Hc : inBounds (2, 6).1 (2, 6).2) by (unfold inBounds, GRID_SIZE; simpl; lia).
    exact (proj2 (X2_placeShip_writes_exactly_the_footprint emptyGrid 2 3 4 false
                    (2, 6) wfGrid_emptyGrid Hb Hfit Hc)).
  - assert (Hc : inBounds (2, 7).1 (2, 7).2) by (unfold inBounds, GRID_SIZE; simpl; lia).
    exact (proj2 (X2_placeShip_writes_exactly_the_footprint emptyGrid 2 3 4 false
                    (2, 7) wfGrid_emptyGrid Hb Hfit Hc)).
Defined.

(** X3: a placement that [canPlaceShip] accepts at an anchor inside the
    grid raises [countRemainingShips] by the size of the ship: the ship
    cells it writes are all new ones. *)
Theorem X3_accepted_placement_adds_size_ship_cells
  (grid : Grid) (x y size : Z) (horizontal : bool) :
  wfGrid grid -> inBounds x y -> 0 <= size ->
  canPlaceShip grid x y size horizontal = true ->
  countRemainingShips (placeShip grid x y size horizontal)
  = countRemainingShips grid + size.
Proof. exact (count_placeShip grid x y size horizontal). Qed.

Lemma X3_witness :
  countRemainingShips (placeShip (placeShip emptyGrid 0 0 5 true) 0 1 4 false)
  = countRemainingShips (placeShip emptyGrid 0 0 5 true) + 4.
Proof.
  apply (X3_accepted_placement_adds_size_ship_cells
           (placeShip emptyGrid 0 0 5 true) 0 1 4 false).
  - apply wfGrid_placeShip, wfGrid_emptyGrid.
  - unfold inBounds, GRID_SIZE. lia.
  - lia.
  - vm_compute. reflexivity.
Defined.

End PlacementEffects.

(** ** Fleets, hits and the phases of a game *)

Section FleetAccounts.
Import TestCode.

Lemma shipSize_range (i : Z) : 0 <= shipSize i <= 5.
Proof.
  unfold shipSize, ships.
  destruct (Z.to_nat i) as [|[|[|[|[|[|n]]]]]]; simpl; lia.
Qed.

Lemma rosterCells_succ (n : Z) :
  0 <= n < NUM_SHIPS -> rosterCells (n + 1) = rosterCells n + shipSize n.
Proof.
  unfold NUM_SHIPS. intros Hn.
  assert (Hcases : n = 0 \/ n = 1 \/ n = 2 \/ n = 3 \/ n = 4) by lia.
  destruct Hcases as [->|[->|[->|[->| ->]]]]; reflexivity.
Qed.

Lemma getCellState_emptyGrid (x y : Z) :
  inBounds x y -> getCellState emptyGrid x y = CELL_EMPTY.
Proof.
  intros Hb.
  assert (Hall : forallb (fun c => getCellState emptyGrid c.1 c.2 =? CELL_EMPTY)
                         allCells = true) by (vm_compute; reflexivity).
  rewrite forallb_forall in Hall.
  specialize (Hall (x, y)). apply Z.eqb_eq. apply Hall.
  apply list_elem_of_In. apply allCells_spec. exact Hb.
Qed.

Lemma countRemainingShips_emptyGrid : countRemainingShips emptyGrid = 0.
Proof. vm_compute. reflexivity. Qed.

Lemma placeArduinoShipsFrom_count (shipIndexes : list Z) (grid : Grid)
  (draws : list Z) (grid' : Grid) (rest : list Z) :
  wfGrid grid ->
  placeArduinoShipsFrom shipIndexes grid draws = Some (grid', rest) ->
  countRemainingShips grid'
  = countRemainingShips grid + foldr Z.add 0 (shipSize <$> shipIndexes).
Proof.
  revert grid draws.
  induction shipIndexes as [|i more IH]; intros grid draws Hwf Hrun.
  - simpl in Hrun. injection Hrun as <- <-. simpl. lia.
  - simpl in Hrun.
    destruct (placeOneArduinoShip grid (shipSize i) draws) as [[g1 d1]|] eqn:E1;
      [|discriminate].
    apply placeOneArduinoShip_Some in E1 as (x & y & h & Hb & Hcan & ->).
    rewrite (IH _ _ (wfGrid_placeShip _ _ _ _ _ Hwf) Hrun).
    rewrite count_placeShip; try assumption.
    + change (foldr Z.add 0 (shipSize <$> i :: more))
        with (shipSize i + foldr Z.add 0 (shipSize <$> more)).
      lia.
    + apply shipSize_range.
Qed.

Lemma handleJoystickButton_fields (t : Tick) (h : Game) :
  let h' := handleJoystickButton t h in
  playerGrid h' = playerGrid h /\ arduinoGrid h' = arduinoGrid h /\
  playerAttackGrid h' = playerAttackGrid h /\
  arduinoAttackGrid h' = arduinoAttackGrid h /\
  gameState h' = gameState h /\ shipId h' = shipId h /\
  cursorX h' = cursorX h /\ cursorY h' = cursorY h.
Proof.
  unfold handleJoystickButton. destruct (joyPress t); game_proj;
    split_and!; reflexivity.
Qed.

(** What one pass of the placement phase does while ships are left to
    place: nothing to the grids, or one accepted placement of the current
    roster ship at the cursor. *)
Lemma playerPlaceShips_effect (t : Tick) (g : Game) :
  wfGame g -> shipId g < NUM_SHIPS ->
  let g' := playerPlaceShips t g in
  let g1 := updateCursorPosition t g in
  arduinoGrid g' = arduinoGrid g /\ playerAttackGrid g' = playerAttackGrid g /\
  arduinoAttackGrid g' = arduinoAttackGrid g /\ gameState g' = gameState g /\
  cursorX g' = cursorX g1 /\ cursorY g' = cursorY g1 /\
  ((shipId g' = shipId g /\ playerGrid g' = playerGrid g /\
    (redPress t = true ->
     canPlaceShip (playerGrid g) (cursorX g1) (cursorY g1) (shipSize (shipId g))
                  (playerShipHorizontal g) = false)) \/
   (redPress t = true /\
    canPlaceShip (playerGrid g) (cursorX g1) (cursorY g1) (shipSize (shipId g))
                 (playerShipHorizontal g) = true /\
    playerGrid g' = placeShip (playerGrid g) (cursorX g1) (cursorY g1)
                              (shipSize (shipId g)) (playerShipHorizontal g) /\
    shipId g' = u8 (shipId g + 1))).
Proof.
  intros Hwf Hid g' g1. subst g'. unfold playerPlaceShips.
  destruct (Z.leb_spec NUM_SHIPS (shipId g)) as [Hge|_]; [lia|].
  cbv zeta. fold g1.
  assert (Hg1 : g1 = set_cursor (cursorX g1) (cursorY g1) g)
    by apply updateCursorPosition_set_cursor.
  assert (Hp : playerGrid g1 = playerGrid g) by (rewrite Hg1; reflexivity).
  assert (Ha : arduinoGrid g1 = arduinoGrid g) by (rewrite Hg1; reflexivity).
  assert (Hpa : playerAttackGrid g1 = playerAttackGrid g) by (rewrite Hg1; reflexivity).
  assert (Haa : arduinoAttackGrid g1 = arduinoAttackGrid g) by (rewrite Hg1; reflexivity).
  assert (Hs : gameState g1 = gameState g) by (rewrite Hg1; reflexivity).
  assert (Hi : shipId g1 = shipId g) by (rewrite Hg1; reflexivity).
  assert (Ho : playerShipHorizontal g1 = playerShipHorizontal g)
    by (rewrite Hg1; reflexivity).
  rewrite Hp, Ho, Hi.
  match goal with
  | |- context [handleJoystickButton t ?h] =>
      pose proof (handleJoystickButton_fields t h) as Hj; cbv zeta in Hj;
      destruct Hj as (-> & -> & -> & -> & -> & -> & -> & ->)
  end.
  destruct (redPress t) eqn:Er.
  - destruct (canPlaceShip (playerGrid g) (cursorX g1) (cursorY g1)
                (shipSize (shipId g)) (playerShipHorizontal g)) eqn:Ec.
    + game_proj. split_and!; try assumption; try reflexivity.
      right. split_and!; reflexivity.
    + split_and!; try assumption; try reflexivity.
      left. split_and!; try assumption. intros _. reflexivity.
  - split_and!; try assumption; try reflexivity.
    left. split_and!; try assumption. discriminate.
Qed.

Lemma playerPlaceShips_done (t : Tick) (g : Game) :
  NUM_SHIPS <= shipId g -> playerPlaceShips t g = set_gameState PLAYER_TURN g.
Proof.
  intros Hge. unfold playerPlaceShips.
  destruct (Z.leb_spec NUM_SHIPS (shipId g)) as [_|Hlt]; [reflexivity|lia].
Qed.

Lemma countRemainingShips_countIn (grid : Grid) :
  countRemainingShips grid = countIn CELL_SHIP grid.
Proof.
  rewrite (proj1 (countRemainingShips_spec grid)). reflexivity.
Qed.

Lemma filter_none {A : Type} (P : A -> Prop) `{!forall x, Decision (P x)} (l : list A) :
  (forall d, d ∈ l -> ~ P d) -> filter P l = [].
Proof.
  induction l as [|a l IH]; intros Hno; [reflexivity|].
  rewrite filter_cons_False by (apply Hno; apply elem_of_cons; left; reflexivity).
  apply IH. intros d Hd. apply Hno. apply elem_of_cons. right. exact Hd.
Qed.

(** Writing [n] to a cell that held [o] moves the cell from the count of
    [o] to the count of [n]. *)
Lemma countIn_setCellState (grid : Grid) (x y n s : Z) :
  wfGrid grid -> inBounds x y -> 0 <= n < 4 ->
  countIn s (setCellState grid x y n)
  = countIn s grid - (if getCellState grid x y =? s then 1 else 0)
    + (if n =? s then 1 else 0).
Proof.
  intros Hwf Hb Hn. unfold countIn.
  assert (Hin : (x, y) ∈ allCells) by (apply allCells_spec; exact Hb).
  assert (Hsame : getCellState (setCellState grid x y n) x y = n)
    by (apply get_set_same; assumption).
  assert (Hother : forall d, d ∈ allCells -> d <> (x, y) ->
            getCellState (setCellState grid x y n) d.1 d.2 = getCellState grid d.1 d.2).
  { intros d Hd Hne. apply allCells_spec in Hd.
    apply get_set_other; try assumption.
    intros E. apply Hne. destruct d. simpl in E. exact E. }
  destruct (Z.eqb_spec (getCellState grid x y) s) as [Ho|Ho];
    destruct (Z.eqb_spec n s) as [Hs|Hs].
  - replace (filter (fun c => getCellState (setCellState grid x y n) c.1 c.2 = s) allCells)
      with (filter (fun c => getCellState grid c.1 c.2 = s) allCells); [lia|].
    apply filter_agree. intros d Hd.
    destruct (decide (d = (x, y))) as [->|Hne].
    + simpl. rewrite Hsame. split; intros _; congruence.
    + rewrite (Hother d Hd Hne). reflexivity.
  - pose proof (filter_length_one_less
                  (fun c => getCellState grid c.1 c.2 = s)
                  (fun c => getCellState (setCellState grid x y n) c.1 c.2 = s)
                  allCells (x, y) NoDup_allCells Hin) as Hlen.
    rewrite <- Hlen; [lia| | |].
    + exact Ho.
    + simpl. rewrite Hsame. exact Hs.
    + intros d Hd Hne. rewrite (Hother d Hd Hne). reflexivity.
  - pose proof (filter_length_one_less
                  (fun c => getCellState (setCellState grid x y n) c.1 c.2 = s)
                  (fun c => getCellState grid c.1 c.2 = s)
                  allCells (x, y) NoDup_allCells Hin) as Hlen.
    rewrite <- Hlen; [lia| | |].
    + simpl. rewrite Hsame. exact Hs.
    + exact Ho.
    + intros d Hd Hne. rewrite (Hother d Hd Hne). reflexivity.
  - replace (filter (fun c => getCellState (setCellState grid x y n) c.1 c.2 = s) allCells)
      with (filter (fun c => getCellState grid c.1 c.2 = s) allCells); [lia|].
    apply filter_agree. intros d Hd.
    destruct (decide (d = (x, y))) as [->|Hne].
    + simpl. rewrite Hsame. split; intros E; congruence.
    + rewrite (Hother d Hd Hne). reflexivity.
Qed.

Lemma filter_all {A : Type} (P : A -> Prop) `{!forall x, Decision (P x)} (l : list A) :
  (forall d, d ∈ l -> P d) -> filter P l = l.
Proof.
  induction l as [|a l IH]; intros Hall; [reflexivity|].
  rewrite filter_cons_True by (apply Hall; apply elem_of_cons; left; reflexivity).
  f_equal. apply IH. intros d Hd. apply Hall. apply elem_of_cons. right. exact Hd.
Qed.

Lemma countIn_nonneg (s : Z) (grid : Grid) : 0 <= countIn s grid.
Proof. unfold countIn. lia. Qed.

Lemma countIn_emptyGrid (s : Z) : s <> CELL_EMPTY -> countIn s emptyGrid = 0.
Proof.
  intros Hs. unfold countIn.
  rewrite filter_none; [reflexivity|].
  intros d Hd E. apply allCells_spec in Hd.
  rewrite getCellState_emptyGrid in E by exact Hd. congruence.
Qed.

Lemma shipId_arduinoShoot (x y : Z) (h : Game) : shipId (arduinoShoot x y h) = shipId h.
Proof.
  unfold arduinoShoot.
  destruct (getCellState (playerGrid h) x y =? CELL_SHIP); reflexivity.
Qed.

Lemma shipId_arduinoWinCheck (h : Game) : shipId (arduinoWinCheck h) = shipId h.
Proof.
  unfold arduinoWinCheck.
  destruct (countRemainingShips (playerGrid h) =? 0); reflexivity.
Qed.

Lemma shipId_prepared (h : Game) : shipId (prepared h) = shipId h.
Proof.
  unfold prepared. destruct (targetListInitialized h); [reflexivity|].
  unfold initTargetList.
  destruct (0 <? lastHitX h), (lastHitX h <? GRID_SIZE - 1),
    (0 <? lastHitY h), (lastHitY h <? GRID_SIZE - 1); reflexivity.
Qed.

Lemma arduinoAttack_shipId (d : nat) (g : Game) (draws : list Z) (g' : Game)
  (rest : list Z) :
  arduinoAttack d g draws = Some (g', rest) -> shipId g' = shipId g.
Proof.
  revert g. induction d as [|d IH]; intros g; [discriminate|].
  rewrite arduinoAttack_S.
  destruct (arduinoAttackMode g).
  - destruct (huntSample (arduinoAttackGrid g) draws) as [[[x y] draws']|];
      [|discriminate].
    intros [= <- <-]. rewrite shipId_arduinoWinCheck. apply shipId_arduinoShoot.
  - fold (prepared g). cbv zeta.
    destruct (scanTargets _ _ _) as [[[x y]|] i'].
    + intros [= <- <-]. rewrite shipId_arduinoWinCheck, shipId_arduinoShoot.
      game_proj. apply shipId_prepared.
    + intros Hrec. apply IH in Hrec. rewrite Hrec. game_proj.
      apply shipId_prepared.
Qed.

Lemma pristine_emptyGrid : pristine emptyGrid.
Proof. intros x y Hb. left. apply getCellState_emptyGrid, Hb. Qed.

Lemma pristine_placeShip (grid : Grid) (x y size : Z) (horizontal : bool) :
  wfGrid grid -> inBounds x y -> fits x y size horizontal ->
  pristine grid -> pristine (placeShip grid x y size horizontal).
Proof.
  intros Hwf Hb Hfit Hp x' y' Hb'.
  rewrite placeShip_setCells by assumption.
  rewrite (getCellState_setCells _ grid CELL_SHIP (x', y')); try assumption.
  - destruct (decide ((x', y') ∈ footprint x y size horizontal)).
    + right. reflexivity.
    + apply Hp, Hb'.
  - apply footprint_inBounds; assumption.
  - unfold CELL_SHIP. lia.
Qed.

Lemma pristine_fleet (shipIndexes : list Z) (grid : Grid) (draws : list Z)
  (grid' : Grid) (rest : list Z) :
  wfGrid grid -> pristine grid ->
  placeArduinoShipsFrom shipIndexes grid draws = Some (grid', rest) ->
  pristine grid'.
Proof.
  revert grid draws.
  induction shipIndexes as [|i more IH]; intros grid draws Hwf Hp Hrun.
  - simpl in Hrun. injection Hrun as <- <-. exact Hp.
  - simpl in Hrun.
    destruct (placeOneArduinoShip grid (shipSize i) draws) as [[g1 d1]|] eqn:E1;
      [|discriminate].
    apply placeOneArduinoShip_Some in E1 as (x & y & h & Hb & Hcan & ->).
    apply (IH _ _ (wfGrid_placeShip _ _ _ _ _ Hwf)) in Hrun; [exact Hrun|].
    apply pristine_placeShip; try assumption.
    apply canPlaceShip_fits in Hcan. exact Hcan.
Qed.

Lemma mirrors_pristine (defender : Grid) : pristine defender -> mirrors emptyGrid defender.
Proof.
  intros Hp x y Hb. rewrite getCellState_emptyGrid by exact Hb.
  destruct (Hp x y Hb) as [-> | ->]; reflexivity.
Qed.

Lemma resetGame_fleet (g : Game) (draws : list Z) (g' : Game) (rest : list Z) :
  resetGame g draws = Some (g', rest) ->
  placeArduinoShipsFrom (seqZ 0 NUM_SHIPS) emptyGrid draws = Some (arduinoGrid g', rest).
Proof.
  unfold resetGame, placeArduinoShips, initializeGrids. game_proj.
  destruct (placeArduinoShipsFrom (seqZ 0 NUM_SHIPS) emptyGrid draws)
    as [[grid d]|] eqn:E; [|discriminate].
  intros [= <- <-]. reflexivity.
Qed.

Lemma accounts_resetGame (g : Game) (draws : list Z) (g' : Game) (rest : list Z) :
  resetGame g draws = Some (g', rest) -> accounts g'.
Proof.
  intros Hreset.
  pose proof (resetGame_fleet _ _ _ _ Hreset) as Hfleet.
  destruct (resetGame_fields _ _ _ _ Hreset)
    as (Hs & Hid & Hp & Hpa & Haa & _).
  unfold accounts. rewrite Hs, Hid, Hp, Hpa, Haa.
  split_and!.
  - apply mirrors_pristine.
    exact (pristine_fleet _ _ _ _ _ wfGrid_emptyGrid pristine_emptyGrid Hfleet).
  - apply mirrors_pristine, pristine_emptyGrid.
  - intros _.
    rewrite (placeArduinoShipsFrom_count _ _ _ _ _ wfGrid_emptyGrid Hfleet).
    rewrite countRemainingShips_emptyGrid.
    rewrite countIn_emptyGrid by discriminate.
    split_and!; try reflexivity; unfold NUM_SHIPS; lia.
  - intros [E|[E|E]]; discriminate.
  - discriminate.
  - intros _. rewrite !countIn_emptyGrid by discriminate. split; reflexivity.
  - intros [E|E]; discriminate.
Qed.

(** One resolved attack on a cell the attack grid holds untried. *)
Lemma resolve_accounts (attack defender : Grid) (x y : Z) :
  wfGrid attack -> wfGrid defender -> inBounds x y ->
  mirrors attack defender -> getCellState attack x y = CELL_EMPTY ->
  let mark := if getCellState defender x y =? CELL_SHIP then CELL_HIT else CELL_MISS in
  mirrors (setCellState attack x y mark) (setCellState defender x y mark) /\
  countRemainingShips (setCellState defender x y mark)
  + countIn CELL_HIT (setCellState attack x y mark)
  = countRemainingShips defender + countIn CELL_HIT attack.
Proof.
  intros Hwa Hwd Hb Hm He mark.
  assert (Hmark : 0 <= mark < 4).
  { subst mark. destruct (_ =? _); unfold CELL_HIT, CELL_MISS; lia. }
  split.
  - intros x' y' Hb'.
    destruct (decide ((x', y') = (x, y))) as [E|Hne].
    + injection E as -> ->. rewrite !get_set_same by assumption.
      subst mark. destruct (getCellState defender x y =? CELL_SHIP); reflexivity.
    + rewrite !get_set_other by assumption. apply Hm, Hb'.
  - rewrite !countRemainingShips_countIn.
    rewrite !countIn_setCellState by assumption.
    rewrite He. subst mark.
    destruct (Z.eqb_spec (getCellState defender x y) CELL_SHIP) as [Hs|Hs];
      reflexivity || (cbn; lia).
Qed.

Lemma mirrors_placeShip (attack defender : Grid) (x y size : Z) (horizontal : bool) :
  wfGrid defender -> inBounds x y ->
  canPlaceShip defender x y size horizontal = true ->
  mirrors attack defender ->
  mirrors attack (placeShip defender x y size horizontal).
Proof.
  intros Hwf Hb Hcan Hm x' y' Hb'.
  assert (Hx : 0 <= x) by (destruct Hb; lia).
  assert (Hy : 0 <= y) by (destruct Hb; lia).
  apply canPlaceShip_footprint in Hcan as [Hfit Hclear]; [|exact Hx|exact Hy].
  rewrite placeShip_setCells by assumption.
  rewrite (getCellState_setCells _ defender CELL_SHIP (x', y')); try assumption.
  - destruct (decide ((x', y') ∈ footprint x y size horizontal)) as [Hin|Hnin].
    + rewrite (Hm x' y' Hb'). pose proof (Hclear _ Hin) as Hc. cbn [fst snd] in Hc.
      rewrite Hc. reflexivity.
    + apply Hm, Hb'.
  - apply footprint_inBounds; assumption.
  - unfold CELL_SHIP. lia.
Qed.

Lemma accounts_playerPlaceShips (t : Tick) (g : Game) :
  wfGame g -> accounts g -> gameState g = PLACING_SHIPS ->
  accounts (playerPlaceShips t g).
Proof.
  intros Hwf (M1 & M2 & Hcnt & Hbattle & Hover & Hfresh & Hafloat) Hs.
  destruct Hcnt as (Hid & C1 & C2); [rewrite Hs; discriminate|].
  destruct (Hfresh Hs) as [F1 F2].
  destruct (Z.le_gt_cases NUM_SHIPS (shipId g)) as [Hge|Hlt].
  - rewrite playerPlaceShips_done by exact Hge.
    assert (Ei : shipId g = NUM_SHIPS) by lia.
    rewrite Ei in C2. change (rosterCells NUM_SHIPS) with 17 in C1, C2.
    unfold accounts. game_proj. split_and!; try assumption.
    + intros _. split_and!; try assumption; try lia.
      rewrite Ei. exact C2.
    + intros _. exact Ei.
    + discriminate.
    + discriminate.
    + intros _. lia.
  - destruct (playerPlaceShips_effect t g Hwf Hlt)
      as (Ea & Epa & Eaa & Est & _ & _ & Hcase).
    pose proof (wfGame_updateCursorPosition t g Hwf) as Hwf1.
    assert (Hb : inBounds (cursorX (updateCursorPosition t g))
                          (cursorY (updateCursorPosition t g))) by apply Hwf1.
    unfold accounts. rewrite Ea, Epa, Eaa, Est, Hs.
    destruct Hcase as [(Ei & Ep & _)|(_ & Hcan & Ep & Ei)]; rewrite Ei, Ep.
    + split_and!; try assumption.
      * intros _. split_and!; try assumption; lia.
      * intros [E|[E|E]]; discriminate.
      * discriminate.
      * intros _. split; assumption.
      * intros [E|E]; discriminate.
    + assert (Hwp : wfGrid (playerGrid g)) by apply Hwf.
      rewrite u8_small by (unfold NUM_SHIPS in *; lia).
      split_and!; try assumption.
      * apply mirrors_placeShip; assumption.
      * intros _. split_and!; try assumption; try lia.
        rewrite count_placeShip; try assumption; [|apply shipSize_range].
        rewrite rosterCells_succ by lia. lia.
      * intros [E|[E|E]]; discriminate.
      * discriminate.
      * intros _. split; assumption.
      * intros [E|E]; discriminate.
Qed.

Lemma shipId_playerAttackPress (h : Game) : shipId (playerAttackPress h) = shipId h.
Proof.
  unfold playerAttackPress.
  destruct (getCellState (playerAttackGrid h) (cursorX h) (cursorY h) =? CELL_EMPTY);
    [|reflexivity].
  cbv zeta.
  destruct (getCellState (arduinoGrid h) (cursorX h) (cursorY h) =? CELL_SHIP);
    match goal with
    | |- context [countRemainingShips ?a =? 0] => destruct (countRemainingShips a =? 0)
    end; reflexivity.
Qed.

Lemma accounts_playerAttackPress (h : Game) :
  wfGame h -> accounts h -> gameState h = PLAYER_TURN ->
  accounts (playerAttackPress h).
Proof.
  intros Hwf Hacc Hs.
  destruct (Z.eq_dec (getCellState (playerAttackGrid h) (cursorX h) (cursorY h))
                     CELL_EMPTY) as [He|Hne];
    [|rewrite playerAttackPress_tried by exact Hne; exact Hacc].
  destruct Hacc as (M1 & M2 & Hcnt & Hbattle & Hover & Hfresh & Hafloat).
  destruct Hcnt as (Hid & C1 & C2); [rewrite Hs; discriminate|].
  destruct Hafloat as [_ Hfp]; [left; exact Hs|].
  destruct (playerAttackPress_untried h He)
    as (Epa & Ea & Ep & Eaa & _ & _ & Est).
  destruct Hwf as (Hwp & Hwa & Hwpa & Hwaa & Hb & _).
  destruct (resolve_accounts _ _ _ _ Hwpa Hwa Hb M1 He) as [M1' C1'].
  cbv zeta in M1', C1'. rewrite <- Epa, <- Ea in M1', C1'.
  unfold accounts.
  rewrite shipId_playerAttackPress, Ep, Eaa.
  split_and!; try assumption.
  - intros _. split_and!; try assumption; lia.
  - intros _. apply Hbattle. left. exact Hs.
  - rewrite Est.
    destruct (countRemainingShips (arduinoGrid (playerAttackPress h)) =? 0) eqn:E0;
      [|discriminate].
    intros _. left. apply Z.eqb_eq. exact E0.
  - rewrite Est.
    destruct (countRemainingShips (arduinoGrid (playerAttackPress h)) =? 0);
      discriminate.
  - rewrite Est.
    destruct (Z.eqb_spec (countRemainingShips (arduinoGrid (playerAttackPress h))) 0)
      as [E0|E0]; [intros [E|E]; discriminate|].
    intros _. split; [|exact Hfp].
    pose proof (countIn_nonneg CELL_SHIP (arduinoGrid (playerAttackPress h))) as Hn.
    rewrite <- countRemainingShips_countIn in Hn. lia.
Qed.

Lemma accounts_set_cursor (x y : Z) (h : Game) : accounts h -> accounts (set_cursor x y h).
Proof. unfold accounts. game_proj. exact id. Qed.

Lemma accounts_playerAttack (t : Tick) (g : Game) :
  wfGame g -> accounts g -> gameState g = PLAYER_TURN ->
  accounts (playerAttack t g).
Proof.
  intros Hwf Hacc Hs. unfold playerAttack. cbv zeta.
  pose proof (wfGame_updateCursorPosition t g Hwf) as Hwf1.
  assert (Hacc1 : accounts (updateCursorPosition t g)).
  { rewrite updateCursorPosition_set_cursor. apply accounts_set_cursor, Hacc. }
  assert (Hs1 : gameState (updateCursorPosition t g) = PLAYER_TURN).
  { destruct (updateCursorPosition_grids t g) as (_ & _ & _ & _ & ->). exact Hs. }
  destruct (redPress t); [|exact Hacc1].
  apply accounts_playerAttackPress; assumption.
Qed.

Lemma accounts_arduinoAttack (d : nat) (g : Game) (draws : list Z) (g' : Game)
  (rest : list Z) :
  wfGame g -> accounts g -> gameState g = ARDUINO_TURN ->
  arduinoAttack d g draws = Some (g', rest) -> accounts g'.
Proof.
  intros Hwf (M1 & M2 & Hcnt & Hbattle & Hover & Hfresh & Hafloat) Hs Hrun.
  destruct Hcnt as (Hid & C1 & C2); [rewrite Hs; discriminate|].
  destruct Hafloat as [Hfa _]; [right; exact Hs|].
  pose proof (arduinoAttack_shipId _ _ _ _ _ Hrun) as Ei.
  destruct (arduinoAttack_Some _ _ _ _ _ Hwf Hrun)
    as (x & y & (Hb & He & Eaa & Ep & Ea & Epa & Est) & _).
  destruct Hwf as (Hwp & Hwa & Hwpa & Hwaa & _).
  destruct (resolve_accounts _ _ _ _ Hwaa Hwp Hb M2 He) as [M2' C2'].
  cbv zeta in M2', C2'. rewrite <- Eaa, <- Ep in M2', C2'.
  unfold accounts. rewrite Ei, Ea, Epa.
  split_and!; try assumption.
  - intros _. split_and!; try assumption; lia.
  - intros _. apply Hbattle. right. left. exact Hs.
  - rewrite Est.
    destruct (countRemainingShips (playerGrid g') =? 0) eqn:E0; [|discriminate].
    intros _. right. apply Z.eqb_eq. exact E0.
  - rewrite Est.
    destruct (countRemainingShips (playerGrid g') =? 0); discriminate.
  - rewrite Est.
    destruct (Z.eqb_spec (countRemainingShips (playerGrid g')) 0)
      as [E0|E0]; [intros [E|E]; discriminate|].
    intros _. split; [exact Hfa|].
    pose proof (countIn_nonneg CELL_SHIP (playerGrid g')) as Hn.
    rewrite <- countRemainingShips_countIn in Hn. lia.
Qed.

Lemma accounts_powerOn : accounts powerOn.
Proof.
  unfold accounts, powerOn. game_proj. split_and!.
  - apply mirrors_pristine, pristine_emptyGrid.
  - apply mirrors_pristine, pristine_emptyGrid.
  - intros H. exfalso. apply H. reflexivity.
  - intros [E|[E|E]]; discriminate.
  - discriminate.
  - discriminate.
  - intros [E|E]; discriminate.
Qed.

(** One pass of [loop] keeps the accounts. *)
Lemma accounts_loop (t : Tick) (g : Game) (draws : list Z) (g' : Game)
  (rest : list Z) :
  wfGame g -> accounts g -> loop t g draws = Some (g', rest) -> accounts g'.
Proof.
  intros Hwf Hacc. unfold loop.
  assert (Hstep : forall h d, wfGame h -> accounts h ->
            match gameState h with
            | WAITING_TO_START => Some (h, d)
            | PLACING_SHIPS => Some (playerPlaceShips t h, d)
            | PLAYER_TURN => Some (playerAttack t h, d)
            | ARDUINO_TURN => arduinoAttack 2 h d
            | GAME_OVER => Some (h, d)
            end = Some (g', rest) -> accounts g').
  { intros h d Hh Ha. destruct (gameState h) eqn:Es.
    - intros [= <- <-]. exact Ha.
    - intros [= <- <-]. apply accounts_playerPlaceShips; assumption.
    - intros [= <- <-]. apply accounts_playerAttack; assumption.
    - intros Hrun. exact (accounts_arduinoAttack _ _ _ _ _ Hh Ha Es Hrun).
    - intros [= <- <-]. exact Ha. }
  assert (Hreset :
            match resetGame g draws with
            | Some (g1, draws1) =>
                match gameState g1 with
                | WAITING_TO_START => Some (g1, draws1)
                | PLACING_SHIPS => Some (playerPlaceShips t g1, draws1)
                | PLAYER_TURN => Some (playerAttack t g1, draws1)
                | ARDUINO_TURN => arduinoAttack 2 g1 draws1
                | GAME_OVER => Some (g1, draws1)
                end
            | None => None
            end = Some (g', rest) -> accounts g').
  { destruct (resetGame g draws) as [[g1 draws1]|] eqn:Er; [|discriminate].
    intros Hrun. apply (Hstep g1 draws1); [| |exact Hrun].
    - exact (wfGame_resetGame _ _ _ _ Hwf Er).
    - exact (accounts_resetGame _ _ _ _ Er). }
  destruct (blue t).
  - apply Hstep; assumption.
  - destruct (gameState g) eqn:Es; cbv beta iota zeta;
      first [ exact Hreset | apply Hstep; assumption ].
  - exact Hreset.
Qed.

Lemma accounts_runLoop (ticks : list Tick) (g : Game) (draws : list Z) (g' : Game)
  (rest : list Z) :
  wfGame g -> accounts g -> runLoop ticks g draws = Some (g', rest) -> accounts g'.
Proof.
  revert g draws. induction ticks as [|t more IH]; intros g draws Hwf Hacc Hrun.
  - simpl in Hrun. injection Hrun as <- <-. exact Hacc.
  - simpl in Hrun. destruct (loop t g draws) as [[g1 d1]|] eqn:El; [|discriminate].
    apply (IH g1 d1); [| |exact Hrun].
    + exact (wfGame_loop _ _ _ _ _ Hwf El).
    + exact (accounts_loop _ _ _ _ _ Hwf Hacc El).
Qed.

Lemma accounts_reachable (ticks : list Tick) (draws : list Z) (g : Game)
  (rest : list Z) :
  runLoop ticks powerOn draws = Some (g, rest) -> accounts g.
Proof. apply accounts_runLoop; [apply wfGame_powerOn|apply accounts_powerOn]. Qed.

(** X4: whenever [resetGame] returns, the opponent's grid holds exactly
    the 17 ship cells of the roster (5 + 4 + 3 + 3 + 2) and nothing but
    EMPTY and SHIP, the player's grid holds no ship cell, and every cell of
    both attack grids is untried. *)
Theorem X4_resetGame_places_the_whole_fleet
  (g : Game) (draws : list Z) (g' : Game) (rest : list Z) :
  resetGame g draws = Some (g', rest) ->
  countRemainingShips (arduinoGrid g') = 5 + 4 + 3 + 3 + 2 /\
  pristine (arduinoGrid g') /\
  countRemainingShips (playerGrid g') = 0 /\
  (forall x y, inBounds x y ->
     getCellState (playerAttackGrid g') x y = CELL_EMPTY /\
     getCellState (arduinoAttackGrid g') x y = CELL_EMPTY).
Proof.
  intros Hreset.
  pose proof (resetGame_fleet _ _ _ _ Hreset) as Hfleet.
  destruct (resetGame_fields _ _ _ _ Hreset) as (_ & _ & Hp & Hpa & Haa & _).
  split_and!.
  - rewrite (placeArduinoShipsFrom_count _ _ _ _ _ wfGrid_emptyGrid Hfleet).
    rewrite countRemainingShips_emptyGrid. reflexivity.
  - exact (pristine_fleet _ _ _ _ _ wfGrid_emptyGrid pristine_emptyGrid Hfleet).
  - rewrite Hp. apply countRemainingShips_emptyGrid.
  - intros x y Hb. rewrite Hpa, Haa.
    split; apply getCellState_emptyGrid, Hb.
Qed.

Lemma X4_witness :
  resetGame powerOn fleetDraws = Some (freshGame, []) /\
  countRemainingShips (arduinoGrid freshGame) = 17.
Proof.
  assert (E : resetGame powerOn fleetDraws = Some (freshGame, []))
    by (vm_compute; reflexivity).
  split; [exact E|].
  exact (proj1 (X4_resetGame_places_the_whole_fleet powerOn fleetDraws freshGame [] E)).
Defined.

(** X5: a pass of the placement phase with ships left to place touches
    neither the opponent's grid, nor the attack grids, nor the game state.
    On a red press that [canPlaceShip] accepts at the cursor (as moved in
    this pass) it writes the current roster ship there, which adds its size
    to the ship cells of the player's grid, and advances [shipId] by one;
    otherwise (no press, or a rejected one) the player's grid and [shipId]
    stay as they were. *)
Theorem X5_placement_pass_places_one_accepted_ship_or_nothing (t : Tick) (g : Game) :
  wfGame g -> 0 <= shipId g < NUM_SHIPS ->
  let g' := playerPlaceShips t g in
  let g1 := updateCursorPosition t g in
  let size := shipSize (shipId g) in
  arduinoGrid g' = arduinoGrid g /\ playerAttackGrid g' = playerAttackGrid g /\
  arduinoAttackGrid g' = arduinoAttackGrid g /\ gameState g' = gameState g /\
  if redPress t && canPlaceShip (playerGrid g) (cursorX g1) (cursorY g1) size
                                (playerShipHorizontal g)
  then shipId g' = shipId g + 1 /\
       playerGrid g' = placeShip (playerGrid g) (cursorX g1) (cursorY g1) size
                                 (playerShipHorizontal g) /\
       countRemainingShips (playerGrid g')
       = countRemainingShips (playerGrid g) + size
  else shipId g' = shipId g /\ playerGrid g' = playerGrid g.
Proof.
  intros Hwf [Hid0 Hid] g' g1 size.
  destruct (playerPlaceShips_effect t g Hwf Hid)
    as (Ea & Epa & Eaa & Est & _ & _ & Hcase).
  fold g' g1 size in Hcase.
  split_and!; try assumption.
  destruct Hcase as [(Ei & Ep & Hrej)|(Hr & Hcan & Ep & Ei)].
  - destruct (redPress t); [rewrite (Hrej eq_refl)|]; simpl; split; assumption.
  - rewrite Hr, Hcan. simpl. split_and!.
    + rewrite Ei. apply u8_small. unfold NUM_SHIPS in Hid. lia.
    + exact Ep.
    + rewrite Ep. apply count_placeShip; try assumption.
      * apply Hwf.
      * apply (wfGame_updateCursorPosition t g Hwf).
      * apply shipSize_range.
Qed.

Lemma X5_witness :
  shipId (playerPlaceShips press freshGame) = 1 /\
  countRemainingShips (playerGrid (playerPlaceShips press freshGame)) = 5.
Proof.
  assert (Hwf : wfGame freshGame).
  { apply (wfGame_resetGame powerOn fleetDraws freshGame []);
      [apply wfGame_powerOn|vm_compute; reflexivity]. }
  assert (Hid : 0 <= shipId freshGame < NUM_SHIPS) by (vm_compute; split; congruence).
  pose proof (X5_placement_pass_places_one_accepted_ship_or_nothing
                press freshGame Hwf Hid) as (_ & _ & _ & _ & Hcase).
  change (redPress press &&
          canPlaceShip (playerGrid freshGame)
            (cursorX (updateCursorPosition press freshGame))
            (cursorY (updateCursorPosition press freshGame))
            (shipSize (shipId freshGame)) (playerShipHorizontal freshGame))
    with true in Hcase.
  destruct Hcase as (Ei & _ & Ec). split.
  - rewrite Ei. reflexivity.
  - rewrite Ec. reflexivity.
Defined.

(** X6: in every state reached from power-on, each attack grid mirrors
    the grid it attacks: a cell reads HIT (or MISS) on the player's attack
    grid exactly when it does on the opponent's grid, and EMPTY exactly
    when the opponent's grid holds EMPTY or an unhit SHIP there; the same
    holds for the opponent's attack grid and the player's grid. *)
Theorem X6_attack_grids_mirror_the_defenders
  (ticks : list Tick) (draws : list Z) (g : Game) (rest : list Z) :
  runLoop ticks powerOn draws = Some (g, rest) ->
  mirrors (playerAttackGrid g) (arduinoGrid g) /\
  mirrors (arduinoAttackGrid g) (playerGrid g).
Proof.
  intros Hrun. destruct (accounts_reachable _ _ _ _ Hrun) as (M1 & M2 & _).
  split; assumption.
Qed.

Lemma X6_witness :
  mirrors (playerAttackGrid battleState) (arduinoGrid battleState) /\
  mirrors (arduinoAttackGrid battleState) (playerGrid battleState).
Proof.
  apply (X6_attack_grids_mirror_the_defenders
           (placementTicks ++ battleTicks) scenarioDraws battleState []).
  vm_compute. reflexivity.
Defined.

(** X7: in every state reached from power-on in which the game has been
    started, the ship cells left on the opponent's grid and the hits on the
    player's attack grid add up to 17, and the ship cells left on the
    player's grid and the hits on the opponent's attack grid add up to the
    cells of the [shipId] ships placed so far; in PLAYER_TURN, ARDUINO_TURN
    and GAME_OVER all five ships are placed, so that sum is 17 as well. *)
Theorem X7_ship_cells_and_hits_add_up
  (ticks : list Tick) (draws : list Z) (g : Game) (rest : list Z) :
  runLoop ticks powerOn draws = Some (g, rest) ->
  gameState g <> WAITING_TO_START ->
  countRemainingShips (arduinoGrid g) + countIn CELL_HIT (playerAttackGrid g) = 17 /\
  countRemainingShips (playerGrid g) + countIn CELL_HIT (arduinoAttackGrid g)
  = rosterCells (shipId g) /\
  0 <= shipId g <= NUM_SHIPS /\
  (gameState g <> PLACING_SHIPS ->
   shipId g = NUM_SHIPS /\
   countRemainingShips (playerGrid g) + countIn CELL_HIT (arduinoAttackGrid g) = 17).
Proof.
  intros Hrun Hstarted.
  destruct (accounts_reachable _ _ _ _ Hrun) as (_ & _ & Hcnt & Hbattle & _).
  destruct (Hcnt Hstarted) as (Hid & C1 & C2).
  split_and!; try assumption; try lia.
  intros Hnp.
  assert (Ei : shipId g = NUM_SHIPS).
  { apply Hbattle. destruct (gameState g); try congruence; auto. }
  split; [exact Ei|]. rewrite C2, Ei. reflexivity.
Qed.

Lemma X7_witness :
  countRemainingShips (arduinoGrid battleState)
  + countIn CELL_HIT (playerAttackGrid battleState) = 17.
Proof.
  refine (proj1 (X7_ship_cells_and_hits_add_up
                   (placementTicks ++ battleTicks) scenarioDraws battleState [] _ _)).
  - vm_compute. reflexivity.
  - vm_compute. discriminate.
Defined.

(** X8: in every state reached from power-on, GAME_OVER means that one
    side is sunk: the opponent's grid holds no ship cell and the player's
    attack grid records 17 hits, or the player's grid holds no ship cell
    and the opponent's attack grid records 17 hits. *)
Theorem X8_game_over_means_a_fleet_is_sunk
  (ticks : list Tick) (draws : list Z) (g : Game) (rest : list Z) :
  runLoop ticks powerOn draws = Some (g, rest) ->
  gameState g = GAME_OVER ->
  (countRemainingShips (arduinoGrid g) = 0 /\
   countIn CELL_HIT (playerAttackGrid g) = 17) \/
  (countRemainingShips (playerGrid g) = 0 /\
   countIn CELL_HIT (arduinoAttackGrid g) = 17).
Proof.
  intros Hrun Hover.
  destruct (accounts_reachable _ _ _ _ Hrun) as (_ & _ & Hcnt & Hbattle & Hsunk & _).
  destruct Hcnt as (Hid & C1 & C2); [rewrite Hover; discriminate|].
  assert (Ei : shipId g = NUM_SHIPS) by (apply Hbattle; auto).
  rewrite Ei in C2. change (rosterCells NUM_SHIPS) with 17 in C1, C2.
  destruct (Hsunk Hover) as [E0|E0]; [left|right]; split; try exact E0; lia.
Qed.

Lemma X8_witness :
  gameState wonState = GAME_OVER /\
  countRemainingShips (arduinoGrid wonState) = 0 /\
  countIn CELL_HIT (playerAttackGrid wonState) = 17.
Proof.
  assert (Hrun : runLoop (placementTicks ++ winningTicks) powerOn
                   (fleetDraws ++ missDraws) = Some (wonState, []))
    by (vm_compute; reflexivity).
  assert (Hover : gameState wonState = GAME_OVER) by reflexivity.
  split; [exact Hover|].
  destruct (X8_game_over_means_a_fleet_is_sunk _ _ _ _ Hrun Hover) as [H|[H _]].
  - exact H.
  - exfalso. revert H. vm_compute. discriminate.
Defined.

Lemma ship_cell_exists (grid : Grid) :
  0 < countRemainingShips grid ->
  exists c, c ∈ allCells /\ isShip grid c.
Proof.
  rewrite (proj1 (countRemainingShips_spec grid)).
  destruct (filter (isShip grid) allCells) as [|c l] eqn:E; [simpl; lia|].
  intros _. exists c.
  assert (Hc : c ∈ filter (isShip grid) allCells)
    by (rewrite E; apply elem_of_cons; left; reflexivity).
  apply list_elem_of_filter in Hc as [Hship Hin]. split; assumption.
Qed.

(** X9: in every state reached from power-on in which a turn is due
    (PLAYER_TURN or ARDUINO_TURN), both grids still hold a ship cell, and
    that cell is untried on the attack grid of the other side.  So a
    reachable opponent's turn always has an untried cell to find: with
    draws that reach one, the pass of [loop] that runs the opponent's
    attack returns. *)
Theorem X9_a_due_turn_has_an_untried_ship_cell
  (ticks : list Tick) (draws : list Z) (g : Game) (rest : list Z) :
  runLoop ticks powerOn draws = Some (g, rest) ->
  gameState g = PLAYER_TURN \/ gameState g = ARDUINO_TURN ->
  (exists c, c ∈ allCells /\ isShip (playerGrid g) c /\
             untried (arduinoAttackGrid g) c = true) /\
  (exists c, c ∈ allCells /\ isShip (arduinoGrid g) c /\
             untried (playerAttackGrid g) c = true) /\
  (gameState g = ARDUINO_TURN ->
   forall t draws', blue t = BlueNone ->
     drawsReachUntried (arduinoAttackGrid g) draws' ->
     exists g' rest', loop t g draws' = Some (g', rest')).
Proof.
  intros Hrun Hturn.
  pose proof (wfGame_reachable _ _ _ _ Hrun) as Hwf.
  destruct (accounts_reachable _ _ _ _ Hrun) as (M1 & M2 & _ & _ & _ & _ & Hafloat).
  destruct (Hafloat Hturn) as [Ha Hp].
  assert (Hfind : forall attack defender, mirrors attack defender ->
            0 < countRemainingShips defender ->
            exists c, c ∈ allCells /\ isShip defender c /\ untried attack c = true).
  { intros attack defender Hm Hpos.
    destruct (ship_cell_exists defender Hpos) as (c & Hin & Hship).
    exists c. split_and!; try assumption.
    unfold untried. apply allCells_spec in Hin.
    rewrite (Hm c.1 c.2 Hin). unfold isShip in Hship. rewrite Hship. reflexivity. }
  split_and!.
  - apply Hfind; assumption.
  - apply Hfind; assumption.
  - intros Hs t draws' Hblue Hfair.
    unfold loop. rewrite Hblue. cbv beta iota zeta. rewrite Hs.
    apply arduinoAttack_total; assumption.
Qed.

Lemma X9_witness :
  exists c, c ∈ allCells /\ isShip (playerGrid battleState) c /\
            untried (arduinoAttackGrid battleState) c = true.
Proof.
  refine (proj1 (X9_a_due_turn_has_an_untried_ship_cell
                   (placementTicks ++ battleTicks) scenarioDraws battleState [] _ _)).
  - vm_compute. reflexivity.
  - left. reflexivity.
Defined.

Lemma huntSample_full (ag : Grid) (draws : list Z) :
  (forall x y, inBounds x y -> getCellState ag x y <> CELL_EMPTY) ->
  huntSample ag draws = None.
Proof.
  intros Hfull. induction draws as [| |rx ry l IH] using list_pair_ind;
    try reflexivity.
  rewrite huntSample_cons.
  destruct (Z.eqb_spec
              (getCellState ag (u8 (random 0 GRID_SIZE rx)) (u8 (random 0 GRID_SIZE ry)))
              CELL_EMPTY) as [E|_]; [|exact IH].
  exfalso. revert E. apply Hfull. split; apply random_cell.
Qed.

Lemma scanTargets_full (ag : Grid) (slots : list (Z * Z)) (ti : Z) :
  (forall x y, inBounds x y -> getCellState ag x y <> CELL_EMPTY) ->
  Forall (fun c => inBounds c.1 c.2) slots ->
  (scanTargets ag slots ti).1 = None.
Proof.
  intros Hfull Hall. revert ti.
  induction Hall as [|[x y] l Hc Hl IH]; intros ti; [reflexivity|].
  simpl. destruct (Z.eqb_spec (getCellState ag x y) CELL_EMPTY) as [E|_].
  - exfalso. revert E. apply Hfull. exact Hc.
  - apply IH.
Qed.

(** X10: when no cell of the opponent's attack grid is untried, the
    opponent's attack does not return, whatever the supply of random
    draws: in HUNT mode the do-while loop rejects every cell it draws, and
    in TARGET mode no slot of the target list is untried, so the call falls
    back to that same loop.  (In the model: no result at any depth and for
    any list of draws.) *)
Theorem X10_attack_on_a_full_grid_never_returns
  (depth : nat) (g : Game) (draws : list Z) :
  wfGame g ->
  (forall x y, inBounds x y -> getCellState (arduinoAttackGrid g) x y <> CELL_EMPTY) ->
  huntSample (arduinoAttackGrid g) draws = None /\
  arduinoAttack depth g draws = None.
Proof.
  intros Hwf Hfull. split; [apply huntSample_full, Hfull|].
  revert g Hwf Hfull. induction depth as [|d IH]; intros g Hwf Hfull; [reflexivity|].
  rewrite arduinoAttack_S. destruct (arduinoAttackMode g).
  - rewrite huntSample_full by exact Hfull. reflexivity.
  - fold (prepared g). cbv zeta.
    destruct (prepared_fields g Hwf) as (_ & _ & _ & E4 & Hw1).
    destruct (remainingSlots_facts _ Hw1) as [Hslots Hlen].
    pose proof (scanTargets_index (arduinoAttackGrid (prepared g))
                  (remainingSlots (prepared g)) (targetIndex (prepared g))
                  ltac:(apply Hw1) Hlen) as Hidx.
    pose proof (scanTargets_full (arduinoAttackGrid (prepared g))
                  (remainingSlots (prepared g)) (targetIndex (prepared g))
                  ltac:(rewrite E4; exact Hfull) Hslots) as Hnone.
    destruct (scanTargets (arduinoAttackGrid (prepared g))
                (remainingSlots (prepared g)) (targetIndex (prepared g)))
      as [cand i'] eqn:Es.
    cbn [fst snd] in Hnone, Hidx. subst cand.
    apply IH.
    + apply wfGame_set_arduinoAttackMode, wfGame_set_targetIndex; assumption.
    + game_proj. rewrite E4. exact Hfull.
Qed.

Lemma X10_witness :
  arduinoAttack 2 fullAttackGame [3; 4; 5; 6; 7; 8] = None.
Proof.
  refine (proj2 (X10_attack_on_a_full_grid_never_returns 2 fullAttackGame
                   [3; 4; 5; 6; 7; 8] _ _)).
  - pose proof wfGame_powerOn as (H1 & H2 & H3 & _ & H5 & H6 & H7 & H8 & H9).
    unfold wfGame, fullAttackGame. game_proj.
    split_and!; try assumption; try apply H7.
    split; [reflexivity|apply Forall_replicate; lia].
  - intros x y Hb.
    assert (Hall : forallb (fun c => negb (getCellState (arduinoAttackGrid fullAttackGame)
                                             c.1 c.2 =? CELL_EMPTY))
                     allCells = true) by (vm_compute; reflexivity).
    rewrite forallb_forall in Hall.
    specialize (Hall (x, y) ltac:(apply list_elem_of_In, allCells_spec; exact Hb)).
    apply negb_true_iff, Z.eqb_neq in Hall. exact Hall.
Defined.

End FleetAccounts.

(** ** The cursor *)

Section Cursor.
Import TestCode.

(** X11: [updateCursorPosition] keeps a cursor that is on the grid on the
    grid and changes nothing but the cursor.  Before the move delay has
    passed it changes nothing at all; after it, each axis moves by one cell
    and stops at the border (no wrap-around): an X reading below 312
    lowers [cursorX] and one above 712 raises it; the Y axis is reversed, a
    reading above 712 lowers [cursorY] and one below 312 raises it. *)
Theorem X11_cursor_moves_one_cell_and_stops_at_the_border (t : Tick) (g : Game) :
  inBounds (cursorX g) (cursorY g) ->
  let g' := updateCursorPosition t g in
  inBounds (cursorX g') (cursorY g') /\
  g' = set_cursor (cursorX g') (cursorY g') g /\
  (moveReady t = false -> g' = g) /\
  (moveReady t = true ->
   cursorX g' =
     (if joyX t <? 312 then Z.max 0 (cursorX g - 1)
      else if 712 <? joyX t then Z.min (GRID_SIZE - 1) (cursorX g + 1)
      else cursorX g) /\
   cursorY g' =
     (if 712 <? joyY t then Z.max 0 (cursorY g - 1)
      else if joyY t <? 312 then Z.min (GRID_SIZE - 1) (cursorY g + 1)
      else cursorY g)).
Proof.
  intros Hb g'. subst g'. split_and!.
  - apply updateCursorPosition_inBounds, Hb.
  - apply updateCursorPosition_set_cursor.
  - intros Hm. unfold updateCursorPosition. rewrite Hm. reflexivity.
  - intros Hm. unfold updateCursorPosition. rewrite Hm.
    destruct Hb as [Hx Hy]. unfold GRID_SIZE in *.
    unfold JOYSTICK_CENTER, JOYSTICK_THRESHOLD. game_proj.
    change (512 - 200) with 312. change (512 + 200) with 712.
    split.
    + destruct (joyX t <? 312); [|destruct (712 <? joyX t); [|reflexivity]].
      * destruct (Z.ltb_spec 0 (cursorX g)); [rewrite u8_small by lia|]; lia.
      * destruct (Z.ltb_spec (cursorX g) (10 - 1)); [rewrite u8_small by lia|]; lia.
    + destruct (712 <? joyY t); [|destruct (joyY t <? 312); [|reflexivity]].
      * destruct (Z.ltb_spec 0 (cursorY g)); [rewrite u8_small by lia|]; lia.
      * destruct (Z.ltb_spec (cursorY g) (10 - 1)); [rewrite u8_small by lia|]; lia.
Qed.

Lemma X11_witness :
  cursorX (updateCursorPosition up powerOn) = 0 /\
  cursorY (updateCursorPosition up powerOn) = 0.
Proof.
  assert (Hb : inBounds (cursorX powerOn) (cursorY powerOn))
    by (unfold inBounds, GRID_SIZE; simpl; lia).
  destruct (X11_cursor_moves_one_cell_and_stops_at_the_border up powerOn Hb)
    as (_ & _ & _ & Hmove).
  destruct (Hmove eq_refl) as [Ex Ey]. split.
  - rewrite Ex. reflexivity.
  - rewrite Ey. reflexivity.
Defined.

End Cursor.

(** ** What the matrices show *)

Section Matrices.
Import TestCode.

Lemma getLEDIndex_inBounds (x y : Z) :
  inBounds x y -> getLEDIndex x y = y * GRID_SIZE + x.
Proof.
  intros [Hx Hy]. unfold getLEDIndex, i16, GRID_SIZE in *.
  destruct (Z.ltb_spec x 0); [lia|]. destruct (Z.leb_spec 10 x); [lia|].
  destruct (Z.ltb_spec y 0); [lia|]. destruct (Z.leb_spec 10 y); [lia|].
  simpl. rewrite Z.mod_small by lia. lia.
Qed.

(** One step of the two loops of [paintMatrix], on the cell [c]. *)
Lemma paintMatrix_cells (color : Z -> Z -> CRGB) :
  paintMatrix color =
  foldl (fun leds c =>
           if (0 <=? getLEDIndex c.1 c.2) && (getLEDIndex c.1 c.2 <? NUM_LEDS)
           then <[Z.to_nat (getLEDIndex c.1 c.2) := color c.1 c.2]> leds
           else leds)
        (replicate (Z.to_nat NUM_LEDS) Black)
        (y ← seqZ 0 GRID_SIZE; (fun x => (x, y)) <$> seqZ 0 GRID_SIZE).
Proof.
  unfold paintMatrix. rewrite foldl_bind.
  apply foldl_ext_all. intros leds y. rewrite foldl_fmap. reflexivity.
Qed.

Lemma paint_cells_lookup (color : Z -> Z -> CRGB) (l : list (Z * Z))
  (init : list CRGB) (c : Z * Z) :
  length init = Z.to_nat NUM_LEDS ->
  Forall (fun d => inBounds d.1 d.2) l -> c ∈ l ->
  let leds :=
    foldl (fun leds c =>
             if (0 <=? getLEDIndex c.1 c.2) && (getLEDIndex c.1 c.2 <? NUM_LEDS)
             then <[Z.to_nat (getLEDIndex c.1 c.2) := color c.1 c.2]> leds
             else leds) init l in
  length leds = Z.to_nat NUM_LEDS /\
  leds !! Z.to_nat (c.2 * GRID_SIZE + c.1) = Some (color c.1 c.2).
Proof.
  intros Hlen Hall. revert c.
  induction l as [|d l IH] using rev_ind; intros c Hin leds.
  - apply elem_of_nil in Hin. contradiction.
  - subst leds. rewrite foldl_app. simpl.
    apply Forall_app in Hall as [Hl Hd]. apply Forall_cons in Hd as [Hd _].
    rewrite (getLEDIndex_inBounds _ _ Hd).
    assert (Hrange : 0 <= d.2 * GRID_SIZE + d.1 < NUM_LEDS)
      by (destruct Hd; unfold NUM_LEDS, GRID_SIZE in *; lia).
    destruct (Z.leb_spec 0 (d.2 * GRID_SIZE + d.1)); [|lia].
    destruct (Z.ltb_spec (d.2 * GRID_SIZE + d.1) NUM_LEDS); [|lia].
    simpl.
    set (prev := foldl _ init l).
    assert (Hprev : length prev = Z.to_nat NUM_LEDS).
    { destruct l as [|e l'] using rev_ind; [exact Hlen|].
      apply (IH Hl e). apply elem_of_app. right. apply elem_of_cons. left.
      reflexivity. }
    split; [rewrite length_insert; exact Hprev|].
    destruct (decide (c = d)) as [->|Hne].
    + apply list_lookup_insert_eq. rewrite Hprev. lia.
    + apply elem_of_app in Hin as [Hin|Hin];
        [|apply list_elem_of_singleton in Hin; contradiction].
      rewrite list_lookup_insert_ne.
      * apply (IH Hl c Hin).
      * assert (Hc : inBounds c.1 c.2)
          by exact (proj1 (Forall_forall _ _) Hl c Hin).
        intros E. apply Hne. destruct c as [cx cy], d as [dx dy].
        destruct Hc as [Hcx Hcy], Hd as [Hdx Hdy]. simpl in *.
        unfold GRID_SIZE in *.
        assert (dx = cx /\ dy = cy) as [-> ->] by lia. reflexivity.
Qed.

Lemma paintMatrix_lookup (color : Z -> Z -> CRGB) (x y : Z) :
  inBounds x y ->
  length (paintMatrix color) = Z.to_nat NUM_LEDS /\
  paintMatrix color !! Z.to_nat (y * GRID_SIZE + x) = Some (color x y).
Proof.
  intros Hb. rewrite paintMatrix_cells.
  apply (paint_cells_lookup color _ _ (x, y)).
  - apply length_replicate.
  - apply Forall_forall. intros d Hd.
    apply list_elem_of_bind in Hd as (y' & Hd & Hy').
    apply list_elem_of_fmap in Hd as (x' & -> & Hx').
    apply elem_of_seqZ in Hx', Hy'. unfold inBounds, GRID_SIZE in *. simpl. lia.
  - apply list_elem_of_bind. exists y. split.
    + apply list_elem_of_fmap. exists x. split; [reflexivity|].
      apply elem_of_seqZ. destruct Hb. unfold GRID_SIZE in *. lia.
    + apply elem_of_seqZ. destruct Hb. unfold GRID_SIZE in *. lia.
Qed.

(** X12: [updateCPUMatrix] fills a frame of 100 LEDs in which the LED
    [y * 10 + x] shows the cell (x, y) of the player's attack grid: red for
    HIT, blue for MISS, black otherwise.  Nothing else enters the frame:
    the white of the cursor is always overwritten, and the opponent's grid
    is not read, so no ship is disclosed. *)
Theorem X12_cpu_matrix_shows_the_attack_grid_only (g : Game) (x y : Z) :
  inBounds x y ->
  getLEDIndex x y = y * GRID_SIZE + x /\
  length (updateCPUMatrix g) = 100%nat /\
  updateCPUMatrix g !! Z.to_nat (getLEDIndex x y)
  = Some (if getCellState (playerAttackGrid g) x y =? CELL_HIT then Red
          else if getCellState (playerAttackGrid g) x y =? CELL_MISS then Blue
          else Black).
Proof.
  intros Hb. rewrite getLEDIndex_inBounds by exact Hb.
  destruct (paintMatrix_lookup (cpuCellColor g) x y Hb) as [Hlen Hled].
  split_and!; [reflexivity|exact Hlen|].
  unfold updateCPUMatrix. rewrite Hled. reflexivity.
Qed.

Lemma X12_witness :
  updateCPUMatrix battleState !! Z.to_nat (getLEDIndex 0 2) = Some Red.
Proof.
  assert (Hb : inBounds 0 2) by (unfold inBounds, GRID_SIZE; lia).
  destruct (X12_cpu_matrix_shows_the_attack_grid_only battleState 0 2 Hb)
    as (_ & _ & Hled).
  rewrite Hled. reflexivity.
Defined.

Lemma isShipPreviewPosition_footprint (g : Game) (x y : Z) :
  inBounds (cursorX g) (cursorY g) ->
  isShipPreviewPosition g x y = true <->
  gameState g = PLACING_SHIPS /\
  fits (cursorX g) (cursorY g) (shipSize (shipId g)) (playerShipHorizontal g) /\
  (x, y) ∈ footprint (cursorX g) (cursorY g) (shipSize (shipId g))
                     (playerShipHorizontal g).
Proof.
  intros [Hx Hy]. unfold isShipPreviewPosition, placing, fits, footprint.
  unfold GRID_SIZE in *.
  destruct (gameState g); simpl negb; cbv iota;
    try (split; [discriminate|intros [E _]; discriminate]).
  set (size := shipSize (shipId g)).
  destruct (playerShipHorizontal g).
  - destruct (Z.ltb_spec 10 (cursorX g + size)) as [Hlt|Hge].
    + split; [discriminate|]. intros (_ & Hfit & _). lia.
    + rewrite existsb_exists. split.
      * intros (i & Hi & Heq). apply list_elem_of_In, elem_of_seqZ in Hi.
        apply andb_true_iff in Heq as [Ex Ey].
        apply Z.eqb_eq in Ex, Ey. rewrite u8_small in Ex by lia.
        split_and!; [reflexivity|exact Hge|].
        apply list_elem_of_fmap. exists i. split; [congruence|].
        apply elem_of_seqZ. lia.
      * intros (_ & _ & Hin). apply list_elem_of_fmap in Hin as (i & E & Hi).
        injection E as -> ->. pose proof Hi as Hi'. apply elem_of_seqZ in Hi'.
        exists i. split; [apply list_elem_of_In; exact Hi|].
        rewrite u8_small by lia. rewrite !Z.eqb_refl. reflexivity.
  - destruct (Z.ltb_spec 10 (cursorY g + size)) as [Hlt|Hge].
    + split; [discriminate|]. intros (_ & Hfit & _). lia.
    + rewrite existsb_exists. split.
      * intros (i & Hi & Heq). apply list_elem_of_In, elem_of_seqZ in Hi.
        apply andb_true_iff in Heq as [Ex Ey].
        apply Z.eqb_eq in Ex, Ey. rewrite u8_small in Ey by lia.
        split_and!; [reflexivity|exact Hge|].
        apply list_elem_of_fmap. exists i. split; [congruence|].
        apply elem_of_seqZ. lia.
      * intros (_ & _ & Hin). apply list_elem_of_fmap in Hin as (i & E & Hi).
        injection E as -> ->. pose proof Hi as Hi'. apply elem_of_seqZ in Hi'.
        exists i. split; [apply list_elem_of_In; exact Hi|].
        rewrite u8_small by lia. rewrite !Z.eqb_refl. reflexivity.
Qed.

(** X13: with the cursor on the grid and a roster ship left to place,
    [isShipPreviewPosition] is true of a cell exactly when the game is in
    PLACING_SHIPS, the current ship anchored at the cursor ends inside the
    grid, and the cell belongs to its footprint; [updatePlayerMatrix] shows
    exactly those cells yellow, and every other cell green, red or blue by
    its state, or else white under the cursor of the placement phase and
    black elsewhere. *)
Theorem X13_preview_is_the_footprint_at_the_cursor (g : Game) (x y : Z) :
  inBounds (cursorX g) (cursorY g) -> 0 <= shipId g < NUM_SHIPS -> inBounds x y ->
  let preview :=
    gameState g = PLACING_SHIPS /\
    fits (cursorX g) (cursorY g) (shipSize (shipId g)) (playerShipHorizontal g) /\
    (x, y) ∈ footprint (cursorX g) (cursorY g) (shipSize (shipId g))
                       (playerShipHorizontal g) in
  let led := updatePlayerMatrix g !! Z.to_nat (getLEDIndex x y) in
  (isShipPreviewPosition g x y = true <-> preview) /\
  (led = Some Yellow <-> preview) /\
  (~ preview ->
   led = Some (if getCellState (playerGrid g) x y =? CELL_SHIP then Green
               else if getCellState (playerGrid g) x y =? CELL_HIT then Red
               else if getCellState (playerGrid g) x y =? CELL_MISS then Blue
               else if placing g && (x =? cursorX g) && (y =? cursorY g) then White
               else Black)).
Proof.
  intros Hc Hid Hb preview led.
  pose proof (isShipPreviewPosition_footprint g x y Hc) as Hprev.
  fold preview in Hprev.
  assert (Hled : led = Some (playerCellColor g x y)).
  { subst led. rewrite getLEDIndex_inBounds by exact Hb.
    apply (paintMatrix_lookup (playerCellColor g) x y Hb). }
  assert (Hplacing : isShipPreviewPosition g x y = true -> placing g = true).
  { intros H. apply Hprev in H as [Hs _]. unfold placing. rewrite Hs. reflexivity. }
  split; [exact Hprev|]. rewrite Hled. unfold playerCellColor. cbv zeta.
  destruct (isShipPreviewPosition g x y) eqn:Ep.
  - rewrite (Hplacing eq_refl). simpl andb at 1. cbv iota.
    split; [tauto|]. intros Hno. exfalso. apply Hno, Hprev. reflexivity.
  - rewrite andb_false_r.
    assert (Hno : ~ preview) by (intros H; apply Hprev in H; discriminate).
    split; [|intros _; reflexivity].
    split; [|tauto]. intros E. exfalso.
    destruct (getCellState (playerGrid g) x y =? CELL_SHIP); [discriminate|].
    destruct (getCellState (playerGrid g) x y =? CELL_HIT); [discriminate|].
    destruct (getCellState (playerGrid g) x y =? CELL_MISS); [discriminate|].
    destruct (placing g && (x =? cursorX g) && (y =? cursorY g)); discriminate.
Qed.

Lemma X13_witness :
  updatePlayerMatrix freshGame !! Z.to_nat (getLEDIndex 4 0) = Some Yellow /\
  updatePlayerMatrix freshGame !! Z.to_nat (getLEDIndex 5 0) = Some Black.
Proof.
  assert (Hc : inBounds (cursorX freshGame) (cursorY freshGame))
    by (unfold inBounds, GRID_SIZE; simpl; lia).
  assert (Hid : 0 <= shipId freshGame < NUM_SHIPS) by (vm_compute; split; congruence).
  split.
  - assert (Hb : inBounds 4 0) by (unfold inBounds, GRID_SIZE; lia).
    destruct (X13_preview_is_the_footprint_at_the_cursor freshGame 4 0 Hc Hid Hb)
      as (Hp & _ & _).
    destruct (X13_preview_is_the_footprint_at_the_cursor freshGame 4 0 Hc Hid Hb)
      as (_ & Hy & _).
    apply Hy, Hp. vm_compute. reflexivity.
  - assert (Hb : inBounds 5 0) by (unfold inBounds, GRID_SIZE; lia).
    destruct (X13_preview_is_the_footprint_at_the_cursor freshGame 5 0 Hc Hid Hb)
      as (Hp & _ & Hn).
    rewrite Hn; [reflexivity|].
    intros H. apply Hp in H. revert H. vm_compute. discriminate.
Defined.

End Matrices.

(** ** The first sketch of the packed file *)

Section CenteredSketch.
Import TestCode.

Lemma centered_addr (x y : Z) :
  inBounds x y ->
  u16 (u16 (y * GRID_SIZE + x) / 4) = cellByteIndex x y /\
  u8 (u16 (y * GRID_SIZE + x) mod 4 * 2) = cellBitOffset x y.
Proof.
  intros Hb. destruct (cell_addr x y Hb) as (-> & -> & _).
  destruct Hb as [Hx Hy]. unfold u8, u16, GRID_SIZE in *.
  Z.div_mod_to_equations. lia.
Qed.

Lemma centered_getCellState_eq (grid : Grid) (x y : Z) :
  inBounds x y -> Centered.getCellState grid x y = getCellState grid x y.
Proof.
  intros Hb. rewrite getCellState_eq. unfold Centered.getCellState.
  destruct (centered_addr x y Hb) as [-> ->]. reflexivity.
Qed.

Lemma centered_setCellState_eq (grid : Grid) (x y s : Z) :
  inBounds x y -> totalGridBytes <= Z.of_nat (length grid) ->
  Centered.setCellState grid x y s = setCellState grid x y s.
Proof.
  intros Hb Hlen. rewrite setCellState_eq. unfold Centered.setCellState.
  destruct (centered_addr x y Hb) as [-> ->].
  destruct (cell_addr x y Hb) as (_ & _ & Hi).
  rewrite rd_wr_same by lia.
  unfold wr. rewrite list_insert_insert_eq.
  rewrite putField_two_steps; [reflexivity|].
  pose proof (cellBitOffset_even x y). lia.
Qed.

(** The round trip of the packed accessors on any buffer that holds the
    25 bytes of the cells. *)
Lemma get_set_same_long (g : Grid) (x y s : Z) :
  totalGridBytes <= Z.of_nat (length g) -> inBounds x y -> 0 <= s < 4 ->
  getCellState (setCellState g x y s) x y = s.
Proof.
  intros Hlen Hb Hs.
  destruct (cell_addr x y Hb) as (_ & _ & Hi).
  rewrite getCellState_eq, setCellState_eq.
  unfold rd at 1. rewrite list_lookup_total_insert_eq by lia.
  apply getField_putField_same; [|exact Hs].
  pose proof (cellBitOffset_even x y). lia.
Qed.

Lemma get_set_other_long (g : Grid) (x y s x' y' : Z) :
  totalGridBytes <= Z.of_nat (length g) ->
  inBounds x y -> inBounds x' y' -> (x', y') <> (x, y) ->
  getCellState (setCellState g x y s) x' y' = getCellState g x' y'.
Proof.
  intros Hlen Hb Hb' Hne.
  rewrite !getCellState_eq, setCellState_eq.
  destruct (cell_addr x y Hb) as (_ & _ & Hi).
  destruct (cell_addr x' y' Hb') as (_ & _ & Hi').
  pose proof (cellBitOffset_even x y) as Ho.
  pose proof (cellBitOffset_even x' y') as Ho'.
  destruct (Z.eq_dec (cellByteIndex x' y') (cellByteIndex x y)) as [E|E].
  - rewrite E. unfold rd at 1. rewrite list_lookup_total_insert_eq by lia.
    fold (rd g (cellByteIndex x y)).
    apply getField_putField_other; try lia.
    destruct (cell_addr_distinct x y x' y' Hb Hb' Hne) as [H|H]; [congruence|lia].
  - unfold rd at 1. rewrite list_lookup_total_insert_ne by lia.
    reflexivity.
Qed.

(** X14: the accessors of the first sketch, which address a cell by
    [index / 4] and [(index % 4) * 2] in a buffer of 26 bytes, compute the
    same as the accessors of the last sketch on every cell of the grid, and
    on such a buffer they round-trip: a cell reads back the state written
    to it, every other cell reads as before, the buffer keeps its size and
    its last byte, which holds no cell, is never written. *)
Theorem X14_first_sketch_accessors_round_trip (grid : Grid) (x y s : Z) :
  Z.of_nat (length grid) = Centered.gridBytes -> inBounds x y -> 0 <= s < 4 ->
  let grid' := Centered.setCellState grid x y s in
  Centered.getCellState grid' x y = s /\
  (forall x' y', inBounds x' y' -> (x', y') <> (x, y) ->
     Centered.getCellState grid' x' y' = Centered.getCellState grid x' y') /\
  length grid' = length grid /\
  grid' !! 25%nat = grid !! 25%nat /\
  grid' = setCellState grid x y s /\
  Centered.getCellState grid x y = getCellState grid x y.
Proof.
  intros Hlen Hb Hs grid'.
  change Centered.gridBytes with 26 in Hlen.
  assert (Hlong : totalGridBytes <= Z.of_nat (length grid))
    by (change totalGridBytes with 25; lia).
  assert (Eset : grid' = setCellState grid x y s)
    by (apply centered_setCellState_eq; assumption).
  destruct (cell_addr x y Hb) as (_ & _ & Hi). change totalGridBytes with 25 in Hi.
  split_and!.
  - rewrite centered_getCellState_eq, Eset by exact Hb.
    apply get_set_same_long; assumption.
  - intros x' y' Hb' Hne. rewrite !centered_getCellState_eq, Eset by exact Hb'.
    apply get_set_other_long; assumption.
  - rewrite Eset, setCellState_eq. apply length_insert.
  - rewrite Eset, setCellState_eq. apply list_lookup_insert_ne. lia.
  - exact Eset.
  - apply centered_getCellState_eq, Hb.
Qed.

Lemma X14_witness :
  Centered.getCellState (Centered.setCellState (replicate 26 0) 9 9 CELL_MISS) 9 9
  = CELL_MISS.
Proof.
  refine (proj1 (X14_first_sketch_accessors_round_trip (replicate 26 0) 9 9 CELL_MISS
                   _ _ _)).
  - reflexivity.
  - unfold inBounds, GRID_SIZE. lia.
  - unfold CELL_MISS. lia.
Defined.

(** X15: the LED index of the first sketch, which centres the 10x10 grid
    on a 16x16 matrix wired as a serpentine, is never the invalid index -1
    for a cell of the grid: it lies in the matrix, in the matrix row
    [y + 3], at column [x + 3] counted from the left in even rows and from
    the right in odd rows; two different cells never share an LED. *)
Theorem X15_serpentine_index_is_injective_on_the_grid (x y x' y' : Z) :
  inBounds x y -> inBounds x' y' ->
  let led := Centered.getLEDIndex x y in
  0 <= led < Centered.NUM_LEDS /\
  led / 16 = y + 3 /\
  led mod 16 = (if Z.even (y + 3) then x + 3 else 15 - (x + 3)) /\
  (Centered.getLEDIndex x' y' = led -> (x', y') = (x, y)).
Proof.
  intros [Hx Hy] [Hx' Hy'] led. subst led.
  assert (Hform : forall a b, 0 <= a < 10 -> 0 <= b < 10 ->
            Centered.getLEDIndex a b =
            if Z.even (b + 3) then (b + 3) * 16 + (a + 3)
            else (b + 3) * 16 + (15 - (a + 3))).
  { intros a b Ha Hb. unfold Centered.getLEDIndex, Centered.GRID_OFFSET_X,
      Centered.GRID_OFFSET_Y, Centered.NUM_LEDS, i16.
    rewrite !(Z.mod_small (_ + 3 + 32768)) by lia.
    replace (a + 3 + 32768 - 32768) with (a + 3) by lia.
    replace (b + 3 + 32768 - 32768) with (b + 3) by lia.
    rewrite Z.rem_mod_nonneg by lia.
    rewrite (Zmod_even (b + 3)).
    destruct (Z.even (b + 3)); simpl Z.eqb; cbv iota;
      rewrite Z.mod_small by lia;
      match goal with
      | |- context [?v <? 0] => destruct (Z.ltb_spec v 0); [lia|]
      end;
      match goal with
      | |- context [256 <=? ?v] => destruct (Z.leb_spec 256 v); [lia|]
      end; simpl; lia. }
  unfold GRID_SIZE in *. rewrite (Hform x y) by lia. rewrite (Hform x' y') by lia.
  unfold Centered.NUM_LEDS.
  destruct (Z.even (y + 3)) eqn:Ey.
  - split_and!; try lia.
    + symmetry. apply (Z.div_unique _ 16 _ (x + 3)); lia.
    + symmetry. apply (Z.mod_unique _ 16 (y + 3) _); lia.
    + destruct (Z.even (y' + 3)) eqn:Ey'; intros E.
      * assert (x' = x /\ y' = y) as [-> ->] by lia. reflexivity.
      * assert (y' = y) by lia. subst y'. congruence.
  - split_and!; try lia.
    + symmetry. apply (Z.div_unique _ 16 _ (15 - (x + 3))); lia.
    + symmetry. apply (Z.mod_unique _ 16 (y + 3) _); lia.
    + destruct (Z.even (y' + 3)) eqn:Ey'; intros E.
      * assert (y' = y) by lia. subst y'. congruence.
      * assert (x' = x /\ y' = y) as [-> ->] by lia. reflexivity.
Qed.

Lemma X15_witness :
  Centered.getLEDIndex 0 0 / 16 = 3 /\ Centered.getLEDIndex 0 0 mod 16 = 12 /\
  (Centered.getLEDIndex 0 1 = Centered.getLEDIndex 0 0 -> (0, 1) = (0, 0)).
Proof.
  assert (H0 : inBounds 0 0) by (unfold inBounds, GRID_SIZE; lia).
  assert (H1 : inBounds 0 1) by (unfold inBounds, GRID_SIZE; lia).
  destruct (X15_serpentine_index_is_injective_on_the_grid 0 0 0 1 H0 H1)
    as (_ & Hrow & Hcol & Hinj).
  split_and!; [exact Hrow|exact Hcol|exact Hinj].
Defined.

End CenteredSketch.

(** ** The sketch that counts ships by identifier *)

Section ShipIdentifiers.
Import SerialMonitor.

Lemma serial_allCells_spec (c : Z * Z) : c ∈ allCells <-> inBounds c.1 c.2.
Proof.
  unfold allCells, inBounds, GRID_SIZE. split.
  - intros Hc. apply list_elem_of_bind in Hc as (x & Hc & Hx).
    apply list_elem_of_fmap in Hc as (y & -> & Hy).
    apply elem_of_seqZ in Hx, Hy. simpl. lia.
  - intros [Hx Hy]. apply list_elem_of_bind. exists c.1. split.
    + apply list_elem_of_fmap. exists c.2. split; [destruct c; reflexivity|].
      apply elem_of_seqZ. lia.
    + apply elem_of_seqZ. lia.
Qed.

Lemma wfGrid_column (grid : Grid) (x : Z) :
  wfGrid grid -> 0 <= x < GRID_SIZE ->
  length (grid !!! Z.to_nat x) = Z.to_nat GRID_SIZE.
Proof.
  intros [Hlen Hall] Hx.
  destruct (grid !! Z.to_nat x) as [col|] eqn:E.
  - rewrite (list_lookup_total_correct _ _ _ E).
    exact (proj1 (Forall_lookup _ grid) Hall _ _ E).
  - apply lookup_ge_None in E. unfold GRID_SIZE in *. lia.
Qed.

Lemma cell_setCell_same (grid : Grid) (x y v : Z) :
  wfGrid grid -> inBounds x y -> cell (setCell grid x y v) x y = v.
Proof.
  intros Hwf [Hx Hy]. pose proof (wfGrid_column grid x Hwf Hx) as Hcol.
  destruct Hwf as [Hlen _]. unfold cell, setCell, GRID_SIZE in *.
  rewrite list_lookup_total_insert_eq by lia.
  apply list_lookup_total_insert_eq. lia.
Qed.

Lemma cell_setCell_other (grid : Grid) (x y v x' y' : Z) :
  wfGrid grid -> inBounds x y -> inBounds x' y' -> (x', y') <> (x, y) ->
  cell (setCell grid x y v) x' y' = cell grid x' y'.
Proof.
  intros Hwf [Hx Hy] [Hx' Hy'] Hne.
  pose proof (wfGrid_column grid x Hwf Hx) as Hcol.
  destruct Hwf as [Hlen _]. unfold cell, setCell, GRID_SIZE in *.
  destruct (Z.eq_dec x' x) as [->|Hxx].
  - rewrite list_lookup_total_insert_eq by lia.
    apply list_lookup_total_insert_ne. intros E. apply Hne. f_equal. lia.
  - rewrite list_lookup_total_insert_ne by lia. reflexivity.
Qed.

Lemma wfGrid_setCell (grid : Grid) (x y v : Z) :
  wfGrid grid -> wfGrid (setCell grid x y v).
Proof.
  intros [Hlen Hall]. unfold setCell. split.
  - rewrite length_insert. exact Hlen.
  - destruct (grid !! Z.to_nat x) as [col|] eqn:E.
    + apply Forall_insert; [exact Hall|].
      rewrite (list_lookup_total_correct _ _ _ E), length_insert.
      exact (proj1 (Forall_lookup _ grid) Hall _ _ E).
    + rewrite list_insert_ge; [exact Hall|]. apply lookup_ge_None. exact E.
Qed.

Lemma serial_wfGrid_emptyGrid : wfGrid emptyGrid.
Proof.
  split; [reflexivity|]. unfold emptyGrid. apply Forall_replicate. reflexivity.
Qed.

Lemma shipsFound_cells (grid : Grid) :
  shipsFound grid =
  foldl (fun found c =>
           if 0 <? cell grid c.1 c.2
           then <[Z.to_nat (cell grid c.1 c.2 - 1) := 1]> found
           else found)
        (replicate (Z.to_nat NUM_SHIPS) 0) allCells.
Proof.
  unfold shipsFound, allCells. rewrite foldl_bind.
  apply foldl_ext_all. intros found x. rewrite foldl_fmap. reflexivity.
Qed.

Lemma found_spec (grid : Grid) (l : list (Z * Z)) (init : list Z) (i : nat) :
  let found :=
    foldl (fun found c =>
             if 0 <? cell grid c.1 c.2
             then <[Z.to_nat (cell grid c.1 c.2 - 1) := 1]> found
             else found) init l in
  length found = length init /\
  ((i < length init)%nat ->
   found !!! i = 1 <->
   init !!! i = 1 \/ exists c, c ∈ l /\ cell grid c.1 c.2 = Z.of_nat i + 1).
Proof.
  induction l as [|d l IH] using rev_ind; intros found.
  - split; [reflexivity|]. intros _. subst found. simpl. split; [auto|].
    intros [H|(c & Hc & _)]; [exact H|]. apply elem_of_nil in Hc. contradiction.
  - subst found. rewrite foldl_app. simpl.
    set (prev := foldl _ init l) in *. cbv zeta in IH. destruct IH as [Hlen IH].
    assert (Hmore : forall P : Prop,
              (init !!! i = 1 \/ (exists c, c ∈ l /\ cell grid c.1 c.2 = Z.of_nat i + 1))
              \/ P ->
              init !!! i = 1 \/
              (exists c, c ∈ l ++ [d] /\ cell grid c.1 c.2 = Z.of_nat i + 1) \/ P).
    { intros P [[H|(c & Hc & E)]|H]; auto.
      right. left. exists c. split; [|exact E]. apply elem_of_app. left. exact Hc. }
    destruct (Z.ltb_spec 0 (cell grid d.1 d.2)) as [Hpos|Hnon].
    + split; [rewrite length_insert; exact Hlen|]. intros Hi.
      destruct (decide (Z.to_nat (cell grid d.1 d.2 - 1) = i)) as [E|E].
      * subst i. rewrite list_lookup_total_insert_eq by (rewrite Hlen; exact Hi).
        split; [|reflexivity]. intros _. right. exists d. split.
        -- apply elem_of_app. right. apply elem_of_cons. left. reflexivity.
        -- lia.
      * rewrite list_lookup_total_insert_ne by exact E.
        rewrite (IH Hi). split.
        -- intros H. destruct (Hmore False (or_introl H)) as [H'|[H'|[]]]; auto.
        -- intros [H|(c & Hc & Ec)]; [auto|].
           apply elem_of_app in Hc as [Hc|Hc]; [right; eauto|].
           apply list_elem_of_singleton in Hc. subst c. exfalso. apply E. lia.
    + split; [exact Hlen|]. intros Hi. rewrite (IH Hi). split.
      * intros H. destruct (Hmore False (or_introl H)) as [H'|[H'|[]]]; auto.
      * intros [H|(c & Hc & Ec)]; [auto|].
        apply elem_of_app in Hc as [Hc|Hc]; [right; eauto|].
        apply list_elem_of_singleton in Hc. subst c. lia.
Qed.

Lemma held_spec (grid : Grid) (k : Z) :
  held grid k = true <-> exists c, c ∈ allCells /\ cell grid c.1 c.2 = k.
Proof.
  unfold held. rewrite existsb_exists. split.
  - intros (c & Hc & E). exists c. split; [apply list_elem_of_In; exact Hc|].
    apply Z.eqb_eq. exact E.
  - intros (c & Hc & E). exists c. split; [apply list_elem_of_In; exact Hc|].
    apply Z.eqb_eq. exact E.
Qed.

Lemma shipsFound_held (grid : Grid) (i : Z) :
  0 <= i < NUM_SHIPS ->
  shipsFound grid !!! Z.to_nat i = 1 <-> held grid (i + 1) = true.
Proof.
  intros Hi. rewrite shipsFound_cells, held_spec.
  destruct (found_spec grid allCells (replicate (Z.to_nat NUM_SHIPS) 0) (Z.to_nat i))
    as [_ Hspec].
  rewrite Hspec by (rewrite length_replicate; unfold NUM_SHIPS in *; lia).
  rewrite Z2Nat.id by lia.
  rewrite lookup_total_replicate_2 by (unfold NUM_SHIPS in *; lia).
  split; [intros [H|H]; [discriminate|exact H]|auto].
Qed.

Lemma count_if_foldl (P : Z -> bool) (l : list Z) (n : Z) :
  0 <= n -> n + Z.of_nat (length l) < 256 ->
  foldl (fun n i => if P i then u8 (n + 1) else n) n l
  = n + Z.of_nat (length (filter (fun i => P i = true) l)).
Proof.
  revert n. induction l as [|i l IH]; intros n Hn Hlen; simpl in *.
  - lia.
  - destruct (P i) eqn:E.
    + rewrite filter_cons_True by exact E.
      rewrite u8_small by lia. rewrite IH by lia. simpl length. lia.
    + rewrite filter_cons_False by (rewrite E; discriminate).
      apply IH; lia.
Qed.

Lemma serial_count_spec (grid : Grid) :
  countRemainingShips grid =
  Z.of_nat (length (filter (fun i => held grid (i + 1) = true) (seqZ 0 NUM_SHIPS))).
Proof.
  unfold countRemainingShips.
  rewrite (count_if_foldl (fun i => shipsFound grid !!! Z.to_nat i =? 1))
    by (rewrite ?length_seqZ; unfold NUM_SHIPS; lia).
  rewrite Z.add_0_l. f_equal. f_equal.
  apply filter_agree. intros i Hi. apply elem_of_seqZ in Hi.
  rewrite <- shipsFound_held by lia. apply Z.eqb_eq.
Qed.

(** X16: [countRemainingShips] of the sketch with ship identifiers counts
    ships, not cells: on a grid whose cells hold no identifier above
    NUM_SHIPS, it returns the number of identifiers 1 .. NUM_SHIPS that
    some cell of the grid still holds, and it returns zero exactly when no
    cell is above zero. *)
Theorem X16_identifier_count_is_the_number_of_ships_afloat (grid : Grid) :
  (forall c, c ∈ allCells -> cell grid c.1 c.2 <= NUM_SHIPS) ->
  countRemainingShips grid =
  Z.of_nat (length (filter (fun i => held grid (i + 1) = true) (seqZ 0 NUM_SHIPS))) /\
  (countRemainingShips grid = 0 <->
   forall c, c ∈ allCells -> cell grid c.1 c.2 <= 0).
Proof.
  intros Hids. split; [apply serial_count_spec|].
  rewrite serial_count_spec. split.
  - intros Hzero c Hc.
    destruct (Z.le_gt_cases (cell grid c.1 c.2) 0) as [Hle|Hpos]; [exact Hle|].
    exfalso.
    assert (Hnil : filter (fun i => held grid (i + 1) = true) (seqZ 0 NUM_SHIPS) = [])
      by (apply length_zero_iff_nil; lia).
    apply (filter_nil_not_elem_of _ _ (cell grid c.1 c.2 - 1) Hnil).
    + apply held_spec. exists c. split; [exact Hc|lia].
    + apply elem_of_seqZ. specialize (Hids c Hc). lia.
  - intros Hnone. rewrite filter_none; [reflexivity|].
    intros i Hi Hheld. apply elem_of_seqZ in Hi.
    apply held_spec in Hheld as (c & Hc & E). specialize (Hnone c Hc). lia.
Qed.

Lemma X16_witness :
  countRemainingShips (arduinoGrid freshGame) = 7.
Proof.
  assert (Hids : forall c, c ∈ allCells ->
                           cell (arduinoGrid freshGame) c.1 c.2 <= NUM_SHIPS).
  { intros c Hc.
    assert (Hall : forallb (fun c => cell (arduinoGrid freshGame) c.1 c.2 <=? NUM_SHIPS)
                           allCells = true) by (vm_compute; reflexivity).
    rewrite forallb_forall in Hall. apply Z.leb_le, Hall, list_elem_of_In, Hc. }
  rewrite (proj1 (X16_identifier_count_is_the_number_of_ships_afloat
                    (arduinoGrid freshGame) Hids)).
  vm_compute. reflexivity.
Defined.

Lemma heldElsewhere_spec (grid : Grid) (c : Z * Z) (k : Z) :
  heldElsewhere grid c k = true <->
  exists d, d ∈ allCells /\ d <> c /\ cell grid d.1 d.2 = k.
Proof.
  unfold heldElsewhere. rewrite existsb_exists. split.
  - intros (d & Hd & E). apply andb_true_iff in E as [Hne E].
    exists d. split_and!.
    + apply list_elem_of_In. exact Hd.
    + intros ->. rewrite bool_decide_eq_true_2 in Hne by reflexivity. discriminate.
    + apply Z.eqb_eq. exact E.
  - intros (d & Hd & Hne & E). exists d. split; [apply list_elem_of_In; exact Hd|].
    rewrite bool_decide_eq_false_2 by exact Hne. simpl. apply Z.eqb_eq. exact E.
Qed.

(** The identifiers held after one cell that held [k] is marked hit. *)
Lemma held_after_hit (grid : Grid) (c : Z * Z) (j : Z) :
  wfGrid grid -> c ∈ allCells -> 0 < j ->
  held (setCell grid c.1 c.2 SHIP_HIT) j = true <->
  exists d, d ∈ allCells /\ d <> c /\ cell grid d.1 d.2 = j.
Proof.
  intros Hwf Hc Hj. rewrite held_spec. apply serial_allCells_spec in Hc.
  split.
  - intros (d & Hd & E). exists d.
    destruct (decide (d = c)) as [->|Hne].
    + rewrite cell_setCell_same in E by assumption. unfold SHIP_HIT in E. lia.
    + split_and!; try assumption.
      rewrite cell_setCell_other in E; try assumption.
      * apply serial_allCells_spec, Hd.
      * intros E'. apply Hne. destruct d, c. exact E'.
  - intros (d & Hd & Hne & E). exists d. split; [exact Hd|].
    rewrite cell_setCell_other; try assumption.
    + apply serial_allCells_spec, Hd.
    + intros E'. apply Hne. destruct d, c. exact E'.
Qed.

Lemma count_after_hit (grid : Grid) (c : Z * Z) :
  wfGrid grid -> c ∈ allCells -> 0 < cell grid c.1 c.2 <= NUM_SHIPS ->
  countRemainingShips (setCell grid c.1 c.2 SHIP_HIT)
  = countRemainingShips grid
    - (if heldElsewhere grid c (cell grid c.1 c.2) then 0 else 1).
Proof.
  intros Hwf Hc Hk. rewrite !serial_count_spec.
  set (k := cell grid c.1 c.2) in *.
  assert (Hother : forall i, i ∈ seqZ 0 NUM_SHIPS -> i <> k - 1 ->
            held (setCell grid c.1 c.2 SHIP_HIT) (i + 1) = true <->
            held grid (i + 1) = true).
  { intros i Hi Hne. apply elem_of_seqZ in Hi.
    rewrite held_after_hit by (try assumption; lia). rewrite held_spec. split.
    - intros (d & Hd & _ & E). eauto.
    - intros (d & Hd & E). exists d. split_and!; try assumption.
      intros ->. fold k in E. lia. }
  destruct (heldElsewhere grid c k) eqn:Ee.
  - rewrite Z.sub_0_r. f_equal. f_equal. apply filter_agree.
    intros i Hi.
    destruct (Z.eq_dec i (k - 1)) as [->|Hne]; [|apply Hother; assumption].
    replace (k - 1 + 1) with k by lia.
    split; intros _.
    + apply held_spec. exists c. split; [exact Hc|reflexivity].
    + apply held_after_hit; [assumption|assumption|lia|].
      apply heldElsewhere_spec. exact Ee.
  - pose proof (filter_length_one_less
                  (fun i => held grid (i + 1) = true)
                  (fun i => held (setCell grid c.1 c.2 SHIP_HIT) (i + 1) = true)
                  (seqZ 0 NUM_SHIPS) (k - 1) (NoDup_seqZ _ _)) as Hlen.
    rewrite <- Hlen; [lia| | | |].
    + apply elem_of_seqZ. lia.
    + replace (k - 1 + 1) with k by lia.
      apply held_spec. exists c. split; [exact Hc|reflexivity].
    + replace (k - 1 + 1) with k by lia. intros H.
      apply held_after_hit in H; [|assumption|assumption|lia].
      apply heldElsewhere_spec in H. congruence.
    + intros i Hi Hne. apply Hother; assumption.
Qed.

(** X17: a player attack of the sketch with ship identifiers on an
    untried cell.  On a ship cell it records ATTACK_HIT, marks the
    opponent's cell SHIP_HIT, and lowers the ship count by one exactly when
    no other cell still holds that ship's identifier (the ship is sunk);
    otherwise the count stays.  On any other cell it records ATTACK_MISS
    and leaves the opponent's grid untouched.  The game is over when the
    count has reached zero, else the turn passes to the opponent. *)
Theorem X17_a_hit_lowers_the_count_when_it_sinks_the_ship (g : Game) :
  wfGrid (arduinoGrid g) -> wfGrid (playerAttackGrid g) ->
  inBounds (cursorX g) (cursorY g) ->
  (forall c, c ∈ allCells -> cell (arduinoGrid g) c.1 c.2 <= NUM_SHIPS) ->
  cell (playerAttackGrid g) (cursorX g) (cursorY g) = ATTACK_UNTRIED ->
  let g' := playerAttackPress g in
  let k := cell (arduinoGrid g) (cursorX g) (cursorY g) in
  (0 < k ->
   cell (playerAttackGrid g') (cursorX g) (cursorY g) = ATTACK_HIT /\
   cell (arduinoGrid g') (cursorX g) (cursorY g) = SHIP_HIT /\
   countRemainingShips (arduinoGrid g')
   = countRemainingShips (arduinoGrid g)
     - (if heldElsewhere (arduinoGrid g) (cursorX g, cursorY g) k then 0 else 1)) /\
  (k <= 0 ->
   cell (playerAttackGrid g') (cursorX g) (cursorY g) = ATTACK_MISS /\
   arduinoGrid g' = arduinoGrid g) /\
  gameState g' =
    (if countRemainingShips (arduinoGrid g') =? 0 then GAME_OVER else ARDUINO_TURN) /\
  playerGrid g' = playerGrid g /\ arduinoAttackGrid g' = arduinoAttackGrid g.
Proof.
  intros Hwa Hwp Hb Hids Hu g' k. subst g'. unfold playerAttackPress.
  rewrite Hu. change (ATTACK_UNTRIED =? ATTACK_UNTRIED) with true. cbv iota.
  fold k.
  assert (Hc : (cursorX g, cursorY g) ∈ allCells)
    by (apply serial_allCells_spec; exact Hb).
  destruct (Z.ltb_spec 0 k) as [Hpos|Hnon]; cbn [playerAttackGrid arduinoGrid
    gameState playerGrid arduinoAttackGrid]; split_and!; try reflexivity;
    try (intros; lia).
  - intros _. split_and!.
    + apply cell_setCell_same; assumption.
    + apply cell_setCell_same; assumption.
    + apply (count_after_hit (arduinoGrid g) (cursorX g, cursorY g)); try assumption.
      split; [exact Hpos|]. exact (Hids _ Hc).
  - intros _. split; [|reflexivity]. apply cell_setCell_same; assumption.
Qed.

Lemma X17_witness :
  countRemainingShips (arduinoGrid (playerAttackPress freshGame)) = 7 - 0 /\
  gameState (playerAttackPress freshGame) = ARDUINO_TURN.
Proof.
  assert (Hwa : wfGrid (arduinoGrid freshGame)).
  { split; [reflexivity|]. vm_compute. repeat constructor. }
  assert (Hwp : wfGrid (playerAttackGrid freshGame)) by apply serial_wfGrid_emptyGrid.
  assert (Hb : inBounds (cursorX freshGame) (cursorY freshGame))
    by (unfold inBounds, GRID_SIZE; simpl; lia).
  assert (Hids : forall c, c ∈ allCells ->
                           cell (arduinoGrid freshGame) c.1 c.2 <= NUM_SHIPS).
  { intros c Hc.
    assert (Hall : forallb (fun c => cell (arduinoGrid freshGame) c.1 c.2 <=? NUM_SHIPS)
                           allCells = true) by (vm_compute; reflexivity).
    rewrite forallb_forall in Hall. apply Z.leb_le, Hall, list_elem_of_In, Hc. }
  destruct (X17_a_hit_lowers_the_count_when_it_sinks_the_ship freshGame
              Hwa Hwp Hb Hids eq_refl) as (Hhit & _ & Hstate & _).
  destruct (Hhit ltac:(vm_compute; reflexivity)) as (_ & _ & Hcount).
  split.
  - rewrite Hcount. vm_compute. reflexivity.
  - rewrite Hstate, Hcount. vm_compute. reflexivity.
Defined.

Lemma serial_setCells (cells : list (Z * Z)) (grid : Grid) (v : Z) (c : Z * Z) :
  wfGrid grid -> Forall (fun d => inBounds d.1 d.2) cells -> inBounds c.1 c.2 ->
  wfGrid (foldl (fun g d => setCell g d.1 d.2 v) grid cells) /\
  cell (foldl (fun g d => setCell g d.1 d.2 v) grid cells) c.1 c.2
  = if decide (c ∈ cells) then v else cell grid c.1 c.2.
Proof.
  intros Hwf Hall Hc. revert grid Hwf.
  induction Hall as [|d rest Hd Hrest IH]; intros grid Hwf.
  - simpl. split; [exact Hwf|].
    destruct (decide (c ∈ [])) as [Hin|_]; [|reflexivity].
    apply elem_of_nil in Hin. contradiction.
  - simpl. destruct (IH _ (wfGrid_setCell grid d.1 d.2 v Hwf)) as [Hw ->].
    split; [exact Hw|].
    destruct (decide (c ∈ rest)) as [Hin|Hnin].
    + rewrite decide_True by (apply elem_of_cons; right; exact Hin). reflexivity.
    + destruct (decide (c = d)) as [->|Hne].
      * rewrite decide_True by (apply elem_of_cons; left; reflexivity).
        apply cell_setCell_same; assumption.
      * rewrite decide_False
          by (intros [E|E]%elem_of_cons; [exact (Hne E)|exact (Hnin E)]).
        apply cell_setCell_other; try assumption.
        intros E. apply Hne. destruct c, d. simpl in E. exact E.
Qed.

Lemma serial_placeShip_setCells (grid : Grid) (x y size : Z) (horizontal : bool)
  (id : Z) :
  placeShip grid x y size horizontal id
  = foldl (fun g d => setCell g d.1 d.2 (i8 id)) grid (footprint x y size horizontal).
Proof.
  unfold placeShip, footprint. rewrite foldl_fmap.
  destruct horizontal; reflexivity.
Qed.

Lemma serial_canPlaceShip_fits (grid : Grid) (x y size : Z) (horizontal : bool) :
  inBounds x y -> canPlaceShip grid x y size horizontal = true ->
  Forall (fun d => inBounds d.1 d.2) (footprint x y size horizontal) /\
  (forall d, d ∈ footprint x y size horizontal -> cell grid d.1 d.2 = EMPTY).
Proof.
  intros [Hx Hy] Hcan.
  assert (Hclear : forall c, c ∈ footprint x y size horizontal ->
                             inBounds c.1 c.2 -> cell grid c.1 c.2 = EMPTY).
  { intros c Hc Hb.
    apply (strict_accepts_clear grid x y size horizontal) with (c := c); try assumption.
    - unfold GRID_SIZE in *. lia.
    - unfold GRID_SIZE in *. lia.
    - unfold touches. lia. }
  assert (Hin : Forall (fun d => inBounds d.1 d.2) (footprint x y size horizontal)).
  { apply Forall_forall. intros d Hd. unfold footprint in Hd.
    apply list_elem_of_fmap in Hd as (i & -> & Hi). apply elem_of_seqZ in Hi.
    unfold canPlaceShip in Hcan. unfold inBounds, GRID_SIZE in *.
    destruct horizontal.
    - destruct (Z.ltb_spec 12 (x + size)); [discriminate|]. simpl. lia.
    - destruct (Z.ltb_spec 12 (y + size)); [discriminate|]. simpl. lia. }
  split; [exact Hin|]. intros d Hd. apply Hclear; [exact Hd|].
  exact (proj1 (Forall_forall _ _) Hin d Hd).
Qed.

Lemma touches_sym (c d : Z * Z) : touches c d -> touches d c.
Proof. unfold touches. lia. Qed.

(** An accepted placement under a new identifier keeps the ships apart. *)
Lemma separated_placeShip (grid : Grid) (x y size : Z) (horizontal : bool) (id : Z) :
  wfGrid grid -> inBounds x y ->
  canPlaceShip grid x y size horizontal = true ->
  separated grid ->
  separated (placeShip grid x y size horizontal id).
Proof.
  intros Hwf Hb Hcan Hsep c d Hc Hd Htouch.
  destruct (serial_canPlaceShip_fits grid x y size horizontal Hb Hcan) as [Hin _].
  rewrite serial_placeShip_setCells.
  rewrite (proj2 (serial_setCells _ grid (i8 id) c Hwf Hin Hc)).
  rewrite (proj2 (serial_setCells _ grid (i8 id) d Hwf Hin Hd)).
  assert (Hx : 0 <= x < 256) by (destruct Hb; unfold GRID_SIZE in *; lia).
  assert (Hy : 0 <= y < 256) by (destruct Hb; unfold GRID_SIZE in *; lia).
  pose proof (strict_accepts_clear grid x y size horizontal Hx Hy Hcan) as Hclear.
  destruct (decide (c ∈ footprint x y size horizontal)) as [Hcin|Hcout];
    destruct (decide (d ∈ footprint x y size horizontal)) as [Hdin|Hdout].
  - reflexivity.
  - intros _ Hdne. exfalso. apply Hdne. exact (Hclear c d Hcin Hd Htouch).
  - intros Hcne _. exfalso. apply Hcne.
    exact (Hclear d c Hdin Hc (touches_sym _ _ Htouch)).
  - apply Hsep; assumption.
Qed.

Lemma serial_placeOne_Some (grid : Grid) (size id : Z) (draws : list Z)
  (grid' : Grid) (rest : list Z) :
  placeOneArduinoShip grid size id draws = Some (grid', rest) ->
  exists x y horizontal,
    inBounds x y /\ canPlaceShip grid x y size horizontal = true /\
    grid' = placeShip grid x y size horizontal (u8 (id + 1)).
Proof.
  induction draws as [| | |rx ry rh l IH] using list_triple_ind; try discriminate.
  simpl.
  destruct (canPlaceShip grid (u8 (random 0 GRID_SIZE rx)) (u8 (random 0 GRID_SIZE ry))
              size (negb (random 0 2 rh =? 0))) eqn:Ec; [|exact IH].
  intros [= <- <-].
  exists (u8 (random 0 GRID_SIZE rx)), (u8 (random 0 GRID_SIZE ry)),
    (negb (random 0 2 rh =? 0)).
  split_and!; [|exact Ec|reflexivity].
  assert (Hr : forall raw, 0 <= u8 (random 0 GRID_SIZE raw) < GRID_SIZE).
  { intros raw. unfold random, GRID_SIZE.
    change (12 <=? 0) with false. cbv iota. rewrite Z.sub_0_r, Z.add_0_r.
    assert (H : 0 <= raw mod 12 < 12) by (apply Z.mod_pos_bound; lia).
    rewrite u8_small; lia. }
  split; apply Hr.
Qed.

Lemma serial_shipSize_pos (i : Z) : 0 <= i < NUM_SHIPS -> 1 <= shipSize i.
Proof.
  unfold NUM_SHIPS. intros Hi.
  assert (Hcases : i = 0 \/ i = 1 \/ i = 2 \/ i = 3 \/ i = 4 \/ i = 5 \/ i = 6) by lia.
  destruct Hcases as [->|[->|[->|[->|[->|[->| ->]]]]]]; vm_compute; discriminate.
Qed.

(** The grid after the ships with the identifiers 1 .. n have been
    placed. *)
Lemma fleet_step (n : Z) (grid : Grid) (draws : list Z) (grid' : Grid)
  (rest : list Z) :
  0 <= n < NUM_SHIPS ->
  wfGrid grid -> separated grid ->
  (forall c, c ∈ allCells -> 0 <= cell grid c.1 c.2 <= n) ->
  (forall k, 1 <= k <= n -> held grid k = true) ->
  placeOneArduinoShip grid (shipSize n) n draws = Some (grid', rest) ->
  wfGrid grid' /\ separated grid' /\
  (forall c, c ∈ allCells -> 0 <= cell grid' c.1 c.2 <= n + 1) /\
  (forall k, 1 <= k <= n + 1 -> held grid' k = true).
Proof.
  intros Hn Hwf Hsep Hcells Hheld Hone.
  apply serial_placeOne_Some in Hone as (x & y & h & Hb & Hcan & ->).
  destruct (serial_canPlaceShip_fits grid x y (shipSize n) h Hb Hcan) as [Hin Hempty].
  assert (Hid : i8 (u8 (n + 1)) = n + 1).
  { unfold NUM_SHIPS in Hn. rewrite u8_small by lia. apply i8_small. lia. }
  assert (Hcell : forall c, inBounds c.1 c.2 ->
            cell (placeShip grid x y (shipSize n) h (u8 (n + 1))) c.1 c.2
            = if decide (c ∈ footprint x y (shipSize n) h) then n + 1
              else cell grid c.1 c.2).
  { intros c Hc. rewrite serial_placeShip_setCells, Hid.
    apply (serial_setCells _ grid (n + 1) c Hwf Hin Hc). }
  split_and!.
  - rewrite serial_placeShip_setCells.
    apply (serial_setCells _ grid _ (0, 0) Hwf Hin).
    unfold inBounds, GRID_SIZE. simpl. lia.
  - apply separated_placeShip; assumption.
  - intros c Hc. rewrite Hcell by (apply serial_allCells_spec; exact Hc).
    destruct (decide (c ∈ footprint x y (shipSize n) h)); [lia|].
    specialize (Hcells c Hc). lia.
  - intros k Hk. apply held_spec.
    destruct (Z.eq_dec k (n + 1)) as [->|Hne].
    + exists (x, y). split; [apply serial_allCells_spec; exact Hb|].
      rewrite (Hcell (x, y) Hb). rewrite decide_True; [reflexivity|].
      unfold footprint. apply list_elem_of_fmap. exists 0. split.
      * destruct h; f_equal; lia.
      * apply elem_of_seqZ. pose proof (serial_shipSize_pos n Hn). lia.
    + destruct (proj1 (held_spec grid k) (Hheld k ltac:(lia))) as (c & Hc & E).
      exists c. split; [exact Hc|].
      rewrite Hcell by (apply serial_allCells_spec; exact Hc).
      rewrite decide_False; [exact E|].
      intros Hfoot. rewrite (Hempty c Hfoot) in E. unfold EMPTY in E. lia.
Qed.

Lemma fleet_steps (len : nat) (n : Z) (grid : Grid) (draws : list Z) (grid' : Grid)
  (rest : list Z) :
  0 <= n -> n + Z.of_nat len <= NUM_SHIPS ->
  wfGrid grid -> separated grid ->
  (forall c, c ∈ allCells -> 0 <= cell grid c.1 c.2 <= n) ->
  (forall k, 1 <= k <= n -> held grid k = true) ->
  placeArduinoShipsFrom (seqZ n (Z.of_nat len)) grid draws = Some (grid', rest) ->
  wfGrid grid' /\ separated grid' /\
  (forall c, c ∈ allCells -> 0 <= cell grid' c.1 c.2 <= n + Z.of_nat len) /\
  (forall k, 1 <= k <= n + Z.of_nat len -> held grid' k = true).
Proof.
  revert n grid draws.
  induction len as [|len IH]; intros n grid draws Hn Hlen Hwf Hsep Hcells Hheld Hrun.
  - simpl in Hrun. injection Hrun as <- <-. rewrite Z.add_0_r. auto.
  - rewrite Nat2Z.inj_succ, seqZ_cons in Hrun by lia.
    rewrite Z.pred_succ in Hrun. simpl in Hrun.
    destruct (placeOneArduinoShip grid (shipSize n) n draws) as [[g1 d1]|] eqn:E1;
      [|discriminate].
    destruct (fleet_step n grid draws g1 d1 ltac:(lia) Hwf Hsep Hcells Hheld E1)
      as (Hwf1 & Hsep1 & Hcells1 & Hheld1).
    replace (n + Z.of_nat (S len)) with (Z.succ n + Z.of_nat len) by lia.
    apply (IH (Z.succ n) g1 d1); try assumption; lia.
Qed.

Lemma separated_emptyGrid : separated emptyGrid.
Proof.
  intros c d Hc _ _ Hne _. exfalso. apply Hne.
  assert (Hall : forallb (fun c => cell emptyGrid c.1 c.2 =? EMPTY) allCells = true)
    by (vm_compute; reflexivity).
  rewrite forallb_forall in Hall. apply Z.eqb_eq, Hall, list_elem_of_In.
  apply serial_allCells_spec. exact Hc.
Qed.

(** X18: whenever [resetGame] of the sketch with the strict placement rule
    returns, the opponent's grid holds its seven ships apart from each
    other: two cells that touch, even by a corner, and are not EMPTY belong
    to the same ship.  Every cell holds EMPTY or one of the identifiers
    1 .. 7, each identifier is held by some cell, and [countRemainingShips]
    is 7. *)
Theorem X18_reset_fleet_ships_never_touch
  (g : Game) (draws : list Z) (g' : Game) (rest : list Z) :
  resetGame g draws = Some (g', rest) ->
  separated (arduinoGrid g') /\
  (forall c, c ∈ allCells -> 0 <= cell (arduinoGrid g') c.1 c.2 <= NUM_SHIPS) /\
  (forall k, 1 <= k <= NUM_SHIPS -> held (arduinoGrid g') k = true) /\
  countRemainingShips (arduinoGrid g') = NUM_SHIPS.
Proof.
  unfold resetGame.
  destruct (placeArduinoShipsFrom (seqZ 0 NUM_SHIPS) emptyGrid draws)
    as [[grid d]|] eqn:E; [|discriminate].
  intros [= <- <-]. cbn [arduinoGrid].
  assert (Hempty : forall c, c ∈ allCells -> 0 <= cell emptyGrid c.1 c.2 <= 0).
  { intros c Hc.
    assert (Hall : forallb (fun c => cell emptyGrid c.1 c.2 =? EMPTY) allCells = true)
      by (vm_compute; reflexivity).
    rewrite forallb_forall in Hall.
    specialize (Hall c ltac:(apply list_elem_of_In; exact Hc)).
    apply Z.eqb_eq in Hall. unfold EMPTY in Hall. lia. }
  destruct (fleet_steps 7 0 emptyGrid draws grid d ltac:(lia)
              ltac:(unfold NUM_SHIPS; lia) serial_wfGrid_emptyGrid
              separated_emptyGrid Hempty ltac:(intros k Hk; lia) E)
    as (_ & Hsep & Hcells & Hheld).
  change (0 + Z.of_nat 7) with NUM_SHIPS in Hcells, Hheld.
  split_and!; try assumption.
  rewrite serial_count_spec.
  rewrite (filter_all (fun i => held grid (i + 1) = true)).
  - reflexivity.
  - intros i Hi. apply elem_of_seqZ in Hi. apply Hheld. lia.
Qed.

Lemma X18_witness :
  separated (arduinoGrid freshGame) /\
  countRemainingShips (arduinoGrid freshGame) = NUM_SHIPS.
Proof.
  destruct (X18_reset_fleet_ships_never_touch
              (mkGame emptyGrid emptyGrid emptyGrid emptyGrid 0 0 WAITING_TO_START true
                 HUNT_MODE 0 0 0 [(0, 0); (0, 0); (0, 0); (0, 0)] false 0)
              fleetDraws freshGame [] ltac:(vm_compute; reflexivity))
    as (Hsep & _ & _ & Hcount).
  split; assumption.
Defined.

End ShipIdentifiers.

(** ** The sketch with two grids on one matrix *)

Section DualMatrixSketch.
Import DualMatrix.

Lemma dual_shipSize_range (i : Z) : 0 <= i < NUM_SHIPS -> 2 <= shipSize i <= 5.
Proof.
  unfold NUM_SHIPS. intros Hi.
  assert (Hcases : i = 0 \/ i = 1 \/ i = 2 \/ i = 3) by lia.
  destruct Hcases as [->|[->|[->| ->]]]; vm_compute; split; discriminate.
Qed.

(** X19: the first [isShipPreviewPosition] of the two-grid sketch does
    not depend on the cursor: for a cell of the grid and a roster ship it
    is true exactly when the game is in PLACING_SHIPS and the ship, were it
    anchored at that very cell, would end inside the grid.  So the preview
    marks every cell of the left (or upper) part of the grid, wherever the
    cursor is. *)
Theorem X19_first_preview_ignores_the_cursor (g : Game) (x y : Z) :
  0 <= x < GRID_SIZE -> 0 <= y < GRID_SIZE -> 0 <= shipId g < NUM_SHIPS ->
  (isShipPreviewPosition g x y = true <->
   gameState g = PLACING_SHIPS /\
   if playerShipHorizontal g then x + shipSize (shipId g) <= GRID_SIZE
   else y + shipSize (shipId g) <= GRID_SIZE) /\
  (forall cx cy,
     isShipPreviewPosition
       (mkGame cx cy (gameState g) (playerShipHorizontal g) (shipId g)) x y
     = isShipPreviewPosition g x y).
Proof.
  intros Hx Hy Hid. split; [|intros cx cy; reflexivity].
  pose proof (dual_shipSize_range (shipId g) Hid) as Hsize.
  unfold isShipPreviewPosition, placing, GRID_SIZE in *.
  destruct (gameState g); simpl negb; cbv iota;
    try (split; [discriminate|intros [E _]; discriminate]).
  set (size := shipSize (shipId g)) in *.
  assert (Hzero : 0 ∈ seqZ 0 size) by (apply elem_of_seqZ; lia).
  destruct (playerShipHorizontal g).
  - destruct (Z.ltb_spec 8 (x + size)) as [Hlt|Hge].
    + split; [discriminate|]. intros [_ Hfit]. lia.
    + split; [intros _; split; [reflexivity|exact Hge]|]. intros _.
      apply existsb_exists. exists 0. split; [apply list_elem_of_In; exact Hzero|].
      rewrite Z.add_0_r, u8_small by lia. rewrite !Z.eqb_refl. reflexivity.
  - destruct (Z.ltb_spec 8 (y + size)) as [Hlt|Hge].
    + split; [discriminate|]. intros [_ Hfit]. lia.
    + split; [intros _; split; [reflexivity|exact Hge]|]. intros _.
      apply existsb_exists. exists 0. split; [apply list_elem_of_In; exact Hzero|].
      rewrite Z.add_0_r, u8_small by lia. rewrite !Z.eqb_refl. reflexivity.
Qed.

Lemma X19_witness :
  isShipPreviewPosition (mkGame 7 7 PLACING_SHIPS true 0) 0 0 = true /\
  isShipPreviewPosition (mkGame 0 0 PLACING_SHIPS true 0) 4 0 = false.
Proof.
  split.
  - destruct (X19_first_preview_ignores_the_cursor
                (mkGame 7 7 PLACING_SHIPS true 0) 0 0) as [Hiff _];
      try (unfold GRID_SIZE, NUM_SHIPS; simpl; lia).
    apply Hiff. split; [reflexivity|]. vm_compute. discriminate.
  - destruct (X19_first_preview_ignores_the_cursor
                (mkGame 0 0 PLACING_SHIPS true 0) 4 0) as [Hiff _];
      try (unfold GRID_SIZE, NUM_SHIPS; simpl; lia).
    destruct (isShipPreviewPosition (mkGame 0 0 PLACING_SHIPS true 0) 4 0) eqn:E;
      [|reflexivity].
    destruct (proj1 Hiff eq_refl) as [_ Hfit]. exfalso. revert Hfit.
    vm_compute. intros H. apply H. reflexivity.
Defined.

(** X20: the second [isShipPreviewPosition] of the two-grid sketch is
    true of a cell exactly when the game is in PLACING_SHIPS, the ship
    anchored at that cell would end inside the grid, and the cursor lies on
    the footprint of the ship so anchored: the marked cells run from the
    cursor to the left (or upwards), at most [size] of them.  The cell
    after the cursor, to its right (or below it), is never marked. *)
Theorem X20_second_preview_runs_backwards_from_the_cursor (g : Game) (x y : Z) :
  0 <= x < GRID_SIZE -> 0 <= y < GRID_SIZE -> 0 <= shipId g < NUM_SHIPS ->
  0 <= cursorX g < GRID_SIZE -> 0 <= cursorY g < GRID_SIZE ->
  let size := shipSize (shipId g) in
  (isShipPreviewPosition_cursor g x y = true <->
   gameState g = PLACING_SHIPS /\
   if playerShipHorizontal g
   then y = cursorY g /\ cursorX g - size < x <= cursorX g /\ x + size <= GRID_SIZE
   else x = cursorX g /\ cursorY g - size < y <= cursorY g /\ y + size <= GRID_SIZE) /\
  (isShipPreviewPosition_cursor g x y = true ->
   (x, y) <> (if playerShipHorizontal g then (cursorX g + 1, cursorY g)
              else (cursorX g, cursorY g + 1))).
Proof.
  intros Hx Hy Hid Hcx Hcy size.
  pose proof (dual_shipSize_range (shipId g) Hid) as Hsize. fold size in Hsize.
  assert (Hiff : isShipPreviewPosition_cursor g x y = true <->
     gameState g = PLACING_SHIPS /\
     if playerShipHorizontal g
     then y = cursorY g /\ cursorX g - size < x <= cursorX g /\ x + size <= GRID_SIZE
     else x = cursorX g /\ cursorY g - size < y <= cursorY g /\ y + size <= GRID_SIZE).
  { unfold isShipPreviewPosition_cursor, placing, GRID_SIZE in *. fold size.
    destruct (gameState g); simpl negb; cbv iota;
      try (split; [discriminate|intros [E _]; discriminate]).
    destruct (playerShipHorizontal g).
    - destruct (Z.ltb_spec 8 (x + size)) as [Hlt|Hge].
      + split; [discriminate|]. intros [_ Hfit]. lia.
      + rewrite existsb_exists. split.
        * intros (i & Hi & E). apply list_elem_of_In, elem_of_seqZ in Hi.
          apply andb_true_iff in E as [Ex Ey]. apply Z.eqb_eq in Ex, Ey.
          rewrite u8_small in Ex by lia. split; [reflexivity|lia].
        * intros (_ & Ey & Hrange & _). exists (cursorX g - x). split.
          -- apply list_elem_of_In, elem_of_seqZ. lia.
          -- rewrite u8_small by lia. apply andb_true_iff.
             split; apply Z.eqb_eq; lia.
    - destruct (Z.ltb_spec 8 (y + size)) as [Hlt|Hge].
      + split; [discriminate|]. intros [_ Hfit]. lia.
      + rewrite existsb_exists. split.
        * intros (i & Hi & E). apply list_elem_of_In, elem_of_seqZ in Hi.
          apply andb_true_iff in E as [Ex Ey]. apply Z.eqb_eq in Ex, Ey.
          rewrite u8_small in Ey by lia. split; [reflexivity|lia].
        * intros (_ & Ex & Hrange & _). exists (cursorY g - y). split.
          -- apply list_elem_of_In, elem_of_seqZ. lia.
          -- rewrite u8_small by lia. apply andb_true_iff.
             split; apply Z.eqb_eq; lia. }
  split; [exact Hiff|]. intros Htrue. apply Hiff in Htrue as [_ Hcase].
  destruct (playerShipHorizontal g); intros E; injection E as -> ->; lia.
Qed.

Lemma X20_witness :
  isShipPreviewPosition_cursor (mkGame 3 0 PLACING_SHIPS true 3) 2 0 = true /\
  isShipPreviewPosition_cursor (mkGame 3 0 PLACING_SHIPS true 3) 4 0 = false.
Proof.
  split.
  - destruct (X20_second_preview_runs_backwards_from_the_cursor
                (mkGame 3 0 PLACING_SHIPS true 3) 2 0) as [Hiff _];
      try (unfold GRID_SIZE, NUM_SHIPS; simpl; lia).
    apply Hiff. split; [reflexivity|]. vm_compute. repeat split; discriminate.
  - destruct (X20_second_preview_runs_backwards_from_the_cursor
                (mkGame 3 0 PLACING_SHIPS true 3) 4 0) as [_ Hnot];
      try (unfold GRID_SIZE, NUM_SHIPS; simpl; lia).
    destruct (isShipPreviewPosition_cursor (mkGame 3 0 PLACING_SHIPS true 3) 4 0) eqn:E;
      [|reflexivity].
    exfalso. apply (Hnot eq_refl). reflexivity.
Defined.

(** X21: [getLEDIndex] of the two-grid sketch sends the cells of the
    placement grid to the left half of the 16x16 matrix and the cells of
    the attack grid to the right half, row by row: the index is never -1
    for a cell of a grid, two cells share an LED only when they are the same
    cell of the same grid, and the two grids share no LED. *)
Theorem X21_the_two_grids_share_no_led (x y x' y' : Z) (b b' : bool) :
  0 <= x < GRID_SIZE -> 0 <= y < GRID_SIZE ->
  0 <= x' < GRID_SIZE -> 0 <= y' < GRID_SIZE ->
  getLEDIndex x y b = y * 16 + x + (if b then 0 else 8) /\
  0 <= getLEDIndex x y b < 256 /\
  (getLEDIndex x y b = getLEDIndex x' y' b' -> x = x' /\ y = y' /\ b = b').
Proof.
  intros Hx Hy Hx' Hy'. unfold GRID_SIZE in *.
  assert (Hform : forall a c d, 0 <= a < 8 -> 0 <= c < 8 ->
            getLEDIndex a c d = c * 16 + a + (if d then 0 else 8)).
  { intros a c d Ha Hc. unfold getLEDIndex, i16.
    rewrite Z.add_0_r.
    rewrite !(Z.mod_small (_ + 32768)) by (destruct d; lia).
    replace (a + (if d then 0 else 8) + 32768 - 32768)
      with (a + (if d then 0 else 8)) by lia.
    replace (c + 32768 - 32768) with c by lia.
    destruct (Z.leb_spec 16 (a + (if d then 0 else 8))); [destruct d; lia|].
    destruct (Z.leb_spec 16 c); [lia|].
    destruct (Z.ltb_spec (a + (if d then 0 else 8)) 0); [destruct d; lia|].
    destruct (Z.ltb_spec c 0); [lia|].
    simpl. destruct d; lia. }
  rewrite (Hform x y b), (Hform x' y' b') by lia.
  split_and!; try (destruct b; lia).
  intros E. destruct b, b';
    solve [ assert (x = x' /\ y = y') as [-> ->] by lia; split_and!; reflexivity
          | exfalso; lia ].
Qed.

Lemma X21_witness :
  getLEDIndex 7 0 true = 7 /\ getLEDIndex 0 0 false = 8.
Proof.
  assert (H0 : 0 <= 0 < GRID_SIZE) by (unfold GRID_SIZE; lia).
  assert (H7 : 0 <= 7 < GRID_SIZE) by (unfold GRID_SIZE; lia).
  split.
  - exact (proj1 (X21_the_two_grids_share_no_led 7 0 0 0 true false H7 H0 H0 H0)).
  - exact (proj1 (X21_the_two_grids_share_no_led 0 0 7 0 false true H0 H0 H7 H0)).
Defined.

End DualMatrixSketch.

(** ** The opponent's memory of its last hit *)

Section OpponentMemory.
Import TestCode.

Lemma huntSample_drop (ag : Grid) (draws : list Z) (x y : Z) (rest : list Z) :
  huntSample ag draws = Some (x, y, rest) ->
  exists k, (0 < k)%nat /\ (2 * k <= length draws)%nat /\ rest = drop (2 * k) draws.
Proof.
  induction draws as [| |rx ry l IH] using list_pair_ind; try discriminate.
  rewrite huntSample_cons.
  destruct (getCellState ag (u8 (random 0 GRID_SIZE rx)) (u8 (random 0 GRID_SIZE ry))
            =? CELL_EMPTY).
  - intros [= _ _ <-]. exists 1%nat. simpl. split_and!; [lia|lia|reflexivity].
  - intros H. destruct (IH H) as (k & Hk & Hlen & ->).
    exists (S k). simpl length. split_and!; [lia|lia|].
    replace (2 * S k)%nat with (S (S (2 * k))) by lia. reflexivity.
Qed.

Lemma drop_shorter {A : Type} (l : list A) (n : nat) :
  (0 < n)%nat -> (n <= length l)%nat -> drop n l <> l.
Proof.
  intros Hn Hlen E. apply (f_equal length) in E. rewrite length_drop in E. lia.
Qed.

Lemma prepared_memory (h : Game) :
  lastHitX (prepared h) = lastHitX h /\ lastHitY (prepared h) = lastHitY h /\
  arduinoAttackMode (prepared h) = arduinoAttackMode h.
Proof.
  unfold prepared. destruct (targetListInitialized h); [auto|].
  unfold initTargetList.
  destruct (0 <? lastHitX h), (lastHitX h <? GRID_SIZE - 1),
    (0 <? lastHitY h), (lastHitY h <? GRID_SIZE - 1); auto.
Qed.

(** What a shot leaves in the opponent's memory. *)
Lemma shot_memory (x y : Z) (h : Game) :
  let g' := arduinoWinCheck (arduinoShoot x y h) in
  if getCellState (playerGrid h) x y =? CELL_SHIP
  then arduinoAttackMode g' = TARGET_MODE /\ lastHitX g' = x /\ lastHitY g' = y /\
       targetIndex g' = 0 /\ targetListInitialized g' = false
  else lastHitX g' = lastHitX h /\ lastHitY g' = lastHitY h /\
       arduinoAttackMode g' = arduinoAttackMode h.
Proof.
  intros g'. subst g'.
  destruct (arduinoWinCheck_fields (arduinoShoot x y h)) as [-> _].
  game_proj.
  destruct (arduinoShoot_fields x y h)
    as (_ & _ & _ & _ & _ & _ & _ & Hm & Hx & Hy & Hi & Hl).
  cbv zeta in Hm, Hx, Hy, Hi, Hl.
  destruct (getCellState (playerGrid h) x y =? CELL_SHIP); auto.
Qed.

(** X22: what a resolved attack leaves in the opponent's memory.  A hit
    switches to TARGET mode, records the cell as the last hit, resets the
    target index and marks the target list as not built, so that the next
    call builds it around the new hit.  A miss keeps the last hit; the mode
    it leaves is TARGET when the shot came from the target list and HUNT
    when it came from the hunt loop.  A shot from the target list takes no
    random draw and is one of the slots left in the list; a shot from the
    hunt loop takes an even, non-zero number of draws. *)
Theorem X22_hit_retargets_and_miss_keeps_the_last_hit
  (depth : nat) (g : Game) (draws : list Z) (g' : Game) (rest : list Z) :
  wfGame g -> arduinoAttack depth g draws = Some (g', rest) ->
  exists x y,
    resolvedAt g g' x y /\
    (if getCellState (playerGrid g) x y =? CELL_SHIP
     then arduinoAttackMode g' = TARGET_MODE /\ lastHitX g' = x /\ lastHitY g' = y /\
          targetIndex g' = 0 /\ targetListInitialized g' = false
     else lastHitX g' = lastHitX g /\ lastHitY g' = lastHitY g /\
          arduinoAttackMode g' =
            (if bool_decide (rest = draws) then TARGET_MODE else HUNT_MODE)) /\
    (rest = draws ->
     arduinoAttackMode g = TARGET_MODE /\ (x, y) ∈ remainingSlots (prepared g)) /\
    (rest <> draws ->
     exists k, (0 < k)%nat /\ (2 * k <= length draws)%nat /\ rest = drop (2 * k) draws).
Proof.
  revert g. induction depth as [|d IH]; intros g Hwf; [discriminate|].
  rewrite arduinoAttack_S.
  destruct (arduinoAttackMode g) eqn:Emode.
  - destruct (huntSample (arduinoAttackGrid g) draws) as [[[x y] draws']|] eqn:Eh;
      [|discriminate].
    intros [= <- <-].
    destruct (huntSample_drop _ _ _ _ _ Eh) as (k & Hk & Hlen & Hrest).
    assert (Hne : draws' <> draws) by (rewrite Hrest; apply drop_shorter; lia).
    apply huntSample_Some in Eh as [Hb He].
    exists x, y. split_and!.
    + apply resolvedAt_shoot; assumption.
    + pose proof (shot_memory x y g) as Hmem. cbv zeta in Hmem.
      destruct (getCellState (playerGrid g) x y =? CELL_SHIP); [exact Hmem|].
      destruct Hmem as (Hx & Hy & Hm). rewrite bool_decide_eq_false_2 by exact Hne.
      rewrite Hm, Emode. auto.
    + intros E. contradiction.
    + intros _. exists k. auto.
  - fold (prepared g). cbv zeta.
    destruct (prepared_fields g Hwf) as (E1 & E2 & E3 & E4 & Hw1).
    destruct (prepared_memory g) as (Ex & Ey & Em).
    destruct (remainingSlots_facts _ Hw1) as [Hslots Hlen].
    pose proof (scanTargets_index (arduinoAttackGrid (prepared g))
                  (remainingSlots (prepared g)) (targetIndex (prepared g))
                  ltac:(apply Hw1) Hlen) as Hidx.
    destruct (scanTargets (arduinoAttackGrid (prepared g))
                (remainingSlots (prepared g)) (targetIndex (prepared g)))
      as [[[x y]|] i'] eqn:Es; cbn [snd] in Hidx.
    + intros [= <- <-].
      apply scanTargets_Some in Es as [Hin He].
      assert (Hb : inBounds x y)
        by exact (proj1 (Forall_forall _ _) Hslots (x, y) Hin).
      exists x, y. split_and!.
      * apply (resolvedAt_same_grids g (set_targetIndex i' (prepared g)));
          try assumption.
        apply resolvedAt_shoot; [exact Hb|exact He].
      * pose proof (shot_memory x y (set_targetIndex i' (prepared g))) as Hmem.
        cbv zeta in Hmem. game_proj. rewrite E1 in Hmem.
        destruct (getCellState (playerGrid g) x y =? CELL_SHIP); [exact Hmem|].
        destruct Hmem as (Hx & Hy & Hm).
        rewrite bool_decide_eq_true_2 by reflexivity.
        rewrite Hx, Hy, Hm, Ex, Ey, Em, Emode. auto.
      * intros _. split; [reflexivity|exact Hin].
      * intros Hne. contradiction.
    + intros Hrec.
      assert (Hw2 : wfGame (set_arduinoAttackMode HUNT_MODE
                              (set_targetIndex i' (prepared g))))
        by (apply wfGame_set_arduinoAttackMode, wfGame_set_targetIndex; assumption).
      destruct (IH _ Hw2 Hrec) as (x & y & Hres & Hmem & Hsame & Hdiff).
      game_proj.
      assert (Hne : rest <> draws).
      { intros E. destruct (Hsame E) as [Habs _]. discriminate. }
      exists x, y. split_and!.
      * revert Hres. apply resolvedAt_same_grids; assumption.
      * rewrite E1 in Hmem.
        destruct (getCellState (playerGrid g) x y =? CELL_SHIP); [exact Hmem|].
        destruct Hmem as (Hx & Hy & Hm). rewrite Hx, Hy, Hm, Ex, Ey. auto.
      * intros E. contradiction.
      * intros _. exact (Hdiff Hne).
Qed.

Lemma X22_witness :
  arduinoAttackMode (arduinoWinCheck (arduinoShoot 1 3 (set_targetIndex 4 battleState)))
  = TARGET_MODE.
Proof.
  assert (Hwf : wfGame battleState).
  { apply (wfGame_reachable (placementTicks ++ battleTicks) scenarioDraws _ []).
    vm_compute. reflexivity. }
  assert (Hrun : arduinoAttack 2 battleState [5; 5]
                 = Some (arduinoWinCheck (arduinoShoot 1 3 (set_targetIndex 4 battleState)),
                         [5; 5])).
  { vm_compute. reflexivity. }
  destruct (X22_hit_retargets_and_miss_keeps_the_last_hit 2 battleState [5; 5] _ _
              Hwf Hrun) as (x & y & _ & Hmem & _).
  destruct (getCellState (playerGrid battleState) x y =? CELL_SHIP).
  - apply Hmem.
  - destruct Hmem as (_ & _ & ->). reflexivity.
Defined.

End OpponentMemory.

(** ** The phases of a game *)

Section Phases.
Import TestCode.

(** What the dispatch of [loop] does to the phase, by the phase it finds. *)
Lemma dispatch_phase (t : Tick) (h : Game) (d : list Z) (g' : Game) (rest : list Z) :
  wfGame h ->
  match gameState h with
  | WAITING_TO_START => Some (h, d)
  | PLACING_SHIPS => Some (playerPlaceShips t h, d)
  | PLAYER_TURN => Some (playerAttack t h, d)
  | ARDUINO_TURN => arduinoAttack 2 h d
  | GAME_OVER => Some (h, d)
  end = Some (g', rest) ->
  match gameState h with
  | WAITING_TO_START | GAME_OVER => g' = h /\ rest = d
  | PLACING_SHIPS =>
      rest = d /\
      gameState g' = (if NUM_SHIPS <=? shipId h then PLAYER_TURN else PLACING_SHIPS)
  | PLAYER_TURN =>
      rest = d /\
      (gameState g' = PLAYER_TURN \/ gameState g' = ARDUINO_TURN \/
       gameState g' = GAME_OVER) /\
      (redPress t = false -> gameState g' = PLAYER_TURN)
  | ARDUINO_TURN => gameState g' = PLAYER_TURN \/ gameState g' = GAME_OVER
  end.
Proof.
  intros Hwf. destruct (gameState h) eqn:Es.
  - intros [= <- <-]. auto.
  - intros [= <- <-]. split; [reflexivity|].
    destruct (Z.leb_spec NUM_SHIPS (shipId h)) as [Hge|Hlt].
    + rewrite playerPlaceShips_done by exact Hge. reflexivity.
    + destruct (playerPlaceShips_effect t h Hwf Hlt) as (_ & _ & _ & -> & _).
      exact Es.
  - intros [= <- <-]. split; [reflexivity|].
    destruct (playerAttack_fields t h Hwf) as [_ Hst]. rewrite Es in Hst.
    split; [tauto|]. intros Hr. unfold playerAttack. rewrite Hr.
    destruct (updateCursorPosition_grids t h) as (_ & _ & _ & _ & ->). exact Es.
  - intros Hrun.
    destruct (arduinoAttack_Some _ _ _ _ _ Hwf Hrun)
      as (x & y & (_ & _ & _ & _ & _ & _ & Est) & _).
    rewrite Est. destruct (countRemainingShips (playerGrid g') =? 0); auto.
  - intros [= <- <-]. auto.
Qed.

(** X23: the phases of a game advance in a fixed order.  A long press of
    the blue button, or a short one in WAITING_TO_START or GAME_OVER,
    resets the game and the pass ends in PLACING_SHIPS.  Otherwise: in
    WAITING_TO_START and in GAME_OVER the pass changes nothing at all; in
    PLACING_SHIPS the phase becomes PLAYER_TURN exactly when all the ships
    are placed; PLAYER_TURN is kept as long as the red button is not
    pressed, and a pass with a press ends in PLAYER_TURN, ARDUINO_TURN or
    GAME_OVER; ARDUINO_TURN leads to PLAYER_TURN or GAME_OVER.  No pass
    leads back to WAITING_TO_START. *)
Theorem X23_phases_advance_in_a_fixed_order
  (t : Tick) (g : Game) (draws : list Z) (g' : Game) (rest : list Z) :
  wfGame g -> loop t g draws = Some (g', rest) ->
  match blue t, gameState g with
  | BlueLongPress, _
  | BlueShortPress, WAITING_TO_START
  | BlueShortPress, GAME_OVER => gameState g' = PLACING_SHIPS
  | _, WAITING_TO_START | _, GAME_OVER => g' = g /\ rest = draws
  | _, PLACING_SHIPS =>
      rest = draws /\
      gameState g' = (if NUM_SHIPS <=? shipId g then PLAYER_TURN else PLACING_SHIPS)
  | _, PLAYER_TURN =>
      rest = draws /\
      (gameState g' = PLAYER_TURN \/ gameState g' = ARDUINO_TURN \/
       gameState g' = GAME_OVER) /\
      (redPress t = false -> gameState g' = PLAYER_TURN)
  | _, ARDUINO_TURN => gameState g' = PLAYER_TURN \/ gameState g' = GAME_OVER
  end /\
  (gameState g' = WAITING_TO_START -> gameState g = WAITING_TO_START).
Proof.
  intros Hwf Hrun.
  assert (Hreset :
            match resetGame g draws with
            | Some (g1, draws1) =>
                match gameState g1 with
                | WAITING_TO_START => Some (g1, draws1)
                | PLACING_SHIPS => Some (playerPlaceShips t g1, draws1)
                | PLAYER_TURN => Some (playerAttack t g1, draws1)
                | ARDUINO_TURN => arduinoAttack 2 g1 draws1
                | GAME_OVER => Some (g1, draws1)
                end
            | None => None
            end = Some (g', rest) -> gameState g' = PLACING_SHIPS).
  { destruct (resetGame g draws) as [[g1 draws1]|] eqn:Er; [|discriminate].
    intros Hd.
    pose proof (wfGame_resetGame _ _ _ _ Hwf Er) as Hwf1.
    destruct (resetGame_fields _ _ _ _ Er) as (Es & Ei & _).
    apply (dispatch_phase t g1 draws1 g' rest Hwf1) in Hd.
    rewrite Es, Ei in Hd. destruct Hd as [_ Hd]. exact Hd. }
  assert (Hstay : blue t = BlueNone \/
                  (blue t = BlueShortPress /\ gameState g <> WAITING_TO_START /\
                   gameState g <> GAME_OVER) ->
            match gameState g with
            | WAITING_TO_START => Some (g, draws)
            | PLACING_SHIPS => Some (playerPlaceShips t g, draws)
            | PLAYER_TURN => Some (playerAttack t g, draws)
            | ARDUINO_TURN => arduinoAttack 2 g draws
            | GAME_OVER => Some (g, draws)
            end = Some (g', rest)).
  { revert Hrun. unfold loop.
    intros Hrun [Hb|(Hb & Hw & Ho)]; rewrite Hb in Hrun; cbv beta iota zeta in Hrun.
    - exact Hrun.
    - revert Hrun. destruct (gameState g) eqn:Es; try congruence;
        cbv beta iota zeta; rewrite Es; exact id. }
  assert (Hdisp : blue t = BlueNone \/
                  (blue t = BlueShortPress /\ gameState g <> WAITING_TO_START /\
                   gameState g <> GAME_OVER) ->
            match gameState g with
            | WAITING_TO_START | GAME_OVER => g' = g /\ rest = draws
            | PLACING_SHIPS =>
                rest = draws /\
                gameState g' =
                  (if NUM_SHIPS <=? shipId g then PLAYER_TURN else PLACING_SHIPS)
            | PLAYER_TURN =>
                rest = draws /\
                (gameState g' = PLAYER_TURN \/ gameState g' = ARDUINO_TURN \/
                 gameState g' = GAME_OVER) /\
                (redPress t = false -> gameState g' = PLAYER_TURN)
            | ARDUINO_TURN => gameState g' = PLAYER_TURN \/ gameState g' = GAME_OVER
            end).
  { intros H. exact (dispatch_phase t g draws g' rest Hwf (Hstay H)). }
  assert (Hresets : blue t = BlueLongPress \/
                    (blue t = BlueShortPress /\
                     (gameState g = WAITING_TO_START \/ gameState g = GAME_OVER)) ->
                    gameState g' = PLACING_SHIPS).
  { intros H. apply Hreset. revert Hrun. unfold loop.
    destruct H as [Hb|(Hb & [Hs|Hs])]; rewrite Hb; try rewrite Hs;
      cbv beta iota zeta; exact id. }
  destruct (blue t) eqn:Eb.
  - specialize (Hdisp (or_introl eq_refl)).
    destruct (gameState g) eqn:Es; (split; [exact Hdisp|]);
      try (intros _; reflexivity);
      intros Hw; exfalso; revert Hw.
    + destruct Hdisp as [_ ->]. destruct (NUM_SHIPS <=? shipId g); discriminate.
    + destruct Hdisp as (_ & [->|[->| ->]] & _); discriminate.
    + destruct Hdisp as [->| ->]; discriminate.
    + destruct Hdisp as [-> _]. rewrite Es. discriminate.
  - destruct (gameState g) eqn:Es.
    + rewrite Hresets by (right; auto). split; [reflexivity|discriminate].
    + specialize (Hdisp ltac:(right; split_and!; [reflexivity|discriminate|discriminate])).
      split; [exact Hdisp|]. intros Hw; exfalso; revert Hw.
      destruct Hdisp as [_ ->]. destruct (NUM_SHIPS <=? shipId g); discriminate.
    + specialize (Hdisp ltac:(right; split_and!; [reflexivity|discriminate|discriminate])).
      split; [exact Hdisp|]. intros Hw; exfalso; revert Hw.
      destruct Hdisp as (_ & [->|[->| ->]] & _); discriminate.
    + specialize (Hdisp ltac:(right; split_and!; [reflexivity|discriminate|discriminate])).
      split; [exact Hdisp|]. intros Hw; exfalso; revert Hw.
      destruct Hdisp as [->| ->]; discriminate.
    + rewrite Hresets by (right; auto). split; [reflexivity|discriminate].
  - rewrite Hresets by (left; reflexivity).
    split; [destruct (gameState g); reflexivity|discriminate].
Qed.

Lemma X23_witness : gameState freshGame = PLACING_SHIPS.
Proof.
  assert (E : loop start powerOn fleetDraws = Some (freshGame, []))
    by (vm_compute; reflexivity).
  exact (proj1 (X23_phases_advance_in_a_fixed_order start powerOn fleetDraws
                  freshGame [] wfGame_powerOn E)).
Defined.

End Phases.

(** ** The sketch with the static placement counter *)

Section StaticCounter.
Import StaticShipId.

Lemma static_randomUntried_Some (ag : Grid) (draws : list Z) (x y : Z) (rest : list Z) :
  randomUntried ag draws = Some (x, y, rest) ->
  (0 <= x < GRID_SIZE /\ 0 <= y < GRID_SIZE) /\
  cell ag x y = ATTACK_UNTRIED /\
  exists k, (0 < k)%nat /\ (2 * k <= length draws)%nat /\ rest = drop (2 * k) draws.
Proof.
  assert (Hr : forall raw, 0 <= u8 (random 0 GRID_SIZE raw) < GRID_SIZE).
  { intros raw. unfold random, GRID_SIZE.
    change (12 <=? 0) with false. cbv iota. rewrite Z.sub_0_r, Z.add_0_r.
    assert (H : 0 <= raw mod 12 < 12) by (apply Z.mod_pos_bound; lia).
    rewrite u8_small; lia. }
  induction draws as [| |rx ry l IH] using list_pair_ind; try discriminate.
  cbn [randomUntried].
  destruct (Z.eqb_spec (cell ag (u8 (random 0 GRID_SIZE rx)) (u8 (random 0 GRID_SIZE ry)))
                       ATTACK_UNTRIED) as [E|_].
  - intros [= <- <- <-]. split_and!; try apply Hr; [exact E|].
    exists 1%nat. simpl. split_and!; [lia|lia|reflexivity].
  - intros H. destruct (IH H) as (Hb & Hu & k & Hk & Hlen & ->).
    split_and!; try apply Hb; [exact Hu|].
    exists (S k). simpl length. split_and!; [lia|lia|].
    replace (2 * S k)%nat with (S (S (2 * k))) by lia. reflexivity.
Qed.

Lemma positionsLeft_spec (ag : Grid) :
  existsb (fun i => existsb (fun j => cell ag i j =? ATTACK_UNTRIED) (seqZ 0 GRID_SIZE))
          (seqZ 0 GRID_SIZE) = true <->
  exists i j, 0 <= i < GRID_SIZE /\ 0 <= j < GRID_SIZE /\ cell ag i j = ATTACK_UNTRIED.
Proof.
  rewrite existsb_exists. split.
  - intros (i & Hi & Hrow). apply existsb_exists in Hrow as (j & Hj & E).
    apply list_elem_of_In, elem_of_seqZ in Hi, Hj. apply Z.eqb_eq in E.
    exists i, j. split_and!; first [lia|exact E].
  - intros (i & j & Hi & Hj & E). exists i. split.
    + apply list_elem_of_In, elem_of_seqZ. lia.
    + apply existsb_exists. exists j. split.
      * apply list_elem_of_In, elem_of_seqZ. lia.
      * apply Z.eqb_eq. exact E.
Qed.

(** X24: [arduinoAttack] of the sketch with the static counter looks for
    an untried position before it draws.  When there is none it returns at
    once with GAME_OVER, having changed no grid and taken no random draw.
    When there is one and the call returns, it has taken an even, non-zero
    number of draws and attacked one untried cell of the grid: the cell is
    marked ATTACK_HIT and the player's cell SHIP_HIT if it held a ship, and
    ATTACK_MISS with the player's grid untouched if not; the game is over
    when [checkWin] holds of the player's grid, else it is the player's
    turn. *)
Theorem X24_attack_checks_for_an_untried_position_first (g : Game) (draws : list Z) :
  ((forall i j, 0 <= i < GRID_SIZE -> 0 <= j < GRID_SIZE ->
                cell (arduinoAttackGrid g) i j <> ATTACK_UNTRIED) ->
   arduinoAttack g draws =
   Some (mkGame (playerGrid g) (arduinoGrid g) (playerAttackGrid g)
           (arduinoAttackGrid g) (cursorX g) (cursorY g) GAME_OVER
           (playerShipHorizontal g) (placedShips g), draws)) /\
  (forall g' rest,
     (exists i j, 0 <= i < GRID_SIZE /\ 0 <= j < GRID_SIZE /\
                  cell (arduinoAttackGrid g) i j = ATTACK_UNTRIED) ->
     arduinoAttack g draws = Some (g', rest) ->
     exists x y k,
       (0 <= x < GRID_SIZE /\ 0 <= y < GRID_SIZE) /\
       cell (arduinoAttackGrid g) x y = ATTACK_UNTRIED /\
       (0 < k)%nat /\ (2 * k <= length draws)%nat /\ rest = drop (2 * k) draws /\
       (if cell (playerGrid g) x y =? SHIP_PRESENT
        then arduinoAttackGrid g' = setCell (arduinoAttackGrid g) x y ATTACK_HIT /\
             playerGrid g' = setCell (playerGrid g) x y SHIP_HIT
        else arduinoAttackGrid g' = setCell (arduinoAttackGrid g) x y ATTACK_MISS /\
             playerGrid g' = playerGrid g) /\
       arduinoGrid g' = arduinoGrid g /\ playerAttackGrid g' = playerAttackGrid g /\
       placedShips g' = placedShips g /\
       gameState g' = (if checkWin (playerGrid g') then GAME_OVER else PLAYER_TURN)).
Proof.
  split.
  - intros Hnone. unfold arduinoAttack.
    destruct (existsb _ (seqZ 0 GRID_SIZE)) eqn:E; [|reflexivity].
    apply positionsLeft_spec in E as (i & j & Hi & Hj & E).
    exfalso. exact (Hnone i j Hi Hj E).
  - intros g' rest Hsome. unfold arduinoAttack.
    rewrite (proj2 (positionsLeft_spec (arduinoAttackGrid g)) Hsome).
    cbv beta iota zeta. simpl negb. cbv iota.
    destruct (randomUntried (arduinoAttackGrid g) draws) as [[[x y] draws']|] eqn:Er;
      [|discriminate].
    apply static_randomUntried_Some in Er as (Hb & Hu & k & Hk & Hlen & Hrest).
    destruct (cell (playerGrid g) x y =? SHIP_PRESENT) eqn:Ehit;
      intros [= <- <-]; exists x, y, k; rewrite Ehit;
      cbn [arduinoAttackGrid playerGrid arduinoGrid playerAttackGrid placedShips gameState];
      split_and!; try assumption; try reflexivity; apply Hb.
Qed.

Lemma X24_witness :
  exists g', arduinoAttack sFullAttackGame [1; 2] = Some (g', [1; 2]) /\
             gameState g' = GAME_OVER.
Proof.
  eexists. split.
  - apply (proj1 (X24_attack_checks_for_an_untried_position_first
                    sFullAttackGame [1; 2])).
    intros i j Hi Hj.
    assert (Hall : forallb (fun i =>
                     forallb (fun j => negb (cell (arduinoAttackGrid sFullAttackGame) i j
                                             =? ATTACK_UNTRIED))
                             (seqZ 0 GRID_SIZE))
                     (seqZ 0 GRID_SIZE) = true) by (vm_compute; reflexivity).
    rewrite forallb_forall in Hall.
    specialize (Hall i ltac:(apply list_elem_of_In, elem_of_seqZ; lia)).
    rewrite forallb_forall in Hall.
    specialize (Hall j ltac:(apply list_elem_of_In, elem_of_seqZ; lia)).
    apply negb_true_iff, Z.eqb_neq in Hall. exact Hall.
  - reflexivity.
Defined.

Lemma static_loop_counter (t : Tick) (g : Game) (draws : list Z) (g' : Game)
  (rest : list Z) :
  0 <= placedShips g <= NUM_SHIPS -> loop t g draws = Some (g', rest) ->
  placedShips g <= placedShips g' <= NUM_SHIPS /\
  placedShips g' <= placedShips g + 1.
Proof.
  intros Hp. unfold loop.
  assert (Hstep : forall h d, placedShips h = placedShips g ->
            match gameState h with
            | WAITING_TO_START => Some (h, d)
            | PLACING_SHIPS => Some (playerPlaceShips t h, d)
            | PLAYER_TURN => Some (playerAttack t h, d)
            | ARDUINO_TURN => arduinoAttack h d
            | GAME_OVER => Some (h, d)
            end = Some (g', rest) ->
            placedShips g <= placedShips g' <= NUM_SHIPS /\
            placedShips g' <= placedShips g + 1).
  { intros h d Eh. destruct (gameState h).
    - intros [= <- <-]. lia.
    - intros [= <- <-]. unfold playerPlaceShips.
      destruct (Z.leb_spec NUM_SHIPS (placedShips h)); [simpl; lia|].
      destruct (updateCursorPosition t h) as [cx cy].
      destruct (redPress t); [|simpl; lia].
      destruct (canPlaceShip _ _ _ _ _); [|simpl; lia].
      cbn [placedShips]. unfold NUM_SHIPS in *. rewrite u8_small by lia. lia.
    - intros [= <- <-]. unfold playerAttack.
      destruct (updateCursorPosition t h) as [cx cy].
      destruct (redPress t); [|simpl; lia].
      destruct (cell (playerAttackGrid h) cx cy =? ATTACK_UNTRIED); [|simpl; lia].
      destruct (cell (arduinoGrid h) cx cy =? SHIP_PRESENT); simpl; lia.
    - unfold arduinoAttack. destruct (negb _); [intros [= <- <-]; simpl; lia|].
      destruct (randomUntried _ _) as [[[x y] d']|]; [|discriminate].
      destruct (cell (playerGrid h) x y =? SHIP_PRESENT); intros [= <- <-]; simpl; lia.
    - intros [= <- <-]. lia. }
  assert (Hreset :
            match resetGame g draws with
            | Some (g1, draws1) =>
                match gameState g1 with
                | WAITING_TO_START => Some (g1, draws1)
                | PLACING_SHIPS => Some (playerPlaceShips t g1, draws1)
                | PLAYER_TURN => Some (playerAttack t g1, draws1)
                | ARDUINO_TURN => arduinoAttack g1 draws1
                | GAME_OVER => Some (g1, draws1)
                end
            | None => None
            end = Some (g', rest) ->
            placedShips g <= placedShips g' <= NUM_SHIPS /\
            placedShips g' <= placedShips g + 1).
  { destruct (resetGame g draws) as [[g1 d1]|] eqn:Er; [|discriminate].
    apply Hstep.
    destruct (static_resetGame_fields _ _ _ _ Er) as (_ & _ & _ & _ & _ & _ & E & _).
    exact E. }
  destruct (gameState g) eqn:Es; cbv beta iota zeta;
    try (destruct (blueEdge t); [exact Hreset|]);
    rewrite ?Es; intros Hrun; apply (Hstep g draws eq_refl); rewrite Es; exact Hrun.
Qed.

(** X25: the placement counter of this sketch, a function static, is
    never taken back: over any run of [loop] it does not decrease (a reset
    included), it grows by at most one per pass, and it stays within the
    roster.  So the ships placed on the player's grid over a whole power
    cycle are at most the NUM_SHIPS of one roster. *)
Theorem X25_placement_counter_never_decreases
  (ticks : list Tick) (g : Game) (draws : list Z) (g' : Game) (rest : list Z) :
  0 <= placedShips g <= NUM_SHIPS ->
  runLoop ticks g draws = Some (g', rest) ->
  placedShips g <= placedShips g' <= NUM_SHIPS /\
  placedShips g' <= placedShips g + Z.of_nat (length ticks).
Proof.
  revert g draws. induction ticks as [|t more IH]; intros g draws Hp Hrun.
  - simpl in Hrun. injection Hrun as <- <-. simpl. lia.
  - simpl in Hrun. destruct (loop t g draws) as [[g1 d1]|] eqn:El; [|discriminate].
    destruct (static_loop_counter _ _ _ _ _ Hp El) as [H1 H2].
    destruct (IH g1 d1 ltac:(lia) Hrun) as [H3 H4].
    simpl length. lia.
Qed.

Lemma X25_witness :
  placedShips powerOn <= placedShips sPlacedGame <= NUM_SHIPS /\
  placedShips sPlacedGame <= placedShips powerOn + Z.of_nat (length sPlacementTicks).
Proof.
  assert (Hrun : runLoop sPlacementTicks powerOn sFleetDraws = Some (sPlacedGame, []))
    by (vm_compute; reflexivity).
  assert (Hp : 0 <= placedShips powerOn <= NUM_SHIPS)
    by (unfold NUM_SHIPS; simpl; lia).
  exact (X25_placement_counter_never_decreases sPlacementTicks powerOn
           sFleetDraws _ _ Hp Hrun).
Defined.

End StaticCounter.

(** ** The strict validator, both ways *)

Section StrictValidator.
Import SerialMonitor.

Lemma surroundingsClear_complete (grid : Grid) (xi yi : Z) :
  0 <= xi < GRID_SIZE -> 0 <= yi < GRID_SIZE ->
  (forall d, inBounds d.1 d.2 -> touches (xi, yi) d -> cell grid d.1 d.2 = EMPTY) ->
  surroundingsClear grid xi yi = true.
Proof.
  intros Hx Hy Hclear. unfold surroundingsClear, GRID_SIZE in *.
  rewrite forallb_forall. intros dx Hdx. rewrite forallb_forall. intros dy Hdy.
  assert (Hdx' : -1 <= dx <= 1) by (simpl in Hdx; lia).
  assert (Hdy' : -1 <= dy <= 1) by (simpl in Hdy; lia).
  rewrite !i8_small by lia.
  destruct ((0 <=? xi + dx) && (xi + dx <? 12) && (0 <=? yi + dy) && (yi + dy <? 12))
    eqn:Ein; [|reflexivity].
  rewrite !andb_true_iff in Ein. destruct Ein as [[[H1 H2] H3] H4].
  apply Z.leb_le in H1, H3. apply Z.ltb_lt in H2, H4.
  assert (Hd : cell grid (xi + dx) (yi + dy) = EMPTY).
  { apply (Hclear (xi + dx, yi + dy)).
    - unfold inBounds, GRID_SIZE. simpl. lia.
    - unfold touches. simpl. lia. }
  rewrite Hd. reflexivity.
Qed.

(** X26: the strict validator accepts exactly the placements that fit and
    have clear water around them: for an anchor on the grid,
    [canPlaceShip] returns true if and only if the ship ends inside the
    grid along its axis and every cell of the grid that is a footprint cell
    or touches one, corners included, holds EMPTY. *)
Theorem X26_strict_validator_accepts_exactly_clear_water
  (grid : Grid) (x y size : Z) (horizontal : bool) :
  inBounds x y ->
  canPlaceShip grid x y size horizontal = true <->
  (if horizontal then x + size <= GRID_SIZE else y + size <= GRID_SIZE) /\
  (forall c d, c ∈ footprint x y size horizontal ->
               inBounds d.1 d.2 -> touches c d -> cell grid d.1 d.2 = EMPTY).
Proof.
  intros Hb. split.
  - intros Hcan. split.
    + unfold canPlaceShip in Hcan. destruct horizontal.
      * destruct (Z.ltb_spec GRID_SIZE (x + size)); [discriminate|lia].
      * destruct (Z.ltb_spec GRID_SIZE (y + size)); [discriminate|lia].
    + destruct Hb as [Hx Hy]. unfold GRID_SIZE in *.
      apply (strict_accepts_clear grid x y size horizontal); try assumption; lia.
  - intros [Hfit Hclear]. destruct Hb as [Hx Hy]. unfold canPlaceShip.
    assert (Hcell : forall c, c ∈ footprint x y size horizontal ->
              0 <= c.1 < GRID_SIZE -> 0 <= c.2 < GRID_SIZE ->
              (if negb (cell grid c.1 c.2 =? EMPTY) then false
               else surroundingsClear grid c.1 c.2) = true).
    { intros c Hc Hc1 Hc2.
      rewrite (Hclear c c Hc); [|split; assumption|unfold touches; lia].
      simpl. apply surroundingsClear_complete; try assumption.
      intros d Hd Ht. apply (Hclear c d Hc Hd). destruct c. exact Ht. }
    unfold GRID_SIZE in *. destruct horizontal.
    + destruct (Z.ltb_spec 12 (x + size)); [lia|].
      apply forallb_seqZ. intros i Hi. cbv zeta. rewrite u8_small by lia.
      apply (Hcell (x + i, y)); simpl; try lia.
      unfold footprint. apply list_elem_of_fmap. exists i.
      split; [reflexivity|apply elem_of_seqZ; lia].
    + destruct (Z.ltb_spec 12 (y + size)); [lia|].
      apply forallb_seqZ. intros i Hi. cbv zeta. rewrite u8_small by lia.
      apply (Hcell (x, y + i)); simpl; try lia.
      unfold footprint. apply list_elem_of_fmap. exists i.
      split; [reflexivity|apply elem_of_seqZ; lia].
Qed.

Lemma X26_witness :
  canPlaceShip (arduinoGrid freshGame) 6 2 3 true = true /\
  canPlaceShip (arduinoGrid freshGame) 5 1 3 true = false.
Proof.
  split.
  - reflexivity.
  - destruct (canPlaceShip (arduinoGrid freshGame) 5 1 3 true) eqn:E; [|reflexivity].
    assert (Hb : inBounds 5 1) by (unfold inBounds, GRID_SIZE; lia).
    destruct (proj1 (X26_strict_validator_accepts_exactly_clear_water
                       (arduinoGrid freshGame) 5 1 3 true Hb) E) as [_ Hclear].
    exfalso.
    assert (Hwater : cell (arduinoGrid freshGame) (4, 0).1 (4, 0).2 = EMPTY).
    { apply (Hclear (5, 1) (4, 0)).
      - unfold footprint. apply list_elem_of_fmap. exists 0.
        split; [reflexivity|]. apply elem_of_seqZ. lia.
      - unfold inBounds, GRID_SIZE. simpl. lia.
      - unfold touches. simpl. lia. }
    revert Hwater. vm_compute. discriminate.
Defined.

End StrictValidator.

(** ** The length of a battle *)

Section BattleLength.
Import TestCode.

Lemma countIn_range (s : Z) (grid : Grid) : 0 <= countIn s grid <= 100.
Proof.
  unfold countIn. split; [lia|].
  pose proof (length_filter (fun c => getCellState grid c.1 c.2 = s) allCells) as H.
  assert (Hall : length allCells = 100%nat) by reflexivity.
  lia.
Qed.

(** X27: the untried cells of the two attack grids measure what is left
    of a battle.  Over a pass of [loop] without a blue-button event their
    number (at most 200) never grows, and every pass that ends a turn, the
    player's or the opponent's, lowers it by exactly one.  So a battle is
    over after at most 200 turns. *)
Theorem X27_every_turn_uses_up_one_untried_cell
  (t : Tick) (g : Game) (draws : list Z) (g' : Game) (rest : list Z) :
  wfGame g -> blue t = BlueNone -> loop t g draws = Some (g', rest) ->
  0 <= untriedLeft g' <= untriedLeft g /\ untriedLeft g <= 200 /\
  (gameState g = PLAYER_TURN \/ gameState g = ARDUINO_TURN ->
   gameState g' <> gameState g -> untriedLeft g' = untriedLeft g - 1).
Proof.
  intros Hwf Hblue. unfold loop. rewrite Hblue. cbv beta iota zeta.
  pose proof (countIn_range CELL_EMPTY (playerAttackGrid g)) as Rp.
  pose proof (countIn_range CELL_EMPTY (arduinoAttackGrid g)) as Ra.
  pose proof (countIn_range CELL_EMPTY (playerAttackGrid g')) as Rp'.
  pose proof (countIn_range CELL_EMPTY (arduinoAttackGrid g')) as Ra'.
  unfold untriedLeft.
  destruct (gameState g) eqn:Es.
  - intros [= <- <-]. split_and!; try lia. intros [E|E]; discriminate.
  - intros [= <- <-].
    assert (Hgrids : playerAttackGrid (playerPlaceShips t g) = playerAttackGrid g /\
                     arduinoAttackGrid (playerPlaceShips t g) = arduinoAttackGrid g).
    { destruct (Z.le_gt_cases NUM_SHIPS (shipId g)) as [Hge|Hlt].
      - rewrite playerPlaceShips_done by exact Hge. split; reflexivity.
      - destruct (playerPlaceShips_effect t g Hwf Hlt) as (_ & E1 & E2 & _).
        split; assumption. }
    destruct Hgrids as [-> ->]. split_and!; try lia. intros [E|E]; discriminate.
  - intros [= <- <-].
    pose proof (wfGame_updateCursorPosition t g Hwf) as Hwf1.
    destruct (updateCursorPosition_grids t g) as (_ & _ & E3 & E4 & E5).
    unfold playerAttack in *. cbv zeta in *.
    destruct (redPress t).
    + destruct (Z.eq_dec (getCellState (playerAttackGrid (updateCursorPosition t g))
                            (cursorX (updateCursorPosition t g))
                            (cursorY (updateCursorPosition t g))) CELL_EMPTY)
        as [He|Hne].
      * destruct (playerAttackPress_untried _ He) as (Epa & _ & _ & Eaa & _).
        rewrite Epa, Eaa, E4 in *.
        rewrite countIn_setCellState in *; try apply Hwf1;
          try (destruct (_ =? CELL_SHIP); unfold CELL_HIT, CELL_MISS; lia).
        rewrite He, E3 in *.
        change (CELL_EMPTY =? CELL_EMPTY) with true in *. cbv iota in *.
        assert (Hmark : ((if getCellState (arduinoGrid (updateCursorPosition t g))
                               (cursorX (updateCursorPosition t g))
                               (cursorY (updateCursorPosition t g)) =? CELL_SHIP
                          then CELL_HIT else CELL_MISS) =? CELL_EMPTY) = false)
          by (destruct (_ =? CELL_SHIP); reflexivity).
        rewrite Hmark in *. split_and!; try lia.
      * rewrite playerAttackPress_tried in * by exact Hne.
        rewrite E3, E4, E5 in *. split_and!; try lia.
        intros _ Hch. exfalso. apply Hch. exact Es.
    + rewrite E3, E4, E5 in *. split_and!; try lia.
      intros _ Hch. exfalso. apply Hch. exact Es.
  - intros Hrun.
    destruct (arduinoAttack_Some _ _ _ _ _ Hwf Hrun)
      as (x & y & (Hb & He & Eaa & _ & _ & Epa & _) & _).
    rewrite Eaa, Epa in *.
    rewrite countIn_setCellState in *; try apply Hwf; try exact Hb;
      try (destruct (_ =? CELL_SHIP); unfold CELL_HIT, CELL_MISS; lia).
    rewrite He in *. change (CELL_EMPTY =? CELL_EMPTY) with true in *. cbv iota in *.
    assert (Hmark : ((if getCellState (playerGrid g) x y =? CELL_SHIP
                      then CELL_HIT else CELL_MISS) =? CELL_EMPTY) = false)
      by (destruct (_ =? CELL_SHIP); reflexivity).
    rewrite Hmark in *. split_and!; try lia.
  - intros [= <- <-]. split_and!; try lia. intros [E|E]; discriminate.
Qed.

Lemma X27_witness :
  untriedLeft (playerAttack press (set_gameState PLAYER_TURN freshGame))
  = untriedLeft (set_gameState PLAYER_TURN freshGame) - 1.
Proof.
  assert (Hwf : wfGame (set_gameState PLAYER_TURN freshGame)).
  { apply wfGame_set_gameState.
    apply (wfGame_resetGame powerOn fleetDraws freshGame []);
      [apply wfGame_powerOn|vm_compute; reflexivity]. }
  assert (Hrun : loop press (set_gameState PLAYER_TURN freshGame) []
                 = Some (playerAttack press (set_gameState PLAYER_TURN freshGame), []))
    by reflexivity.
  destruct (X27_every_turn_uses_up_one_untried_cell press
              (set_gameState PLAYER_TURN freshGame) [] _ _ Hwf eq_refl Hrun)
    as (_ & _ & Hturn).
  apply Hturn.
  - left. reflexivity.
  - vm_compute. discriminate.
Defined.

End BattleLength.

(** ** The second sketch of the packed file *)

Section FramedSketch.
Import TestCode.

(** X28: [getLEDIndex] of the second sketch, which frames the 10x10 grid
    in a 12x12 serpentine matrix, returns -1 whenever [x >= 10] or
    [y >= 10].  For a cell of the grid the index lies in the matrix, in
    matrix row [y + 1], at column [x + 1] counted from the left in even
    rows and from the right in odd rows, so never on the frame; two
    different cells never share an LED. *)
Theorem X28_framed_index_stays_off_the_frame (x y x' y' : Z) :
  (GRID_SIZE <= x \/ GRID_SIZE <= y -> Framed.getLEDIndex x y = -1) /\
  (inBounds x y -> inBounds x' y' ->
   let led := Framed.getLEDIndex x y in
   0 <= led < Framed.NUM_LEDS /\
   led / 12 = y + 1 /\
   led mod 12 = (if Z.even (y + 1) then x + 1 else 11 - (x + 1)) /\
   1 <= led / 12 <= 10 /\ 1 <= led mod 12 <= 10 /\
   (Framed.getLEDIndex x' y' = led -> (x', y') = (x, y))).
Proof.
  split.
  - intros Hout. unfold Framed.getLEDIndex, GRID_SIZE in *.
    destruct (Z.leb_spec 10 x); [reflexivity|].
    destruct (Z.leb_spec 10 y); [reflexivity|lia].
  - intros [Hx Hy] [Hx' Hy'] led. subst led.
    assert (Hform : forall a b, 0 <= a < 10 -> 0 <= b < 10 ->
              Framed.getLEDIndex a b =
              if Z.even (b + 1) then (b + 1) * 12 + (a + 1)
              else (b + 1) * 12 + (11 - (a + 1))).
    { intros a b Ha Hb. unfold Framed.getLEDIndex, Framed.MATRIX_SIZE, GRID_SIZE, i16.
      destruct (Z.leb_spec 10 a); [lia|]. destruct (Z.leb_spec 10 b); [lia|].
      simpl orb. cbv iota. rewrite !u8_small by lia.
      rewrite (Zmod_even (b + 1)).
      destruct (Z.even (b + 1)); simpl Z.eqb; cbv iota;
        rewrite Z.mod_small by lia; lia. }
    unfold GRID_SIZE in *. rewrite (Hform x y) by lia. rewrite (Hform x' y') by lia.
    unfold Framed.NUM_LEDS, Framed.MATRIX_SIZE.
    destruct (Z.even (y + 1)) eqn:Ey.
    + assert (Hd : ((y + 1) * 12 + (x + 1)) / 12 = y + 1)
        by (symmetry; apply (Z.div_unique _ 12 _ (x + 1)); lia).
      assert (Hm : ((y + 1) * 12 + (x + 1)) mod 12 = x + 1)
        by (symmetry; apply (Z.mod_unique _ 12 (y + 1) _); lia).
      rewrite Hd, Hm. split_and!; try lia.
      destruct (Z.even (y' + 1)) eqn:Ey'; intros E.
      * assert (x' = x /\ y' = y) as [-> ->] by lia. reflexivity.
      * assert (y' = y) by lia. subst y'. congruence.
    + assert (Hd : ((y + 1) * 12 + (11 - (x + 1))) / 12 = y + 1)
        by (symmetry; apply (Z.div_unique _ 12 _ (11 - (x + 1))); lia).
      assert (Hm : ((y + 1) * 12 + (11 - (x + 1))) mod 12 = 11 - (x + 1))
        by (symmetry; apply (Z.mod_unique _ 12 (y + 1) _); lia).
      rewrite Hd, Hm. split_and!; try lia.
      destruct (Z.even (y' + 1)) eqn:Ey'; intros E.
      * assert (y' = y) by lia. subst y'. congruence.
      * assert (x' = x /\ y' = y) as [-> ->] by lia. reflexivity.
Qed.

Lemma X28_witness :
  Framed.getLEDIndex 0 0 / 12 = 1 /\ Framed.getLEDIndex 0 0 mod 12 = 10 /\
  Framed.getLEDIndex 10 0 = -1.
Proof.
  assert (H0 : inBounds 0 0) by (unfold inBounds, GRID_SIZE; lia).
  destruct (X28_framed_index_stays_off_the_frame 0 0 0 0) as [_ Hin].
  destruct (Hin H0 H0) as (_ & Hrow & Hcol & _).
  destruct (X28_framed_index_stays_off_the_frame 10 0 0 0) as [Hout _].
  split_and!; [exact Hrow|exact Hcol|].
  apply Hout. left. unfold GRID_SIZE. lia.
Defined.

End FramedSketch.
